(** * Image reconciliation against an S3 bucket: key derivation, existence
      probe, per-row decision and run counters.

    Shallow embedding of [s3_handler.py] and [main.py].

    Conventions.
    - A Python [str] is represented by the [string] holding its UTF-8
      encoding, one [ascii] per byte.
    - Integers are [Z]; the [-1] of [str.find] / [str.rfind] is kept. The
      four run counters, which start at 0 and only grow, are [nat].
    - A call that may raise returns a [result]; [Raise] carries [str(e)].
    - Network and image collaborators (boto3, requests, PIL) are a record of
      functions over an abstract world; every call is logged in a trace.
    - Logger calls have no effect on results and are left out. *)

From Stdlib Require Import ZArith Ascii String List Lia.
From stdpp Require Import base strings list gmap pretty.

Local Open Scope Z_scope.

(** ** Results of calls that may raise *)

Inductive result (A : Type) : Type :=
| Ok (a : A)
| Raise (msg : string).
Arguments Ok {A} a.
Arguments Raise {A} msg.

(** ** Python string primitives *)

Module Py.

(** [s[:n]] and [s[n:]] for [0 <= n]. *)
Fixpoint take (n : nat) (s : string) : string :=
  match n, s with
  | S n', String c s' => String c (take n' s')
  | _, _ => ""
  end.

Fixpoint drop (n : nat) (s : string) : string :=
  match n, s with
  | S n', String _ s' => drop n' s'
  | _, _ => s
  end.

(** [s.startswith(p)]. *)
Fixpoint startswith (p s : string) : bool :=
  match p, s with
  | "", _ => true
  | String a p', String b s' => if Ascii.eqb a b then startswith p' s' else false
  | String _ _, "" => false
  end.

(** [s.find(sub)]: lowest index of an occurrence, [-1] when there is none.
    [find_from] carries the index of the position under inspection. *)
Fixpoint find_from (sub s : string) (i : Z) : Z :=
  if startswith sub s then i
  else match s with
       | "" => -1
       | String _ s' => find_from sub s' (i + 1)
       end.

Definition find (sub s : string) : Z := find_from sub s 0.

(** [sub in s]. *)
Definition contains (sub s : string) : bool := negb (find sub s =? -1).

(** [s.rfind(c)] for a one-character [c]: highest index, [-1] when absent.
    One left-to-right pass remembering the last hit. *)
Fixpoint rfind_from (c : ascii) (s : string) (i last : Z) : Z :=
  match s with
  | "" => last
  | String a s' => rfind_from c s' (i + 1) (if Ascii.eqb a c then i else last)
  end.

Definition rfind (c : ascii) (s : string) : Z := rfind_from c s 0 (-1).

(** [s.lstrip('/')]. *)
Fixpoint lstrip_slash (s : string) : string :=
  match s with
  | String "/" s' => lstrip_slash s'
  | _ => s
  end.

(** [s.lower()] on the ASCII letters. No character outside ASCII lowers to
    a string of the letters of png, jpeg, jpg, gif, webp, so membership of
    [ext.lower()] in the extension list is decided the same way. *)
Definition lower_char (c : ascii) : ascii :=
  let n := N_of_ascii c in
  if ((65 <=? n) && (n <=? 90))%N then ascii_of_N (n + 32) else c.

Fixpoint lower (s : string) : string :=
  match s with
  | "" => ""
  | String c s' => String (lower_char c) (lower s')
  end.

(** [os.path.splitext] (posixpath: [sep = '/'], no [altsep], [extsep = '.']).

    <<
    sepIndex = p.rfind(sep); dotIndex = p.rfind(extsep)
    if dotIndex > sepIndex:
        filenameIndex = sepIndex + 1
        while filenameIndex < dotIndex:
            if p[filenameIndex] != extsep: return p[:dotIndex], p[dotIndex:]
            filenameIndex += 1
    return p, ''
    >>
    [splitext_scan p filenameIndex n] is the [while] loop with [n]
    iterations left; it answers whether the loop returns the split. *)
Fixpoint splitext_scan (p : string) (filenameIndex n : nat) : bool :=
  match n with
  | O => false
  | S n' =>
      match String.get filenameIndex p with
      | Some c => if Ascii.eqb c "." then splitext_scan p (S filenameIndex) n' else true
      | None => true
      end
  end.

Definition splitext (p : string) : string * string :=
  let sepIndex := rfind "/" p in
  let dotIndex := rfind "." p in
  if (sepIndex <? dotIndex)
     && splitext_scan p (Z.to_nat (sepIndex + 1)) (Z.to_nat (dotIndex - (sepIndex + 1)))
  then (take (Z.to_nat dotIndex) p, drop (Z.to_nat dotIndex) p)
  else (p, "").

(** [os.path.basename(p)] is [p[p.rfind('/') + 1:]]. *)
Definition basename (p : string) : string := drop (Z.to_nat (rfind "/" p + 1)) p.

End Py.

(** ** urllib.parse: quote and unquote *)

Module Urllib.

Definition hex_digit (n : N) : ascii :=
  ascii_of_N (if (n <? 10)%N then 48 + n else 55 + n).

Definition hex_value (c : ascii) : option N :=
  let n := N_of_ascii c in
  if ((48 <=? n) && (n <=? 57))%N then Some (n - 48)%N
  else if ((65 <=? n) && (n <=? 70))%N then Some (n - 55)%N
  else if ((97 <=? n) && (n <=? 102))%N then Some (n - 87)%N
  else None.

(** The characters [quote] never escapes: letters, digits and [_.-~]. *)
Definition always_safe (c : ascii) : bool :=
  let n := N_of_ascii c in
  (((65 <=? n) && (n <=? 90)) || ((97 <=? n) && (n <=? 122))
   || ((48 <=? n) && (n <=? 57))
   || (n =? 95) || (n =? 46) || (n =? 45) || (n =? 126))%N.

Definition escape (c : ascii) (rest : string) : string :=
  let n := N_of_ascii c in
  String "%" (String (hex_digit (n / 16)) (String (hex_digit (n mod 16)) rest)).

(** [quote(s, safe='/')]: every byte of the UTF-8 encoding that is neither
    always safe nor ['/'] becomes [%XX] with upper-case hex digits. *)
Fixpoint quote (s : string) : string :=
  match s with
  | "" => ""
  | String c s' =>
      if always_safe c || Ascii.eqb c "/" then String c (quote s')
      else escape c (quote s')
  end.

(** [unquote_to_bytes]: [%] followed by two hex digits (either case) is one
    byte; any other [%] stays. *)
Fixpoint unquote_to_bytes (s : string) : string :=
  match s with
  | "" => ""
  | String c t =>
      if Ascii.eqb c "%" then
        match t with
        | String a (String b rest) =>
            match hex_value a, hex_value b with
            | Some h, Some l => String (ascii_of_N (16 * h + l)) (unquote_to_bytes rest)
            | _, _ => String c (unquote_to_bytes t)
            end
        | _ => String c (unquote_to_bytes t)
        end
      else String c (unquote_to_bytes t)
  end.

(** [bytes.decode('utf-8', errors='replace')], read back as UTF-8: every
    maximal ill-formed subsequence becomes U+FFFD (EF BF BD). *)
Definition replacement : string := String "239" (String "191" (String "189" "")).

Definition continuation (c : ascii) : bool :=
  let n := N_of_ascii c in ((128 <=? n) && (n <=? 191))%N.

(** Admissible second byte after the lead byte [b0] of a 3- or 4-byte
    sequence (no overlong forms, no surrogates, nothing above U+10FFFF). *)
Definition second_ok (b0 b1 : ascii) : bool :=
  let n0 := N_of_ascii b0 in
  let n1 := N_of_ascii b1 in
  (if n0 =? 224 then (160 <=? n1) && (n1 <=? 191)
   else if n0 =? 237 then (128 <=? n1) && (n1 <=? 159)
   else if n0 =? 240 then (144 <=? n1) && (n1 <=? 191)
   else if n0 =? 244 then (128 <=? n1) && (n1 <=? 143)
   else (128 <=? n1) && (n1 <=? 191))%N.

Fixpoint utf8_replace (s : string) : string :=
  match s with
  | "" => ""
  | String b0 t =>
      let n0 := N_of_ascii b0 in
      if (n0 <? 128)%N then String b0 (utf8_replace t)
      else if ((194 <=? n0) && (n0 <=? 223))%N then
        match t with
        | String b1 t1 =>
            if continuation b1 then String b0 (String b1 (utf8_replace t1))
            else replacement +:+ utf8_replace t
        | "" => replacement
        end
      else if ((224 <=? n0) && (n0 <=? 239))%N then
        match t with
        | String b1 t1 =>
            if second_ok b0 b1 then
              match t1 with
              | String b2 t2 =>
                  if continuation b2
                  then String b0 (String b1 (String b2 (utf8_replace t2)))
                  else replacement +:+ utf8_replace t1
              | "" => replacement
              end
            else replacement +:+ utf8_replace t
        | "" => replacement
        end
      else if ((240 <=? n0) && (n0 <=? 244))%N then
        match t with
        | String b1 t1 =>
            if second_ok b0 b1 then
              match t1 with
              | String b2 t2 =>
                  if continuation b2 then
                    match t2 with
                    | String b3 t3 =>
                        if continuation b3
                        then String b0 (String b1 (String b2 (String b3 (utf8_replace t3))))
                        else replacement +:+ utf8_replace t2
                    | "" => replacement
                    end
                  else replacement +:+ utf8_replace t1
              | "" => replacement
              end
            else replacement +:+ utf8_replace t
        | "" => replacement
        end
      else replacement +:+ utf8_replace t
  end.

(** [unquote(s)]: returned as is when it holds no [%]; otherwise the
    percent-decoded bytes, decoded with [errors='replace']. *)
Definition unquote (s : string) : string :=
  if Py.contains "%" s then utf8_replace (unquote_to_bytes s) else s.

(** Strings of bytes below 128. *)
Fixpoint ascii_only (s : string) : bool :=
  match s with
  | "" => true
  | String c s' => (N_of_ascii c <? 128)%N && ascii_only s'
  end.

End Urllib.

(** ** Unicode-aware [strip] and [upper], as far as the placeholder test of
       [main] reads them *)

Module Unicode.

(** The code points of a string: a chunk starts at every byte that is not a
    UTF-8 continuation byte. *)
Definition continues (s : string) : bool :=
  match s with
  | String d _ => Urllib.continuation d
  | "" => false
  end.

Fixpoint chars (s : string) : list string :=
  match s with
  | "" => []
  | String c s' =>
      match chars s' with
      | ch :: rest =>
          if continues s' then String c ch :: rest else String c "" :: ch :: rest
      | [] => [String c ""]
      end
  end.

Definition code (ch : string) : list N := map N_of_ascii (list_ascii_of_string ch).

(** [str.isspace] on one character: U+0009-000D, U+001C-0020, U+0085,
    U+00A0, U+1680, U+2000-200A, U+2028, U+2029, U+202F, U+205F, U+3000. *)
Definition is_space (ch : string) : bool :=
  match code ch with
  | [n] => (((9 <=? n) && (n <=? 13)) || ((28 <=? n) && (n <=? 32)))%N
  | [194; n] => ((n =? 133) || (n =? 160))%N
  | [225; 154; 128] => true
  | [226; 128; n] =>
      (((128 <=? n) && (n <=? 138)) || (n =? 168) || (n =? 169) || (n =? 175))%N
  | [226; 129; 159] => true
  | [227; 128; 128] => true
  | _ => false
  end%N.

Fixpoint lstrip_chars (l : list string) : list string :=
  match l with
  | ch :: l' => if is_space ch then lstrip_chars l' else l
  | [] => []
  end.

Fixpoint join (l : list string) : string :=
  match l with
  | [] => ""
  | ch :: l' => ch +:+ join l'
  end.

(** [s.strip()]. *)
Definition strip (s : string) : string :=
  join (rev (lstrip_chars (rev (lstrip_chars (chars s))))).

(** [upper] of one character: ASCII letters, and U+0131 (dotless i), whose
    upper case is [I]. Every other character outside ASCII has an upper
    case that is not made of the letters of PENDING, N/A, NA, NULL alone,
    so keeping it unchanged decides the placeholder test the same way. *)
Definition upper_char (ch : string) : string :=
  match code ch with
  | [n] => if ((97 <=? n) && (n <=? 122))%N then String (ascii_of_N (n - 32)) "" else ch
  | [196; 177] => "I"
  | _ => ch
  end%N.

Definition upper (s : string) : string := join (map upper_char (chars s)).

End Unicode.

(** ** Configuration ([cli.Config]) *)

Record Config := {
  input_csv : string;
  output_csv : string;
  bucket_name : string;
  aws_region : string;
  target_width : Z;
  target_height : Z;
  dry_run : bool;
  debug_save : bool;
  debug_dir : string;
  test_mode : bool;
  test_rows : Z
}.

(** ** Collaborators *)

(** [e.response['Error']['Code']] of a botocore [ClientError], as the probe
    reads it through [int(...)]: either the integer it denotes, or the text
    of the [ValueError] that [int] raises on it. *)
Inductive error_code :=
| IntCode (n : Z)
| NotAnInt (value_error : string).

(** What [s3.head_object(Bucket, Key)] does: return, raise [ClientError], or
    raise something else. *)
Inductive head_object_result :=
| HeadFound
| HeadClientError (code : error_code)
| HeadOtherError (msg : string).

(** What [requests.head(url, timeout=10)] does: return a response, raise a
    [requests.RequestException], or raise something else. *)
Inductive requests_head_result :=
| Response (status_code : Z)
| RequestException (msg : string)
| HeadRequestOtherError (msg : string).

(** The calls that leave the process, in the order they are made. [Probe]
    marks each entry into [check_s3_object_exists_and_accessible]. *)
Inductive event :=
| Probe (s3_key : string)
| HeadObject (bucket key : string)
| HttpHead (url : string)
| HttpGet (url : string)
| Normalize (debug_filename : option string)
| PutObject (bucket key : string).

(** The outside world: the bucket, the network and the image library. Each
    call may change the world (the bucket is shared and may change while the
    run is under way).
    - [urlparse_path url] is [urlparse(url).path]; it raises [ValueError] on
      some malformed inputs.
    - [requests_get url] is [requests.get(url, timeout=10)] followed by
      [raise_for_status()], returning [response.content].
    - [normalize] is [Image.open(...).convert('RGB')], [center_crop_image],
      the optional debug copy and the JPEG encoding into a buffer.
    - [upload_fileobj buffer bucket key] is [s3.upload_fileobj] with
      [ContentType = image/jpeg] and [ACL = public-read]. *)
Class Collaborators := {
  World : Type;
  urlparse_path : string -> result string;
  head_object : string -> string -> World -> head_object_result * World;
  requests_head : string -> World -> requests_head_result * World;
  requests_get : string -> World -> result string * World;
  normalize : Config -> string -> option string -> World -> result string * World;
  upload_fileobj : string -> string -> string -> World -> result unit * World
}.

(** ** Tuples returned by the source *)

(** [(needs_upload, status_code, status_message, actual_s3_key_found)]. *)
Record probe_result := {
  needs_upload : bool;
  status_code : Z;
  status_message : string;
  actual_s3_key : string
}.

(** [(s3_key, status, s3_url, response_code)], also the four fields written
    back to a row: [S3_Key], [Processing_Status], the result column and
    [HTTP_Response_Code]. *)
Record outcome := {
  s3_key : string;
  status : string;
  s3_url : string;
  response_code : Z
}.

Record counters := {
  uploaded_count : nat;
  exists_count : nat;
  reupload_count : nat;
  error_count : nat
}.

(** ** Key derivation ([S3Handler.extract_s3_path], [generate_s3_key]) *)

Section KeyDerivation.
Context `{Collaborators}.

(** [not url or not str(url).strip()]. *)
Definition is_blank (url : string) : bool :=
  String.eqb url "" || String.eqb (Unicode.strip url) "".

Definition extract_s3_path (url : string) : result string :=
  if is_blank url then Raise "Empty or invalid URL"
  else match urlparse_path url with
       | Ok path => Ok (Py.lstrip_slash path)
       | Raise e => Raise e
       end.

Definition image_extensions : list string :=
  [".png"; ".jpeg"; ".jpg"; ".gif"; ".webp"].

(** The [except Exception] of the source logs and re-raises, so a raise
    inside is a raise of [generate_s3_key]. *)
Definition generate_s3_key (original_url : string) : result string :=
  let path_start := Py.find "/wp-content/" original_url in
  if negb (path_start =? -1) then
    let key_path := Py.drop (Z.to_nat path_start) original_url in
    let '(base, _) := Py.splitext key_path in
    Ok (Py.lstrip_slash base +:+ ".jpg")
  else
    match extract_s3_path original_url with
    | Raise e => Raise e
    | Ok path =>
        let '(base, ext) := Py.splitext path in
        if bool_decide (Py.lower ext ∈ image_extensions)
        then Ok (base +:+ ".jpg")
        else Ok path
    end.

End KeyDerivation.

(** ** Public URL and variants *)

Definition get_s3_url (config : Config) (s3_key : string) : string :=
  "https://" +:+ bucket_name config +:+ ".s3." +:+ aws_region config
  +:+ ".amazonaws.com/" +:+ Urllib.quote s3_key.

(** The three encodings tried, before duplicates are removed. *)
Definition s3_key_variations (s3_key : string) : list string :=
  [s3_key; Urllib.unquote s3_key; Urllib.quote s3_key].

(** One turn of the loop that fills [seen] and [unique_variations]. *)
Definition unique_step (acc : gset string * list string) (key : string)
  : gset string * list string :=
  let '(seen, unique_variations) := acc in
  if decide (key ∈ seen) then acc
  else ({[key]} ∪ seen, unique_variations ++ [key]).

Definition unique_variations (s3_key : string) : list string :=
  snd (foldl unique_step (∅, []) (s3_key_variations s3_key)).

(** Following the words of the specification: keep the first occurrence of
    every key, in order. Compared with [unique_variations] below. *)
Fixpoint keep_first (l : list string) : list string :=
  match l with
  | [] => []
  | k :: l' => k :: filter (λ k', k' ≠ k) (keep_first l')
  end.

(** ** Calls on the world, with their trace *)

Section Reconciler.
Context `{Collaborators}.
Variable config : Config.

Definition M (A : Type) : Type := World -> A * World * list event.

Definition ret {A} (a : A) : M A := fun w => (a, w, []).

Definition bind {A B} (m : M A) (k : A -> M B) : M B :=
  fun w =>
    let '(a, w1, t1) := m w in
    let '(b, w2, t2) := k a w1 in
    (b, w2, t1 ++ t2).

(** Sequencing that stops at the first raise. *)
Definition bindE {A B} (m : M (result A)) (k : A -> M (result B)) : M (result B) :=
  bind m (fun r => match r with
                   | Ok a => k a
                   | Raise e => ret (Raise e)
                   end).

Definition call {A} (e : event) (f : World -> A * World) : M A :=
  fun w => let '(a, w1) := f w in (a, w1, [e]).

Notation "'do' x <- m 'in' k" := (bind m (fun x => k))
  (at level 10, x name, m at level 100, k at level 200).
Notation "'try' x <- m 'in' k" := (bindE m (fun x => k))
  (at level 10, x name, m at level 100, k at level 200).

(** *** [S3Handler.check_s3_object_exists_and_accessible] *)

(** The [for attempt_key in unique_variations] loop. *)
Fixpoint probe_loop (s3_key : string) (variations : list string)
  : M (result probe_result) :=
  match variations with
  | [] => ret (Ok {| needs_upload := true; status_code := 404;
                     status_message := "NOT_EXISTS"; actual_s3_key := s3_key |})
  | attempt_key :: rest =>
      do found <- call (HeadObject (bucket_name config) attempt_key)
                    (head_object (bucket_name config) attempt_key) in
      match found with
      | HeadFound =>
          let s3_url := get_s3_url config attempt_key in
          do response <- call (HttpHead s3_url) (requests_head s3_url) in
          match response with
          | Response code =>
              if code =? 200 then
                ret (Ok {| needs_upload := false; status_code := 200;
                           status_message := "EXISTS_ACCESSIBLE";
                           actual_s3_key := attempt_key |})
              else if code =? 403 then
                ret (Ok {| needs_upload := true; status_code := 403;
                           status_message := "EXISTS_403_REUPLOAD";
                           actual_s3_key := attempt_key |})
              else
                ret (Ok {| needs_upload := true; status_code := code;
                           status_message := "EXISTS_" +:+ pretty code +:+ "_REUPLOAD";
                           actual_s3_key := attempt_key |})
          | RequestException _ =>
              ret (Ok {| needs_upload := true; status_code := 0;
                         status_message := "ACCESS_TEST_ERROR";
                         actual_s3_key := attempt_key |})
          | HeadRequestOtherError _ =>
              ret (Ok {| needs_upload := true; status_code := 0;
                         status_message := "UNKNOWN_ERROR";
                         actual_s3_key := attempt_key |})
          end
      | HeadClientError (IntCode error_code) =>
          if error_code =? 404 then probe_loop s3_key rest
          else
            ret (Ok {| needs_upload := true; status_code := error_code;
                       status_message := "S3_ERROR_" +:+ pretty error_code;
                       actual_s3_key := attempt_key |})
      | HeadClientError (NotAnInt value_error) =>
          (* raised inside the [except ClientError] handler: it leaves the
             function *)
          ret (Raise value_error)
      | HeadOtherError _ =>
          ret (Ok {| needs_upload := true; status_code := 0;
                     status_message := "UNKNOWN_ERROR";
                     actual_s3_key := attempt_key |})
      end
  end.

Definition check_s3_object_exists_and_accessible (s3_key : string)
  : M (result probe_result) :=
  do _ <- call (Probe s3_key) (fun w => (tt, w)) in
  probe_loop s3_key (unique_variations s3_key).

(** *** [S3Handler.upload_to_s3] and [ImageProcessor.process_image_from_url] *)

Definition upload_to_s3 (image_buffer s3_key : string) : M (result string) :=
  try _ <- call (PutObject (bucket_name config) s3_key)
             (upload_fileobj image_buffer (bucket_name config) s3_key) in
  ret (Ok "UPLOADED").

Definition process_image_from_url (url : string) (debug_filename : option string)
  : M (result string) :=
  try content <- call (HttpGet url) (requests_get url) in
  call (Normalize debug_filename) (normalize config content debug_filename).

(** *** [process_single_image] *)

(** The body of the [try]. *)
Definition process_single_image_try (url : string) : M (result outcome) :=
  try s3_key <- ret (generate_s3_key url) in
  try checked <- check_s3_object_exists_and_accessible s3_key in
  if negb (needs_upload checked) then
    let actual_s3_url := get_s3_url config (actual_s3_key checked) in
    ret (Ok {| s3_key := actual_s3_key checked; status := "EXISTS_OK";
               s3_url := actual_s3_url; response_code := status_code checked |})
  else
    let upload_s3_key := actual_s3_key checked in
    let upload_s3_url := get_s3_url config upload_s3_key in
    if dry_run config then
      ret (Ok {| s3_key := upload_s3_key;
                 status := "WOULD_UPLOAD_" +:+ status_message checked;
                 s3_url := upload_s3_url; response_code := status_code checked |})
    else
      let debug_filename :=
        if debug_save config then Some (Py.basename upload_s3_key) else None in
      try image_buffer <- process_image_from_url url debug_filename in
      try _ <- upload_to_s3 image_buffer upload_s3_key in
      try verify <- check_s3_object_exists_and_accessible upload_s3_key in
      if negb (needs_upload verify) && (status_code verify =? 200) then
        ret (Ok {| s3_key := upload_s3_key; status := "UPLOADED_OK";
                   s3_url := upload_s3_url; response_code := status_code verify |})
      else
        ret (Ok {| s3_key := upload_s3_key;
                   status := "UPLOADED_VERIFY_FAIL_" +:+ pretty (status_code verify);
                   s3_url := upload_s3_url; response_code := status_code verify |}).

(** The [except Exception as e] of [process_single_image]. *)
Definition error_outcome (e : string) : outcome :=
  {| s3_key := ""; status := "ERROR: " +:+ e; s3_url := ""; response_code := 0 |}.

Definition process_single_image (url : string) : M outcome :=
  do r <- process_single_image_try url in
  ret (match r with
       | Ok o => o
       | Raise e => error_outcome e
       end).

(** *** The row loop of [main] *)

(** A cell of the URL column: [None] is a missing value ([pd.isna]). *)
Definition placeholders : list string := ["PENDING"; "N/A"; "NA"; "NULL"; ""].

Definition is_placeholder (cell : option string) : bool :=
  match cell with
  | None => true
  | Some url => bool_decide (Unicode.upper (Unicode.strip url) ∈ placeholders)
  end.

Definition skipped_outcome : outcome :=
  {| s3_key := ""; status := "SKIPPED_INVALID_URL"; s3_url := ""; response_code := 0 |}.

Definition add_uploaded (c : counters) : counters :=
  {| uploaded_count := S (uploaded_count c); exists_count := exists_count c;
     reupload_count := reupload_count c; error_count := error_count c |}.
Definition add_exists (c : counters) : counters :=
  {| uploaded_count := uploaded_count c; exists_count := S (exists_count c);
     reupload_count := reupload_count c; error_count := error_count c |}.
Definition add_reupload (c : counters) : counters :=
  {| uploaded_count := uploaded_count c; exists_count := exists_count c;
     reupload_count := S (reupload_count c); error_count := error_count c |}.
Definition add_error (c : counters) : counters :=
  {| uploaded_count := uploaded_count c; exists_count := exists_count c;
     reupload_count := reupload_count c; error_count := S (error_count c) |}.

(** The condition under which a row is counted as a re-upload ([and] binds
    tighter than [or]). *)
Definition reupload_label (status : string) : bool :=
  Py.startswith "WOULD_UPLOAD_EXISTS_403" status
  || (Py.startswith "UPLOADED" status && Py.contains "403" status).

Definition count_result (status : string) (c : counters) : counters :=
  if Py.startswith "UPLOADED" status || Py.startswith "WOULD_UPLOAD" status then
    if reupload_label status then add_reupload c else add_uploaded c
  else if String.eqb status "EXISTS_OK" then add_exists c
  else add_error c.

(** One turn of [for index, row in df.iterrows()]: the fields written to
    the row and the counters after it. [process_single_image] catches every
    [Exception], so the [except] around its call in [main] is never
    entered and is left out. *)
Definition main_row (cell : option string) (c : counters) : M (outcome * counters) :=
  match cell with
  | Some url =>
      if is_placeholder cell then ret (skipped_outcome, add_error c)
      else
        do o <- process_single_image url in
        ret (o, count_result (status o) c)
  | None => ret (skipped_outcome, add_error c)
  end.

Fixpoint main_loop (rows : list (option string)) (c : counters)
  : M (list outcome * counters) :=
  match rows with
  | [] => ret ([], c)
  | cell :: rest =>
      do oc <- main_row cell c in
      do rc <- main_loop rest (snd oc) in
      ret (fst oc :: fst rc, snd rc)
  end.

Definition zero_counters : counters :=
  {| uploaded_count := 0; exists_count := 0; reupload_count := 0; error_count := 0 |}.

(** The rows written and the counters reported by a run over [rows]. *)
Definition main_run (rows : list (option string)) : M (list outcome * counters) :=
  main_loop rows zero_counters.

(** *** Reading a run *)

(** The [debug_filename] that [process_single_image] passes on for an upload
    to [key]. *)
Definition debug_name (key : string) : option string :=
  if debug_save config then Some (Py.basename key) else None.

(** The world after [head_object] has answered 404 for each key of
    [variations] in turn, if it does. *)
Fixpoint skip_missing (variations : list string) (w : World) : option World :=
  match variations with
  | [] => Some w
  | key :: rest =>
      match head_object (bucket_name config) key w with
      | (HeadClientError (IntCode n), w1) =>
          if n =? 404 then skip_missing rest w1 else None
      | _ => None
      end
  end.

End Reconciler.

(** What the probe answers once [head_object] has found [key] and the public
    check has returned [code] (the three [if] branches on
    [response.status_code], in one expression). *)
Definition found_result (key : string) (code : Z) : probe_result :=
  {| needs_upload := negb (code =? 200);
     status_code := code;
     status_message :=
       if code =? 200 then "EXISTS_ACCESSIBLE"
       else "EXISTS_" +:+ pretty code +:+ "_REUPLOAD";
     actual_s3_key := key |}.

(** The part of the public URL that comes before the encoded key. *)
Definition url_prefix (config : Config) : string :=
  "https://" +:+ bucket_name config +:+ ".s3." +:+ aws_region config
  +:+ ".amazonaws.com/".

(** Events of the existence probe below its entry mark, and events of the
    download, normalize and upload steps. *)
Definition lookup_event (e : event) : bool :=
  match e with
  | HeadObject _ _ | HttpHead _ => true
  | _ => false
  end.

Definition upload_activity (e : event) : bool :=
  match e with
  | HttpGet _ | Normalize _ | PutObject _ _ => true
  | _ => false
  end.

Definition total (c : counters) : nat :=
  (uploaded_count c + exists_count c + reupload_count c + error_count c)%nat.

(** Reading the result of a run: what was computed, leaving out the world
    and the trace. *)
Definition value {A W : Type} (r : A * W * list event) : A := fst (fst r).
Definition trace {A W : Type} (r : A * W * list event) : list event := snd r.

(** ** A small concrete world, for running the model

    The bucket is a list of [(key, status)] pairs: the keys stored and the
    HTTP status their public URL answers with. An upload stores the key with
    status 200. Image downloads succeed when [source_up] holds and the URL
    does not contain [missing]. *)

Module Toy.

Record world := {
  objects : list (string * Z);
  source_up : bool
}.

Definition config (dry : bool) : Config :=
  {| input_csv := "in.csv"; output_csv := "out.csv";
     bucket_name := "bucket"; aws_region := "ap-south-1";
     target_width := 1200; target_height := 800;
     dry_run := dry; debug_save := false; debug_dir := "debug_images";
     test_mode := false; test_rows := 5 |}.

Definition stored (key : string) (w : world) : bool :=
  existsb (fun kv => String.eqb (fst kv) key) (objects w).

Definition public_status (url : string) (w : world) : Z :=
  match List.find (fun kv => String.eqb (get_s3_url (config true) (fst kv)) url) (objects w) with
  | Some kv => snd kv
  | None => 404
  end.

(** The path of a URL of the shape [scheme://authority/path], cut at the
    first [?] or [#]; on such URLs it is what [urlparse(url).path] gives. *)
Definition cut_at (c : ascii) (s : string) : string :=
  let i := Py.find (String c "") s in
  if i =? -1 then s else Py.take (Z.to_nat i) s.

Definition plain_path (url : string) : string :=
  let i := Py.find "://" url in
  let after := if i =? -1 then url else Py.drop (Z.to_nat (i + 3)) url in
  let j := Py.find "/" after in
  let path := if i =? -1 then after
              else if j =? -1 then "" else Py.drop (Z.to_nat j) after in
  cut_at "?" (cut_at "#" path).

#[export] Instance collaborators : Collaborators := {|
  World := world;
  urlparse_path := fun url => Ok (plain_path url);
  head_object := fun _ key w =>
    (if stored key w then HeadFound else HeadClientError (IntCode 404), w);
  requests_head := fun url w => (Response (public_status url w), w);
  requests_get := fun url w =>
    (if source_up w && negb (Py.contains "missing" url) then Ok "image"
     else Raise "404 Client Error: Not Found", w);
  normalize := fun _ content _ w => (Ok ("jpeg:" +:+ content), w);
  upload_fileobj := fun _ _ key w =>
    (Ok tt, {| objects := (key, 200) :: filter (fun kv => fst kv ≠ key) (objects w);
               source_up := source_up w |})
|}.

Definition empty_bucket : world := {| objects := []; source_up := true |}.

End Toy.

(** ** A scripted world, for the failures the small world never shows

    [heads] says what [head_object] does for a key (404 when not listed),
    [publics] what [requests.head] does for a URL (a 404 response when not
    listed). Downloads fail; nothing changes the world. *)

Module Script.

Record world := {
  heads : list (string * head_object_result);
  publics : list (string * requests_head_result)
}.

Definition answer {A : Type} (table : list (string * A)) (key : string) (default : A) : A :=
  match List.find (fun kv => String.eqb (fst kv) key) table with
  | Some kv => snd kv
  | None => default
  end.

#[export] Instance collaborators : Collaborators := {|
  World := world;
  urlparse_path := fun url => Ok (Toy.plain_path url);
  head_object := fun _ key w => (answer (heads w) key (HeadClientError (IntCode 404)), w);
  requests_head := fun url w => (answer (publics w) url (Response 404), w);
  requests_get := fun _ w => (Raise "connection refused", w);
  normalize := fun _ content _ w => (Ok content, w);
  upload_fileobj := fun _ _ _ w => (Ok tt, w)
|}.

End Script.

(** ** Shapes of strings

    Plain notions in which the facts below say what the string functions
    return. *)

(** The character [c] occurs in [s]. *)
Fixpoint occurs (c : ascii) (s : string) : bool :=
  match s with
  | "" => false
  | String a s' => Ascii.eqb a c || occurs c s'
  end.

(** [n] times the character [c]. *)
Fixpoint copies (n : nat) (c : ascii) : string :=
  match n with
  | O => ""
  | S n' => String c (copies n' c)
  end.

(** A path read part by part: [n] leading slashes, the directories [dir]
    (empty, or ending with a slash), then the last component, made of [k]
    leading dots, a [name] and the extension [ext]. The extension is empty
    when the name holds no dot; otherwise it runs from the last dot of the
    component to the end, and the name before that dot is not empty. *)
Definition path_parts (path : string) (n : nat) (dir : string) (k : nat)
           (name ext : string) : Prop :=
  path = copies n "/" +:+ dir +:+ copies k "." +:+ name +:+ ext
  /\ Py.startswith "/" dir = false
  /\ (dir = "" \/ exists d, dir = d +:+ "/")
  /\ occurs "/" name = false
  /\ Py.startswith "." name = false
  /\ ((ext = "" /\ occurs "." name = false)
      \/ (name <> ""
          /\ exists e, ext = String "." e
                       /\ occurs "." e = false /\ occurs "/" e = false)).

(** ** More readings of a trace *)

(** Keys made of letters, digits, [_.-~] and ['/'] only: [quote] leaves them
    as they are. *)
Fixpoint unreserved (s : string) : bool :=
  match s with
  | "" => true
  | String c s' => (Urllib.always_safe c || Ascii.eqb c "/") && unreserved s'
  end.

Definition is_probe (e : event) : bool :=
  match e with Probe _ => true | _ => false end.
Definition is_head_object (e : event) : bool :=
  match e with HeadObject _ _ => true | _ => false end.
Definition is_http_head (e : event) : bool :=
  match e with HttpHead _ => true | _ => false end.
Definition is_http_get (e : event) : bool :=
  match e with HttpGet _ => true | _ => false end.
Definition is_normalize (e : event) : bool :=
  match e with Normalize _ => true | _ => false end.
Definition is_put_object (e : event) : bool :=
  match e with PutObject _ _ => true | _ => false end.

(** How many events of a kind a trace holds. *)
Fixpoint count (p : event -> bool) (t : list event) : nat :=
  match t with
  | [] => 0
  | e :: t' => ((if p e then 1 else 0) + count p t')%nat
  end.

(** ** The single-file script ([unified_image_processor.py])

    Its probe looks up the key as given, once, and checks the URL made of the
    prefix and the key without encoding it; it returns
    [(needs_upload, status_code, status_message)]. Its [extract_s3_path] and
    [generate_s3_key] are, on strings, those of [S3Handler]. *)

Section Unified.
Context `{Collaborators}.
Variable config : Config.

Notation "'do' x <- m 'in' k" := (bind m (fun x => k))
  (at level 10, x name, m at level 100, k at level 200).
Notation "'try' x <- m 'in' k" := (bindE m (fun x => k))
  (at level 10, x name, m at level 100, k at level 200).

Definition unified_s3_url (s3_key : string) : string :=
  "https://" +:+ bucket_name config +:+ ".s3." +:+ aws_region config
  +:+ ".amazonaws.com/" +:+ s3_key.

Definition unified_check (s3_key : string) : M (result (bool * Z * string)) :=
  do _ <- call (Probe s3_key) (fun w => (tt, w)) in
  do found <- call (HeadObject (bucket_name config) s3_key)
                (head_object (bucket_name config) s3_key) in
  match found with
  | HeadFound =>
      let s3_url := unified_s3_url s3_key in
      do response <- call (HttpHead s3_url) (requests_head s3_url) in
      match response with
      | Response code =>
          if code =? 200 then ret (Ok (false, 200, "EXISTS_ACCESSIBLE"))
          else if code =? 403 then ret (Ok (true, 403, "EXISTS_403_REUPLOAD"))
          else ret (Ok (true, code, "EXISTS_" +:+ pretty code +:+ "_REUPLOAD"))
      | RequestException _ => ret (Ok (true, 0, "ACCESS_TEST_ERROR"))
      | HeadRequestOtherError _ => ret (Ok (true, 0, "UNKNOWN_ERROR"))
      end
  | HeadClientError (IntCode error_code) =>
      if error_code =? 404 then ret (Ok (true, 404, "NOT_EXISTS"))
      else ret (Ok (true, error_code, "S3_ERROR_" +:+ pretty error_code))
  | HeadClientError (NotAnInt value_error) => ret (Raise value_error)
  | HeadOtherError _ => ret (Ok (true, 0, "UNKNOWN_ERROR"))
  end.

Definition unified_process_try (url : string) : M (result outcome) :=
  try s3_key <- ret (generate_s3_key url) in
  let s3_url := unified_s3_url s3_key in
  try checked <- unified_check s3_key in
  let '(needs_upload, status_code, check_status) := checked in
  if negb needs_upload then
    ret (Ok {| s3_key := s3_key; status := "EXISTS_OK";
               s3_url := s3_url; response_code := status_code |})
  else if dry_run config then
    ret (Ok {| s3_key := s3_key; status := "WOULD_UPLOAD_" +:+ check_status;
               s3_url := s3_url; response_code := status_code |})
  else
    let debug_filename :=
      if debug_save config then Some (Py.basename s3_key) else None in
    try image_buffer <- process_image_from_url config url debug_filename in
    try _ <- upload_to_s3 config image_buffer s3_key in
    try verify <- unified_check s3_key in
    let '(verify_needs_upload, verify_status_code, _) := verify in
    if negb verify_needs_upload && (verify_status_code =? 200) then
      ret (Ok {| s3_key := s3_key; status := "UPLOADED_OK";
                 s3_url := s3_url; response_code := verify_status_code |})
    else
      ret (Ok {| s3_key := s3_key;
                 status := "UPLOADED_VERIFY_FAIL_" +:+ pretty verify_status_code;
                 s3_url := s3_url; response_code := verify_status_code |}).

Definition unified_process_single_image (url : string) : M outcome :=
  do r <- unified_process_try url in
  ret (match r with
       | Ok o => o
       | Raise e => error_outcome e
       end).

End Unified.

(** The three-part answer of the script's probe, read as an answer of the
    [S3Handler] probe that matched [key]. *)
Definition as_probe_result (key : string) (r : result (bool * Z * string))
  : result probe_result :=
  match r with
  | Ok (n, c, m) =>
      Ok {| needs_upload := n; status_code := c; status_message := m;
            actual_s3_key := key |}
  | Raise e => Raise e
  end.

(** ** [main.confirm_production_run]

    [typed] is what the user answers if asked. The result says whether to go
    on and whether the question was asked. *)
Definition confirm_production_run (config : Config) (typed : string) : bool * bool :=
  if negb (dry_run config) && negb (test_mode config)
  then (String.eqb typed "CONFIRM UPLOAD", true)
  else (true, false).

(** ** [csv_handler.CSVHandler]

    A data frame is its number of rows and its columns, in order, each a
    name and one cell per row; [read_csv] gives every column a name of its
    own. What a cell holds is left open; [blank] is the cell for the empty
    string. *)

Module Csv.
Section Frame.
Context {cell : Type}.
Variable blank : cell.

Record frame := {
  height : nat;
  columns : list (string * list cell)
}.

Definition column_names (df : frame) : list string := map fst (columns df).

(** [name in df.columns]. *)
Definition has_column (name : string) (df : frame) : bool :=
  bool_decide (name ∈ column_names df).

(** [df[name]]. *)
Definition column (name : string) (df : frame) : option (list cell) :=
  snd <$> List.find (fun c => String.eqb (fst c) name) (columns df).

(** [df[name] = ""]: an existing column is overwritten in place, a new one
    is added last. *)
Definition set_blank (name : string) (df : frame) : frame :=
  {| height := height df;
     columns :=
       if has_column name df
       then map (fun c => if String.eqb (fst c) name
                          then (name, replicate (height df) blank) else c)
                (columns df)
       else columns df ++ [(name, replicate (height df) blank)] |}.

(** [df.head(n)]: the first [n] rows, or all but the last [-n] when [n] is
    negative. *)
Definition head_rows (n : Z) (df : frame) : frame :=
  let k := if 0 <=? n then Z.to_nat n else (height df - Z.to_nat (- n))%nat in
  {| height := Nat.min k (height df);
     columns := map (fun c => (fst c, take k (snd c))) (columns df) |}.

(** What [pd.read_csv(file_path, encoding=...)] does. *)
Inductive read_result :=
| ReadFrame (df : frame)
| UnicodeDecodeError (msg : string)
| ReadOtherError (msg : string).

Definition encodings_to_try : list string :=
  ["utf-8"; "latin-1"; "cp1252"; "iso-8859-1"].

Section Loading.
Variable read_csv : string -> string -> read_result.

(** The [for encoding in encodings_to_try] loop and the [raise] after it. *)
Fixpoint try_encodings (file_path : string) (encodings : list string) : result frame :=
  match encodings with
  | [] =>
      Raise ("Could not read " +:+ file_path
             +:+ " with any of the tried encodings: "
             +:+ "['utf-8', 'latin-1', 'cp1252', 'iso-8859-1']")
  | encoding :: rest =>
      match read_csv file_path encoding with
      | ReadFrame df => Ok df
      | UnicodeDecodeError _ => try_encodings file_path rest
      | ReadOtherError e => Raise e
      end
  end.

Definition load_csv_with_encoding (file_path : string) : result frame :=
  try_encodings file_path encodings_to_try.

Definition possible_columns : list string :=
  ["WOO IMAGE"; "s3_url"; "image_url"; "url"].

Definition detect_image_url_column (df : frame) : option string :=
  List.find (fun col => has_column col df) possible_columns.

Definition determine_result_column (df : frame) : string :=
  if has_column "NEW IMAGE" df then "NEW IMAGE" else "S3_URL".

Definition initialize_result_columns (df : frame) (result_column : string) : frame :=
  let df1 := set_blank "S3_Key" df in
  let df2 := set_blank "Processing_Status" df1 in
  let df3 := set_blank "HTTP_Response_Code" df2 in
  if negb (has_column result_column df3) then set_blank result_column df3 else df3.

Definition load_data (config : Config) : result (frame * string * string) :=
  match load_csv_with_encoding (input_csv config) with
  | Raise e => Raise e
  | Ok loaded =>
      let df := if test_mode config then head_rows (test_rows config) loaded else loaded in
      match detect_image_url_column df with
      | None => Raise "No recognized image URL column found"
      | Some url_column =>
          let result_column := determine_result_column df in
          Ok (initialize_result_columns df result_column, url_column, result_column)
      end
  end.

End Loading.

(** Every column has one cell per row. *)
Definition well_formed (df : frame) : Prop :=
  Forall (fun c => length (snd c) = height df) (columns df).

End Frame.
End Csv.

(** * Facts *)

(** ** The model on small inputs *)

Example find_anchor :
  Py.find "/wp-content/" "https://site/x/wp-content/uploads/img.PNG" = 14.
Proof. reflexivity. Qed.

Example find_absent : Py.find "/wp-content/" "https://site/a/b.png" = -1.
Proof. reflexivity. Qed.

Example splitext_plain : Py.splitext "a/b.tar.gz" = ("a/b.tar", ".gz").
Proof. reflexivity. Qed.

Example splitext_hidden : Py.splitext "a/.bashrc" = ("a/.bashrc", "").
Proof. reflexivity. Qed.

Example splitext_dotted_dir : Py.splitext "a.b/c" = ("a.b/c", "").
Proof. reflexivity. Qed.

Example splitext_leading_dots : Py.splitext "...x.png" = ("...x", ".png").
Proof. reflexivity. Qed.

Example quote_space : Urllib.quote "a b/c~d.jpg" = "a%20b/c~d.jpg".
Proof. reflexivity. Qed.

Example unquote_mixed : Urllib.unquote "a%20b%2Fc%zz%4%41" = "a b/c%zz%4A".
Proof. reflexivity. Qed.

Example strip_upper_placeholder : Unicode.upper (Unicode.strip "  n/a ") = "N/A".
Proof. reflexivity. Qed.

Example variations_plain : unique_variations "ab.jpg" = ["ab.jpg"].
Proof. reflexivity. Qed.

Example variations_space : unique_variations "a b.jpg" = ["a b.jpg"; "a%20b.jpg"].
Proof. reflexivity. Qed.

Example variations_encoded :
  unique_variations "a%20b.jpg" = ["a%20b.jpg"; "a b.jpg"; "a%2520b.jpg"].
Proof. reflexivity. Qed.


(** ** Strings *)

Section StringFacts.

Lemma app_cons (a : ascii) (s t : string) : String a s +:+ t = String a (s +:+ t).
Proof. reflexivity. Qed.

Lemma app_empty_r (s : string) : s +:+ "" = s.
Proof. induction s as [|a s IH]; [reflexivity|]. rewrite app_cons, IH. reflexivity. Qed.

Lemma app_assoc' (s t u : string) : (s +:+ t) +:+ u = s +:+ (t +:+ u).
Proof. induction s as [|a s IH]; [reflexivity|]. rewrite !app_cons, IH. reflexivity. Qed.

Lemma length_app (s t : string) :
  String.length (s +:+ t) = (String.length s + String.length t)%nat.
Proof. induction s as [|a s IH]; [reflexivity|]. rewrite app_cons. simpl. rewrite IH. reflexivity. Qed.

Lemma take_drop (n : nat) (s : string) : Py.take n s +:+ Py.drop n s = s.
Proof.
  revert s. induction n as [|n IH]; intros [|a s]; try reflexivity.
  simpl. rewrite app_cons, IH. reflexivity.
Qed.

Lemma take_app_ge (q r : string) (n : nat) :
  (String.length q <= n)%nat ->
  Py.take n (q +:+ r) = q +:+ Py.take (n - String.length q) r.
Proof.
  revert n. induction q as [|a q IH]; intros n Hn.
  - simpl. rewrite Nat.sub_0_r. reflexivity.
  - destruct n as [|n]; simpl in Hn; [lia|].
    rewrite !app_cons. simpl. rewrite IH by lia. reflexivity.
Qed.

Lemma drop_app_ge (q r : string) (n : nat) :
  (String.length q <= n)%nat ->
  Py.drop n (q +:+ r) = Py.drop (n - String.length q) r.
Proof.
  revert n. induction q as [|a q IH]; intros n Hn.
  - simpl. rewrite Nat.sub_0_r. reflexivity.
  - destruct n as [|n]; simpl in Hn; [lia|].
    rewrite app_cons. simpl. apply IH. lia.
Qed.

Lemma drop_app_length (q r : string) : Py.drop (String.length q) (q +:+ r) = r.
Proof. rewrite drop_app_ge by lia. rewrite Nat.sub_diag. destruct r; reflexivity. Qed.

Lemma take_length (n : nat) (s : string) :
  (n <= String.length s)%nat -> String.length (Py.take n s) = n.
Proof.
  revert s. induction n as [|n IH]; intros [|a s] Hn; simpl in *; try lia.
  rewrite IH by lia. reflexivity.
Qed.

Lemma startswith_app (p r : string) : Py.startswith p (p +:+ r) = true.
Proof.
  induction p as [|a p IH]; [destruct r; reflexivity|].
  rewrite app_cons. simpl. rewrite Ascii.eqb_refl. exact IH.
Qed.

Lemma startswith_inv (p s : string) :
  Py.startswith p s = true -> exists r, s = p +:+ r.
Proof.
  revert s. induction p as [|a p IH]; intros s Hs.
  - exists s. reflexivity.
  - destruct s as [|b s]; [discriminate|]. simpl in Hs.
    destruct (Ascii.eqb a b) eqn:Hab; [|discriminate].
    apply Ascii.eqb_eq in Hab. subst b.
    destruct (IH s Hs) as [r ->]. exists r. reflexivity.
Qed.

(** [find] returns the position of an occurrence. *)
Lemma find_from_found (sub s : string) (i r : Z) :
  Py.find_from sub s i = r -> r <> -1 -> 0 <= i ->
  exists pre rest,
    s = pre +:+ sub +:+ rest /\ r = i + Z.of_nat (String.length pre).
Proof.
  revert i. induction s as [|a s IH]; intros i Hr Hne Hi; simpl in Hr.
  - destruct (Py.startswith sub "") eqn:Hp; [|congruence].
    apply startswith_inv in Hp. destruct Hp as [rest Hp].
    exists "", rest. split; [exact Hp | simpl; lia].
  - destruct (Py.startswith sub (String a s)) eqn:Hp.
    + apply startswith_inv in Hp. destruct Hp as [rest Hp].
      exists "", rest. split; [exact Hp | simpl; lia].
    + destruct (IH (i + 1) Hr Hne ltac:(lia)) as (pre & rest & -> & ->).
      exists (String a pre), rest. split; [reflexivity | simpl; lia].
Qed.

Lemma find_found (sub s : string) :
  Py.find sub s <> -1 ->
  exists pre rest,
    s = pre +:+ sub +:+ rest /\ Py.find sub s = Z.of_nat (String.length pre).
Proof.
  intros Hne.
  destruct (find_from_found sub s 0 _ eq_refl Hne ltac:(lia)) as (pre & rest & Hs & Hr).
  exists pre, rest. split; [exact Hs | exact Hr].
Qed.

(** [rfind] is at least the position of any occurrence. *)
Lemma rfind_from_last (c : ascii) (s : string) (i last : Z) :
  last < i -> last <= Py.rfind_from c s i last.
Proof.
  revert i last. induction s as [|a s IH]; intros i last Hl; simpl; [lia|].
  destruct (Ascii.eqb a c).
  - specialize (IH (i + 1) i ltac:(lia)). lia.
  - specialize (IH (i + 1) last ltac:(lia)). lia.
Qed.

Lemma rfind_from_ge (c : ascii) (s : string) (j : nat) (i last : Z) :
  last < i -> String.get j s = Some c -> i + Z.of_nat j <= Py.rfind_from c s i last.
Proof.
  revert j i last. induction s as [|a s IH]; intros j i last Hl Hj; [destruct j; discriminate|].
  destruct j as [|j]; simpl in Hj |- *.
  - injection Hj as ->. rewrite Ascii.eqb_refl.
    pose proof (rfind_from_last c s (i + 1) i ltac:(lia)). lia.
  - specialize (IH j (i + 1) (if Ascii.eqb a c then i else last)
                   ltac:(destruct (Ascii.eqb a c); lia) Hj). lia.
Qed.

Lemma get_app_length (q : string) (c : ascii) (r : string) :
  String.get (String.length q) (q +:+ String c r) = Some c.
Proof. induction q as [|a q IH]; [reflexivity|]. rewrite app_cons. simpl. exact IH. Qed.

(** [splitext] cuts its argument in two. *)
Lemma splitext_app (p base ext : string) :
  Py.splitext p = (base, ext) -> p = base +:+ ext.
Proof.
  unfold Py.splitext.
  destruct (_ && _); intros [= <- <-].
  - symmetry. apply take_drop.
  - symmetry. apply app_empty_r.
Qed.

(** The cut is never before the last ['/']: whatever ends with a ['/'] at
    the front of the path stays in the base. *)
Lemma splitext_after_slash (q r : string) :
  exists stem ext,
    r = stem +:+ ext
    /\ Py.splitext (q +:+ String "/" r) = (q +:+ String "/" stem, ext).
Proof.
  unfold Py.splitext.
  set (p := q +:+ String "/" r).
  destruct (_ && _) eqn:Hc.
  - apply andb_true_iff in Hc as [Hlt _]. apply Z.ltb_lt in Hlt.
    pose proof (rfind_from_ge "/" p (String.length q) 0 (-1) ltac:(lia)
                  (get_app_length q "/" r)) as Hsep.
    fold (Py.rfind "/" p) in Hsep.
    set (d := Z.to_nat (Py.rfind "." p)) in *.
    assert (Hd : (S (String.length q) <= d)%nat) by (unfold d; lia).
    exists (Py.take (d - S (String.length q)) r), (Py.drop (d - S (String.length q)) r).
    split; [symmetry; apply take_drop|].
    unfold p. f_equal.
    + rewrite take_app_ge by lia.
      destruct (d - String.length q)%nat as [|k] eqn:Hk; [lia|].
      simpl. replace (d - S (String.length q))%nat with k by lia. reflexivity.
    + rewrite drop_app_ge by lia.
      destruct (d - String.length q)%nat as [|k] eqn:Hk; [lia|].
      simpl. replace (d - S (String.length q))%nat with k by lia. reflexivity.
  - exists r, "". split; [symmetry; apply app_empty_r | reflexivity].
Qed.

Lemma startswith_char (a c : ascii) (s : string) :
  Py.startswith (String a "") (String c s) = Ascii.eqb c a.
Proof.
  cbn [Py.startswith]. rewrite (Ascii.eqb_sym a c).
  destruct (Ascii.eqb c a); [destruct s|]; reflexivity.
Qed.

(** *** Occurrences, [rfind] and [splitext] *)

Lemma occurs_app (c : ascii) (a b : string) :
  occurs c (a +:+ b) = occurs c a || occurs c b.
Proof.
  induction a as [|x a IH]; [reflexivity|].
  rewrite app_cons. simpl. rewrite IH, orb_assoc. reflexivity.
Qed.

Lemma occurs_copies (c d : ascii) (n : nat) :
  Ascii.eqb d c = false -> occurs c (copies n d) = false.
Proof. intros Hd. induction n as [|n IH]; simpl; [reflexivity|]. rewrite Hd, IH. reflexivity. Qed.

Lemma length_copies (n : nat) (c : ascii) : String.length (copies n c) = n.
Proof. induction n as [|n IH]; simpl; [reflexivity|]. rewrite IH. reflexivity. Qed.

Lemma copies_snoc (n : nat) (c : ascii) : copies (S n) c = copies n c +:+ String c "".
Proof.
  induction n as [|n IH]; [reflexivity|].
  change (copies (S (S n)) c) with (String c (copies (S n) c)).
  change (copies (S n) c +:+ String c "") with (String c (copies n c +:+ String c "")).
  rewrite <- IH. reflexivity.
Qed.

Lemma occurs_split_last (c : ascii) (s : string) :
  occurs c s = true -> exists a e, s = a +:+ String c e /\ occurs c e = false.
Proof.
  induction s as [|x s IH]; simpl; [discriminate|]. intros Ho.
  destruct (occurs c s) eqn:Hs.
  - destruct (IH eq_refl) as (a & e & -> & He).
    exists (String x a), e. split; [reflexivity | exact He].
  - rewrite orb_false_r in Ho. apply Ascii.eqb_eq in Ho. subst x.
    exists "", s. split; [reflexivity | exact Hs].
Qed.

Lemma occurs_startswith (c : ascii) (s : string) :
  occurs c s = false -> Py.startswith (String c "") s = false.
Proof.
  destruct s as [|x s]; [reflexivity|]. simpl.
  intros [Hx _]%orb_false_iff. rewrite Ascii.eqb_sym, Hx. reflexivity.
Qed.

Lemma rfind_from_app (c : ascii) (a b : string) (i last : Z) :
  Py.rfind_from c (a +:+ b) i last
  = Py.rfind_from c b (i + Z.of_nat (String.length a)) (Py.rfind_from c a i last).
Proof.
  revert i last. induction a as [|x a IH]; intros i last.
  - change ("" +:+ b) with b. simpl. rewrite Z.add_0_r. reflexivity.
  - rewrite app_cons. cbn [Py.rfind_from String.length]. rewrite IH. f_equal. lia.
Qed.

Lemma rfind_from_absent (c : ascii) (s : string) (i last : Z) :
  occurs c s = false -> Py.rfind_from c s i last = last.
Proof.
  revert i last. induction s as [|x s IH]; intros i last; simpl; [reflexivity|].
  intros [Hx Hs]%orb_false_iff. rewrite Hx. apply IH, Hs.
Qed.

Lemma rfind_absent (c : ascii) (s : string) : occurs c s = false -> Py.rfind c s = -1.
Proof. apply rfind_from_absent. Qed.

(** [rfind] is the position of the last occurrence. *)
Lemma rfind_last (c : ascii) (a e : string) :
  occurs c e = false -> Py.rfind c (a +:+ String c e) = Z.of_nat (String.length a).
Proof.
  intros He. unfold Py.rfind. rewrite rfind_from_app. cbn [Py.rfind_from].
  rewrite Ascii.eqb_refl, rfind_from_absent by exact He. lia.
Qed.

Lemma rfind_app_absent (c : ascii) (a b : string) :
  occurs c b = false -> Py.rfind c (a +:+ b) = Py.rfind c a.
Proof. intros Hb. unfold Py.rfind. rewrite rfind_from_app. apply rfind_from_absent, Hb. Qed.

Lemma rfind_lt (c : ascii) (s : string) : Py.rfind c s < Z.of_nat (String.length s).
Proof.
  destruct (occurs c s) eqn:Ho.
  - destruct (occurs_split_last c s Ho) as (a & e & -> & He).
    rewrite (rfind_last c a e He), length_app. simpl. lia.
  - rewrite (rfind_absent c s Ho). lia.
Qed.

Lemma take_app_length (q r : string) : Py.take (String.length q) (q +:+ r) = q.
Proof.
  rewrite take_app_ge by lia. rewrite Nat.sub_diag.
  destruct r; simpl; apply app_empty_r.
Qed.

Lemma get_app_skip (q r : string) (j : nat) :
  String.get (String.length q + j) (q +:+ r) = String.get j r.
Proof. induction q as [|a q IH]; [reflexivity|]. rewrite app_cons. simpl. exact IH. Qed.

Lemma get_copies_app (n j : nat) (c : ascii) (r : string) :
  (j < n)%nat -> String.get j (copies n c +:+ r) = Some c.
Proof.
  revert j. induction n as [|n IH]; intros j Hj; [lia|].
  cbn [copies]. rewrite app_cons. destruct j as [|j]; [reflexivity|].
  simpl. apply IH. lia.
Qed.

(** The [while] loop of [splitext] runs over leading dots and stops at the
    first other character. *)
Lemma splitext_scan_dots (p : string) (i k m : nat) :
  (forall j, (j < k)%nat -> String.get (i + j) p = Some "."%char) ->
  Py.splitext_scan p i (k + m) = Py.splitext_scan p (i + k) m.
Proof.
  revert i. induction k as [|k IH]; intros i Hd.
  - rewrite Nat.add_0_r. reflexivity.
  - pose proof (Hd 0%nat ltac:(lia)) as H0. rewrite Nat.add_0_r in H0.
    cbn [Nat.add Py.splitext_scan]. rewrite H0. cbn [Ascii.eqb Bool.eqb].
    rewrite IH.
    + f_equal. lia.
    + intros j Hj. replace (S i + j)%nat with (i + S j)%nat by lia. apply Hd. lia.
Qed.

Lemma splitext_scan_stop (p : string) (i m : nat) (c : ascii) :
  String.get i p = Some c -> Ascii.eqb c "." = false ->
  Py.splitext_scan p i (S m) = true.
Proof. intros Hg Hc. cbn [Py.splitext_scan]. rewrite Hg, Hc. reflexivity. Qed.

(** Up to its last slash a path is directories. *)
Lemma rfind_slash_dir (dir comp : string) :
  dir = "" \/ (exists d, dir = d +:+ "/") ->
  occurs "/" comp = false ->
  Py.rfind "/" (dir +:+ comp) + 1 = Z.of_nat (String.length dir).
Proof.
  intros [-> | [d ->]] Hc.
  - change ("" +:+ comp) with comp. rewrite (rfind_absent _ _ Hc). reflexivity.
  - rewrite app_assoc'. change ("/" +:+ comp) with (String "/" comp).
    rewrite (rfind_last "/" d comp Hc), length_app. simpl. lia.
Qed.

(** [splitext] on a path read part by part. *)
Lemma splitext_parts (dir name ext : string) (k : nat) :
  dir = "" \/ (exists d, dir = d +:+ "/") ->
  occurs "/" name = false ->
  Py.startswith "." name = false ->
  (ext = "" /\ occurs "." name = false)
  \/ (name <> ""
      /\ exists e, ext = String "." e /\ occurs "." e = false /\ occurs "/" e = false) ->
  Py.splitext (dir +:+ copies k "." +:+ name +:+ ext)
  = (dir +:+ copies k "." +:+ name, ext).
Proof.
  intros Hdir Hname Hstart Hext.
  assert (Hslash : occurs "/" (copies k "." +:+ name +:+ ext) = false).
  { rewrite !occurs_app, (occurs_copies "/" "." k eq_refl), Hname.
    destruct Hext as [[-> _] | (_ & e & -> & _ & He)]; [reflexivity|].
    simpl. exact He. }
  pose proof (rfind_slash_dir dir _ Hdir Hslash) as Hsep.
  unfold Py.splitext.
  set (p := dir +:+ copies k "." +:+ name +:+ ext) in *.
  destruct Hext as [[-> Hnodot] | (Hne & e & -> & He & _)].
  - (* no extension *)
    assert (Hp : p = dir +:+ copies k "." +:+ name)
      by (unfold p; rewrite app_empty_r; reflexivity).
    destruct k as [|k].
    + (* no dot in the last component *)
      assert (Hdot : Py.rfind "." p <= Py.rfind "/" p).
      { rewrite Hp. change (copies 0 "." +:+ name) with name.
        rewrite (rfind_app_absent "." dir name Hnodot).
        rewrite (rfind_app_absent "/" dir name Hname).
        destruct Hdir as [-> | [d ->]]; [reflexivity|].
        change (d +:+ "/") with (d +:+ String "/" "").
        rewrite (rfind_last "/" d "" eq_refl).
        rewrite (rfind_app_absent "." d (String "/" "") eq_refl).
        pose proof (rfind_lt "." d). lia. }
      destruct (Py.rfind "/" p <? Py.rfind "." p) eqn:Hlt; [apply Z.ltb_lt in Hlt; lia|].
      simpl. rewrite Hp. reflexivity.
    + (* the last dot is a leading dot *)
      assert (Hdot : Py.rfind "." p = Z.of_nat (String.length dir + k)).
      { rewrite Hp, copies_snoc, app_assoc', <- (app_assoc' dir).
        change (String "." "" +:+ name) with (String "." name).
        rewrite (rfind_last "." _ name Hnodot), length_app, length_copies. reflexivity. }
      rewrite Hdot.
      replace (Z.to_nat (Py.rfind "/" p + 1)) with (String.length dir) by lia.
      replace (Z.to_nat (Z.of_nat (String.length dir + k) - (Py.rfind "/" p + 1)))
        with (k + 0)%nat by lia.
      rewrite splitext_scan_dots.
      * cbn [Py.splitext_scan]. rewrite andb_false_r. rewrite Hp. reflexivity.
      * intros j Hj. unfold p. rewrite get_app_skip. apply get_copies_app. lia.
  - (* an extension *)
    assert (Hp : p = (dir +:+ copies k "." +:+ name) +:+ String "." e)
      by (unfold p; rewrite !app_assoc'; reflexivity).
    assert (Hdot : Py.rfind "." p
                   = Z.of_nat (String.length (dir +:+ copies k "." +:+ name))).
    { rewrite Hp. apply rfind_last, He. }
    rewrite Hdot, !length_app, length_copies.
    destruct name as [|c name']; [contradiction|].
    assert (Hc : Ascii.eqb c "." = false).
    { rewrite startswith_char in Hstart. exact Hstart. }
    replace (Z.to_nat (Py.rfind "/" p + 1)) with (String.length dir) by lia.
    replace (Z.to_nat (Z.of_nat (String.length dir + (k + String.length (String c name')))
                       - (Py.rfind "/" p + 1)))
      with (k + S (String.length name'))%nat by (simpl; lia).
    rewrite splitext_scan_dots.
    + rewrite (splitext_scan_stop p _ _ c).
      * destruct (Py.rfind "/" p <? _) eqn:Hlt; [|apply Z.ltb_ge in Hlt; simpl in Hlt; lia].
        simpl andb. cbv iota. rewrite Nat2Z.id.
        replace (String.length dir + (k + String.length (String c name')))%nat
          with (String.length (dir +:+ copies k "." +:+ String c name'))
          by (rewrite !length_app, length_copies; reflexivity).
        rewrite Hp, take_app_length, drop_app_length. reflexivity.
      * unfold p. rewrite get_app_skip.
        replace k with (String.length (copies k ".") + 0)%nat at 1
          by (rewrite length_copies; lia).
        rewrite get_app_skip. rewrite app_cons. reflexivity.
      * exact Hc.
    + intros j Hj. unfold p. rewrite get_app_skip. apply get_copies_app. lia.
Qed.

Lemma lstrip_slash_copies (n : nat) (s : string) :
  Py.startswith "/" s = false -> Py.lstrip_slash (copies n "/" +:+ s) = s.
Proof.
  intros Hs. induction n as [|n IH]; cbn [copies].
  - change ("" +:+ s) with s. destruct s as [|c s]; [reflexivity|].
    rewrite startswith_char in Hs.
    destruct c as [[] [] [] [] [] [] [] []]; try reflexivity; discriminate.
  - rewrite app_cons. exact IH.
Qed.

(** Every path reads part by part in some way. *)
Lemma lstrip_slash_shape (s : string) :
  exists n, s = copies n "/" +:+ Py.lstrip_slash s.
Proof.
  induction s as [|c s IH]; [exists 0%nat; reflexivity|].
  destruct (Ascii.eqb c "/") eqn:Hc.
  - apply Ascii.eqb_eq in Hc. subst c. destruct IH as [n IH].
    exists (S n). cbn [copies Py.lstrip_slash]. rewrite app_cons, <- IH. reflexivity.
  - exists 0%nat.
    destruct c as [[] [] [] [] [] [] [] []]; try reflexivity; discriminate.
Qed.

Lemma dir_shape (s : string) :
  exists dir comp,
    s = dir +:+ comp
    /\ (dir = "" \/ exists d, dir = d +:+ "/")
    /\ occurs "/" comp = false.
Proof.
  destruct (occurs "/" s) eqn:Ho.
  - destruct (occurs_split_last "/" s Ho) as (a & e & -> & He).
    exists (a +:+ "/"), e. split; [rewrite app_assoc'; reflexivity|].
    split; [right; exists a; reflexivity | exact He].
  - exists "", s. split; [reflexivity|]. split; [left; reflexivity | exact Ho].
Qed.

Lemma dots_shape (s : string) :
  exists k rest, s = copies k "." +:+ rest /\ Py.startswith "." rest = false.
Proof.
  induction s as [|c s IH]; [exists 0%nat, ""; split; reflexivity|].
  destruct (Ascii.eqb c ".") eqn:Hc.
  - apply Ascii.eqb_eq in Hc. subst c. destruct IH as (k & rest & -> & Hr).
    exists (S k), rest. split; [reflexivity | exact Hr].
  - exists 0%nat, (String c s). split; [reflexivity|].
    rewrite startswith_char. exact Hc.
Qed.

Lemma lstrip_slash_other (c : ascii) (s : string) :
  Ascii.eqb c "/" = false -> Py.lstrip_slash (String c s) = String c s.
Proof. destruct c as [[] [] [] [] [] [] [] []]; intros Hc; try reflexivity; discriminate. Qed.

Lemma lstrip_slash_clean (s : string) : Py.startswith "/" (Py.lstrip_slash s) = false.
Proof.
  induction s as [|c s IH]; [reflexivity|].
  destruct (Ascii.eqb c "/") eqn:Hc.
  - apply Ascii.eqb_eq in Hc. subst c. exact IH.
  - rewrite (lstrip_slash_other c s Hc), startswith_char. exact Hc.
Qed.

Lemma startswith_slash_prefix (x y : string) :
  Py.startswith "/" (x +:+ y) = false -> Py.startswith "/" x = false.
Proof. destruct x as [|c x]; intros Hx; [reflexivity|]. rewrite app_cons, startswith_char in *. exact Hx. Qed.

Lemma path_parts_exist (path : string) :
  exists n dir k name ext, path_parts path n dir k name ext.
Proof.
  destruct (lstrip_slash_shape path) as [n Hn].
  pose proof (lstrip_slash_clean path) as Hclean.
  destruct (dir_shape (Py.lstrip_slash path)) as (dir & comp & Hrest & Hdir & Hcomp).
  destruct (dots_shape comp) as (k & r & -> & Hr).
  rewrite occurs_app in Hcomp. apply orb_false_iff in Hcomp as [_ Hslash].
  rewrite Hrest in Hn, Hclean. apply startswith_slash_prefix in Hclean.
  destruct (occurs "." r) eqn:Hdot.
  - destruct (occurs_split_last "." r Hdot) as (a & e & -> & He).
    rewrite occurs_app in Hslash. apply orb_false_iff in Hslash as [Ha Hse].
    exists n, dir, k, a, (String "." e).
    split; [exact Hn|]. split; [exact Hclean|]. split; [exact Hdir|].
    split; [exact Ha|].
    destruct a as [|c a]; [change ("" +:+ String "." e) with (String "." e) in Hr;
                           rewrite startswith_char in Hr; discriminate|].
    split; [rewrite app_cons, startswith_char in Hr; rewrite startswith_char; exact Hr|].
    right. split; [discriminate|]. exists e. split; [reflexivity|].
    split; [exact He | exact Hse].
  - exists n, dir, k, r, "".
    split; [rewrite app_empty_r; exact Hn|]. split; [exact Hclean|].
    split; [exact Hdir|]. split; [exact Hslash|]. split; [exact Hr|].
    left. split; [reflexivity | exact Hdot].
Qed.

(** [lower] works letter by letter, on [A] to [Z]. *)
Lemma lower_app (a b : string) : Py.lower (a +:+ b) = Py.lower a +:+ Py.lower b.
Proof.
  induction a as [|c a IH]; [reflexivity|].
  rewrite app_cons. simpl. rewrite IH. reflexivity.
Qed.

Lemma lower_letter (c : ascii) :
  Py.lower (String c "")
  = String (if occurs c "ABCDEFGHIJKLMNOPQRSTUVWXYZ"
            then ascii_of_nat (nat_of_ascii c + 32) else c) "".
Proof. destruct c as [[] [] [] [] [] [] [] []]; reflexivity. Qed.

End StringFacts.

(** ** Key derivation *)

Section KeyDerivationFacts.
Context `{Collaborators}.

Lemma generate_s3_key_blank (url : string) :
  Py.find "/wp-content/" url = -1 -> is_blank url = true ->
  generate_s3_key url = Raise "Empty or invalid URL".
Proof.
  intros Hf Hb. unfold generate_s3_key, extract_s3_path. rewrite Hf, Hb. reflexivity.
Qed.

End KeyDerivationFacts.

(** C2 (as amended). For every URL containing the anchor [/wp-content/], the
    derived key is the text from the first anchor to the end of the URL, with
    the leading slash and the [os.path.splitext] extension removed and one
    [.jpg] appended: the anchor segment [wp-content/] stays in the key. *)
Theorem generate_s3_key_anchor `{Collaborators} (url : string) :
  Py.find "/wp-content/" url <> -1 ->
  exists pre stem ext,
    url = pre +:+ "/wp-content/" +:+ stem +:+ ext
    /\ Py.find "/wp-content/" url = Z.of_nat (String.length pre)
    /\ Py.splitext ("/wp-content/" +:+ stem +:+ ext) = ("/wp-content/" +:+ stem, ext)
    /\ generate_s3_key url = Ok ("wp-content/" +:+ stem +:+ ".jpg").
Proof.
  intros Hne.
  destruct (find_found _ _ Hne) as (pre & rest & Hurl & Hfind).
  destruct (splitext_after_slash "/wp-content" rest) as (stem & ext & Hrest & Hsplit).
  exists pre, stem, ext.
  assert (Hkey : Py.drop (Z.to_nat (Py.find "/wp-content/" url)) url
                 = "/wp-content/" +:+ rest).
  { rewrite Hfind, Nat2Z.id. rewrite Hurl at 1. apply drop_app_length. }
  split; [rewrite Hurl, Hrest; reflexivity|].
  split; [exact Hfind|].
  split; [rewrite <- Hrest; exact Hsplit|].
  unfold generate_s3_key.
  destruct (Py.find "/wp-content/" url =? -1) eqn:He; [apply Z.eqb_eq in He; contradiction|].
  simpl negb. cbv iota. rewrite Hkey.
  change ("/wp-content/" +:+ rest) with ("/wp-content" +:+ String "/" rest).
  rewrite Hsplit. reflexivity.
Qed.

Lemma generate_s3_key_anchor_witness :
  exists pre stem ext,
    "https://site/x/wp-content/uploads/img.PNG" = pre +:+ "/wp-content/" +:+ stem +:+ ext
    /\ Py.find "/wp-content/" "https://site/x/wp-content/uploads/img.PNG"
       = Z.of_nat (String.length pre)
    /\ Py.splitext ("/wp-content/" +:+ stem +:+ ext) = ("/wp-content/" +:+ stem, ext)
    /\ generate_s3_key (H := Toy.collaborators) "https://site/x/wp-content/uploads/img.PNG"
       = Ok ("wp-content/" +:+ stem +:+ ".jpg").
Proof.
  apply (generate_s3_key_anchor (H := Toy.collaborators)). vm_compute. discriminate.
Defined.

(** C2, the scenario as the claim words it: the key derived from
    [https://site/x/wp-content/uploads/img.PNG] is not [uploads/img.jpg]. *)
Lemma generate_s3_key_anchor_scenario :
  generate_s3_key (H := Toy.collaborators) "https://site/x/wp-content/uploads/img.PNG"
  = Ok "wp-content/uploads/img.jpg"
  /\ generate_s3_key (H := Toy.collaborators) "https://site/x/wp-content/uploads/img.PNG"
     <> Ok "uploads/img.jpg".
Proof. split; [reflexivity | discriminate]. Qed.

(** C7. For a non-blank URL without the anchor, whose [urlparse] path is
    [path]: the path reads as leading slashes, directories, and a last
    component made of leading dots, a name and an extension, and however it
    reads so, the derived key is the path without its leading slashes, in
    which the extension alone is replaced by [.jpg] when, in lower case, it
    is one of .png, .jpeg, .jpg, .gif, .webp, and which is unchanged
    otherwise. Lower case is taken letter by letter, [A] to [Z] becoming
    [a] to [z]. *)
Theorem generate_s3_key_fallback `{Collaborators} (url path : string) :
  Py.find "/wp-content/" url = -1 ->
  is_blank url = false ->
  urlparse_path url = Ok path ->
  (exists n dir k name ext, path_parts path n dir k name ext)
  /\ (forall n dir k name ext,
        path_parts path n dir k name ext ->
        generate_s3_key url
        = Ok (dir +:+ copies k "." +:+ name
              +:+ (if bool_decide (Py.lower ext ∈ [".png"; ".jpeg"; ".jpg"; ".gif"; ".webp"])
                   then ".jpg" else ext)))
  /\ (forall a b, Py.lower (a +:+ b) = Py.lower a +:+ Py.lower b)
  /\ (forall c : ascii,
        Py.lower (String c "")
        = String (if occurs c "ABCDEFGHIJKLMNOPQRSTUVWXYZ"
                  then ascii_of_nat (nat_of_ascii c + 32) else c) "").
Proof.
  intros Hf Hb Hp. split; [apply path_parts_exist|].
  split; [|split; [apply lower_app | apply lower_letter]].
  intros n dir k name ext (Hpath & Hclean & Hdir & Hname & Hstart & Hext).
  assert (Hstrip : Py.lstrip_slash path = dir +:+ copies k "." +:+ name +:+ ext).
  { rewrite Hpath. apply lstrip_slash_copies.
    destruct dir as [|c dir]; [|rewrite app_cons, startswith_char in *; exact Hclean].
    change ("" +:+ copies k "." +:+ name +:+ ext) with (copies k "." +:+ name +:+ ext).
    apply occurs_startswith.
    rewrite !occurs_app, (occurs_copies "/" "." k eq_refl), Hname.
    destruct Hext as [[-> _] | (_ & e & -> & _ & He)]; [reflexivity | simpl; exact He]. }
  unfold generate_s3_key, extract_s3_path. rewrite Hf, Hb, Hp. simpl negb. cbv iota.
  rewrite Hstrip, (splitext_parts dir name ext k Hdir Hname Hstart Hext).
  unfold image_extensions.
  destruct (bool_decide _); [rewrite !app_assoc'|]; reflexivity.
Qed.

Lemma generate_s3_key_fallback_witness :
  generate_s3_key (H := Toy.collaborators) "https://site//a.d/.x/b c.tar.PNG?x=1"
  = Ok "a.d/.x/b c.tar.jpg"
  /\ generate_s3_key (H := Toy.collaborators) "https://site/docs/..report.txt#top"
     = Ok "docs/..report.txt".
Proof.
  split.
  - refine (proj1 (proj2 (generate_s3_key_fallback (H := Toy.collaborators)
                     "https://site//a.d/.x/b c.tar.PNG?x=1" "//a.d/.x/b c.tar.PNG"
                     eq_refl eq_refl eq_refl))
                  2%nat "a.d/.x/" 0%nat "b c.tar" ".PNG" _).
    repeat split; try reflexivity.
    + right. exists "a.d/.x". reflexivity.
    + right. split; [discriminate|]. exists "PNG". repeat split; reflexivity.
  - refine (proj1 (proj2 (generate_s3_key_fallback (H := Toy.collaborators)
                     "https://site/docs/..report.txt#top" "/docs/..report.txt"
                     eq_refl eq_refl eq_refl))
                  1%nat "docs/" 2%nat "report" ".txt" _).
    repeat split; try reflexivity.
    + right. exists "docs". reflexivity.
    + right. split; [discriminate|]. exists "txt". repeat split; reflexivity.
Defined.

(** ** Encoding *)

Section EncodingFacts.

Lemma quote_app (a b : string) :
  Urllib.quote (a +:+ b) = Urllib.quote a +:+ Urllib.quote b.
Proof.
  induction a as [|c a IH]; [reflexivity|].
  rewrite app_cons. simpl. rewrite IH.
  destruct (_ || _); reflexivity.
Qed.

(** ['/'] is left as it is. *)
Lemma quote_keeps_slash (a b : string) :
  Urllib.quote (a +:+ "/" +:+ b) = Urllib.quote a +:+ "/" +:+ Urllib.quote b.
Proof. rewrite !quote_app. reflexivity. Qed.

(** A ['%'] is escaped as [%25]. *)
Lemma quote_escapes_percent (a b : string) :
  Urllib.quote (a +:+ "%" +:+ b) = Urllib.quote a +:+ "%25" +:+ Urllib.quote b.
Proof. rewrite !quote_app. reflexivity. Qed.

Lemma unquote_escape (c : ascii) (rest : string) :
  Urllib.unquote_to_bytes (Urllib.escape c rest)
  = String c (Urllib.unquote_to_bytes rest).
Proof. destruct c as [[] [] [] [] [] [] [] []]; reflexivity. Qed.

Lemma safe_not_percent (c : ascii) :
  Urllib.always_safe c || Ascii.eqb c "/" = true -> Ascii.eqb c "%" = false.
Proof. destruct c as [[] [] [] [] [] [] [] []]; vm_compute; congruence. Qed.

Lemma safe_is_ascii (c : ascii) :
  Urllib.always_safe c || Ascii.eqb c "/" = true -> (N_of_ascii c <? 128)%N = true.
Proof. destruct c as [[] [] [] [] [] [] [] []]; vm_compute; congruence. Qed.

Lemma unquote_to_bytes_quote (s : string) :
  Urllib.unquote_to_bytes (Urllib.quote s) = s.
Proof.
  induction s as [|c s IH]; [reflexivity|]. simpl.
  destruct (Urllib.always_safe c || Ascii.eqb c "/") eqn:Hc.
  - simpl. rewrite (safe_not_percent c Hc), IH. reflexivity.
  - rewrite unquote_escape, IH. reflexivity.
Qed.

Lemma hex_digit_ascii (c : ascii) :
  (N_of_ascii (Urllib.hex_digit (N_of_ascii c / 16)) <? 128)%N = true
  /\ (N_of_ascii (Urllib.hex_digit (N_of_ascii c mod 16)) <? 128)%N = true.
Proof. destruct c as [[] [] [] [] [] [] [] []]; vm_compute; auto. Qed.

Lemma quote_ascii_only (s : string) : Urllib.ascii_only (Urllib.quote s) = true.
Proof.
  induction s as [|c s IH]; [reflexivity|]. simpl.
  destruct (Urllib.always_safe c || Ascii.eqb c "/") eqn:Hc.
  - simpl. rewrite (safe_is_ascii c Hc), IH. reflexivity.
  - unfold Urllib.escape. simpl.
    destruct (hex_digit_ascii c) as [-> ->]. rewrite IH. reflexivity.
Qed.

Lemma utf8_replace_ascii (s : string) :
  Urllib.ascii_only s = true -> Urllib.utf8_replace s = s.
Proof.
  induction s as [|c s IH]; [reflexivity|]. simpl.
  intros [Hc Hs]%andb_true_iff. rewrite Hc, IH by exact Hs. reflexivity.
Qed.

Lemma find_from_shift (sub s : string) (i : Z) :
  Py.find_from sub s i =
  if Py.find_from sub s 0 =? -1 then -1 else i + Py.find_from sub s 0.
Proof.
  revert i. induction s as [|a s IH]; intros i; simpl.
  - destruct (Py.startswith sub ""); simpl; [f_equal; lia | reflexivity].
  - destruct (Py.startswith sub (String a s)); simpl; [f_equal; lia|].
    rewrite (IH (i + 1)), (IH (0 + 1)).
    destruct (Py.find_from sub s 0 =? -1) eqn:He; [reflexivity|].
    apply Z.eqb_neq in He.
    destruct (find_from_found sub s 0 _ eq_refl He ltac:(lia)) as (pre & rest & _ & Hr).
    destruct (0 + 1 + Py.find_from sub s 0 =? -1) eqn:He'; [apply Z.eqb_eq in He'; lia|].
    lia.
Qed.

Lemma contains_percent_cons (c : ascii) (s : string) :
  Py.contains "%" (String c s) = Ascii.eqb c "%" || Py.contains "%" s.
Proof.
  unfold Py.contains, Py.find. cbn [Py.find_from].
  rewrite startswith_char.
  destruct (Ascii.eqb c "%"); [reflexivity|].
  rewrite find_from_shift.
  destruct (Py.find_from "%" s 0 =? -1) eqn:He; [reflexivity|].
  apply Z.eqb_neq in He.
  destruct (find_from_found "%" s 0 _ eq_refl He ltac:(lia)) as (pre & rest & _ & Hr).
  destruct (0 + 1 + Py.find_from "%" s 0 =? -1) eqn:He'; [apply Z.eqb_eq in He'; lia|].
  reflexivity.
Qed.

Lemma unquote_to_bytes_plain (s : string) :
  Py.contains "%" s = false -> Urllib.unquote_to_bytes s = s.
Proof.
  induction s as [|c s IH]; [reflexivity|].
  rewrite contains_percent_cons. intros [Hc Hs]%orb_false_iff.
  simpl. rewrite Hc, IH by exact Hs. reflexivity.
Qed.

(** Decoding undoes encoding on text that [utf8_replace] leaves alone,
    that is, on well-formed UTF-8. *)
Lemma unquote_quote (s : string) :
  Urllib.utf8_replace s = s -> Urllib.unquote (Urllib.quote s) = s.
Proof.
  intros Hs. unfold Urllib.unquote.
  destruct (Py.contains "%" (Urllib.quote s)) eqn:Hc.
  - rewrite unquote_to_bytes_quote. exact Hs.
  - rewrite <- (unquote_to_bytes_plain _ Hc). apply unquote_to_bytes_quote.
Qed.

Lemma unquote_quote_quote (key : string) :
  Urllib.unquote (Urllib.quote (Urllib.quote key)) = Urllib.quote key.
Proof. apply unquote_quote, utf8_replace_ascii, quote_ascii_only. Qed.

Lemma get_s3_url_prefix (config : Config) (key : string) :
  get_s3_url config key = url_prefix config +:+ Urllib.quote key.
Proof. unfold get_s3_url, url_prefix. rewrite !app_assoc'. reflexivity. Qed.

Lemma contains_percent_occurs (s : string) : Py.contains "%" s = occurs "%" s.
Proof.
  induction s as [|c s IH]; [reflexivity|].
  rewrite contains_percent_cons, IH. reflexivity.
Qed.

(** Byte by byte: what [quote] keeps and what it writes instead. *)
Lemma quote_char (c : ascii) :
  if occurs c "ABCDEFGHIJKLMNOPQRSTUVWXYZabcdefghijklmnopqrstuvwxyz0123456789_.-~/"
  then Urllib.quote (String c "") = String c ""
  else exists hi lo,
      String.get (nat_of_ascii c / 16) "0123456789ABCDEF" = Some hi
      /\ String.get (nat_of_ascii c mod 16) "0123456789ABCDEF" = Some lo
      /\ Urllib.quote (String c "") = String "%" (String hi (String lo "")).
Proof.
  destruct c as [[] [] [] [] [] [] [] []]; vm_compute;
    first [reflexivity | (do 2 eexists; repeat split; reflexivity)].
Qed.

(** The value of a hex digit, of either case. *)
Lemma hex_value_digit (h : nat) (c : ascii) :
  String.get h "0123456789ABCDEF" = Some c \/ String.get h "0123456789abcdef" = Some c ->
  Urllib.hex_value c = Some (N.of_nat h).
Proof.
  intros Hc.
  do 16 (destruct h as [|h]; [destruct Hc as [[= <-] | [= <-]]; reflexivity|]).
  destruct Hc as [Hc | Hc]; discriminate.
Qed.

Lemma unquote_to_bytes_app_plain (a r : string) :
  occurs "%" a = false ->
  Urllib.unquote_to_bytes (a +:+ r) = a +:+ Urllib.unquote_to_bytes r.
Proof.
  induction a as [|c a IH]; [reflexivity|]. simpl occurs.
  intros [Hc Ha]%orb_false_iff. rewrite !app_cons. cbn [Urllib.unquote_to_bytes].
  rewrite Hc, IH by exact Ha. reflexivity.
Qed.

Lemma ascii_only_app (a b : string) :
  Urllib.ascii_only (a +:+ b) = Urllib.ascii_only a && Urllib.ascii_only b.
Proof.
  induction a as [|c a IH]; [reflexivity|].
  rewrite app_cons. simpl. rewrite IH, andb_assoc. reflexivity.
Qed.

(** One escape in plain ASCII text is read as the byte it writes. *)
Lemma unquote_one_escape (a b : string) (hi lo : ascii) (h l : nat) :
  String.get h "0123456789ABCDEF" = Some hi \/ String.get h "0123456789abcdef" = Some hi ->
  String.get l "0123456789ABCDEF" = Some lo \/ String.get l "0123456789abcdef" = Some lo ->
  (16 * h + l < 128)%nat ->
  occurs "%" a = false -> occurs "%" b = false ->
  Urllib.ascii_only a = true -> Urllib.ascii_only b = true ->
  Urllib.unquote (a +:+ String "%" (String hi (String lo b)))
  = a +:+ String (ascii_of_nat (16 * h + l)) b.
Proof.
  intros Hhi Hlo Hlt Ha Hb Hasc Hbsc. unfold Urllib.unquote.
  rewrite contains_percent_occurs, occurs_app. simpl occurs. rewrite orb_true_r.
  rewrite (unquote_to_bytes_app_plain a _ Ha). cbn [Urllib.unquote_to_bytes].
  rewrite Ascii.eqb_refl, (hex_value_digit h hi Hhi), (hex_value_digit l lo Hlo).
  rewrite <- contains_percent_occurs in Hb. rewrite (unquote_to_bytes_plain b Hb).
  replace (16 * N.of_nat h + N.of_nat l)%N with (N.of_nat (16 * h + l)) by lia.
  change (ascii_of_N (N.of_nat (16 * h + l))) with (ascii_of_nat (16 * h + l)).
  apply utf8_replace_ascii. rewrite ascii_only_app, Hasc. simpl.
  rewrite Hbsc, andb_true_r. unfold ascii_of_nat.
  rewrite N_ascii_embedding by lia. apply N.ltb_lt. lia.
Qed.

Lemma hex_digit_bound (h : nat) (c : ascii) :
  String.get h "0123456789ABCDEF" = Some c \/ String.get h "0123456789abcdef" = Some c ->
  (h < 16)%nat.
Proof.
  intros Hc.
  do 16 (destruct h as [|h]; [lia|]).
  destruct Hc as [Hc | Hc]; discriminate.
Qed.

Lemma hex_value_none (c : ascii) :
  occurs c "0123456789ABCDEFabcdef" = false -> Urllib.hex_value c = None.
Proof. destruct c as [[] [] [] [] [] [] [] []]; vm_compute; congruence. Qed.

Lemma continuation_ascii (c : ascii) :
  (N_of_ascii c <? 128)%N = true -> Urllib.continuation c = false.
Proof. destruct c as [[] [] [] [] [] [] [] []]; vm_compute; congruence. Qed.

Lemma second_ok_ascii (b0 c : ascii) :
  (N_of_ascii c <? 128)%N = true -> Urllib.second_ok b0 c = false.
Proof.
  intros Hc%N.ltb_lt. unfold Urllib.second_ok.
  repeat destruct (_ =? _)%N; apply andb_false_iff; left; apply N.leb_gt; lia.
Qed.

Lemma utf8_replace_app_ascii (a r : string) :
  Urllib.ascii_only a = true ->
  Urllib.utf8_replace (a +:+ r) = a +:+ Urllib.utf8_replace r.
Proof.
  induction a as [|c a IH]; [reflexivity|]. simpl Urllib.ascii_only.
  intros [Hc Ha]%andb_true_iff. rewrite !app_cons. cbn [Urllib.utf8_replace].
  rewrite Hc, IH by exact Ha. reflexivity.
Qed.

(** A byte from 128 on that stands alone in ASCII text is ill-formed. *)
Lemma utf8_replace_lone (b0 : ascii) (b : string) :
  (128 <= N_of_ascii b0)%N -> Urllib.ascii_only b = true ->
  Urllib.utf8_replace (String b0 b) = Urllib.replacement +:+ b.
Proof.
  intros H0 Hb. pose proof (utf8_replace_ascii b Hb) as Hrest.
  cbn [Urllib.utf8_replace].
  destruct (N_of_ascii b0 <? 128)%N eqn:E; [apply N.ltb_lt in E; lia|].
  destruct b as [|b1 t1].
  - repeat match goal with |- context [if ?c then _ else _] => destruct c end; reflexivity.
  - apply andb_true_iff in Hb as [Hb1 _].
    rewrite (continuation_ascii b1 Hb1), (second_ok_ascii b0 b1 Hb1), Hrest.
    repeat match goal with |- context [if ?c then _ else _] => destruct c end; reflexivity.
Qed.

(** An escape of a byte from 128 on, alone in plain ASCII text, is read as
    U+FFFD. *)
Lemma unquote_lone_high (a b : string) (hi lo : ascii) (h l : nat) :
  String.get h "0123456789ABCDEF" = Some hi \/ String.get h "0123456789abcdef" = Some hi ->
  String.get l "0123456789ABCDEF" = Some lo \/ String.get l "0123456789abcdef" = Some lo ->
  (128 <= 16 * h + l)%nat ->
  occurs "%" a = false -> occurs "%" b = false ->
  Urllib.ascii_only a = true -> Urllib.ascii_only b = true ->
  Urllib.unquote (a +:+ String "%" (String hi (String lo b)))
  = a +:+ String "239" (String "191" (String "189" b)).
Proof.
  intros Hhi Hlo Hge Ha Hb Hasc Hbsc. unfold Urllib.unquote.
  pose proof (hex_digit_bound h hi Hhi). pose proof (hex_digit_bound l lo Hlo).
  rewrite contains_percent_occurs, occurs_app. simpl occurs. rewrite orb_true_r.
  rewrite (unquote_to_bytes_app_plain a _ Ha). cbn [Urllib.unquote_to_bytes].
  rewrite Ascii.eqb_refl, (hex_value_digit h hi Hhi), (hex_value_digit l lo Hlo).
  rewrite <- contains_percent_occurs in Hb. rewrite (unquote_to_bytes_plain b Hb).
  rewrite (utf8_replace_app_ascii a _ Hasc), utf8_replace_lone; [reflexivity | | exact Hbsc].
  rewrite N_ascii_embedding by lia. lia.
Qed.

(** A [%] that two hex digits do not follow stays. *)
Lemma unquote_stray_percent (a b : string) :
  occurs "%" a = false -> occurs "%" b = false ->
  Urllib.ascii_only a = true -> Urllib.ascii_only b = true ->
  (forall c1 c2 r, b = String c1 (String c2 r) ->
                   occurs c1 "0123456789ABCDEFabcdef" = false
                   \/ occurs c2 "0123456789ABCDEFabcdef" = false) ->
  Urllib.unquote (a +:+ String "%" b) = a +:+ String "%" b.
Proof.
  intros Ha Hb Hasc Hbsc Hnot. unfold Urllib.unquote.
  rewrite contains_percent_occurs, occurs_app. simpl occurs. rewrite orb_true_r.
  rewrite (unquote_to_bytes_app_plain a _ Ha).
  rewrite <- contains_percent_occurs in Hb. pose proof (unquote_to_bytes_plain b Hb) as Hplain.
  assert (Hraw : Urllib.unquote_to_bytes (String "%" b) = String "%" b).
  { cbn [Urllib.unquote_to_bytes]. rewrite Ascii.eqb_refl.
    destruct b as [|c1 [|c2 r]]; [reflexivity | rewrite Hplain; reflexivity |].
    destruct (Hnot c1 c2 r eq_refl) as [Hc | Hc]; rewrite (hex_value_none _ Hc).
    - rewrite Hplain. reflexivity.
    - rewrite Hplain. destruct (Urllib.hex_value c1); reflexivity. }
  rewrite Hraw. apply utf8_replace_ascii.
  rewrite ascii_only_app, Hasc. simpl. exact Hbsc.
Qed.

End EncodingFacts.

(** ** Variants *)

Section VariantFacts.

Lemma foldl_unique_step (l : list string) (seen : gset string) (acc : list string) :
  (forall x, x ∈ seen <-> x ∈ acc) ->
  snd (foldl unique_step (seen, acc) l)
  = acc ++ filter (fun k => k ∉ acc) (keep_first l).
Proof.
  revert seen acc. induction l as [|k l IH]; intros seen acc Hseen.
  - simpl. rewrite app_nil_r. reflexivity.
  - cbn [foldl keep_first]. unfold unique_step at 2.
    destruct (decide (k ∈ seen)) as [Hin|Hout].
    + rewrite (IH seen acc Hseen).
      rewrite filter_cons_False by (intros Hk; apply Hk, Hseen, Hin).
      rewrite list_filter_filter. f_equal.
      apply list_filter_iff. intros x. split; [|tauto].
      intros Hx. split; [exact Hx|]. intros ->. apply Hx, Hseen, Hin.
    + rewrite (IH ({[k]} ∪ seen) (acc ++ [k])).
      2:{ intros x. rewrite elem_of_union, elem_of_singleton, elem_of_app,
            list_elem_of_singleton, Hseen. tauto. }
      rewrite filter_cons_True by (intros Hk; apply Hout, Hseen, Hk).
      rewrite list_filter_filter, <- app_assoc. simpl. do 2 f_equal.
      apply list_filter_iff. intros x.
      rewrite elem_of_app, list_elem_of_singleton. tauto.
Qed.

Lemma keep_first_elem (l : list string) (x : string) :
  x ∈ keep_first l <-> x ∈ l.
Proof.
  induction l as [|k l IH]; [reflexivity|]. simpl.
  rewrite !elem_of_cons, list_elem_of_filter, IH.
  destruct (decide (x = k)); tauto.
Qed.

Lemma keep_first_NoDup (l : list string) : NoDup (keep_first l).
Proof.
  induction l as [|k l IH]; simpl; [constructor|].
  apply NoDup_cons. split.
  - rewrite list_elem_of_filter. tauto.
  - apply NoDup_filter, IH.
Qed.

Lemma keep_first_sublist (l : list string) : sublist (keep_first l) l.
Proof.
  induction l as [|k l IH]; simpl; [constructor|].
  apply sublist_skip. etrans; [apply sublist_filter | exact IH].
Qed.

Lemma filter_not_in_nil (l : list string) :
  filter (fun k : string => k ∉ @nil string) l = l.
Proof.
  induction l as [|k l IH]; [reflexivity|].
  rewrite filter_cons_True by apply not_elem_of_nil. rewrite IH. reflexivity.
Qed.

Lemma unique_variations_keep_first (key : string) :
  unique_variations key = keep_first (s3_key_variations key).
Proof.
  unfold unique_variations. rewrite foldl_unique_step by set_solver.
  apply filter_not_in_nil.
Qed.

End VariantFacts.

(** C6. The variant sequence is the list [key; unquote key; quote key] with
    every later duplicate dropped: its first element is [key], it has no
    duplicates, it has exactly the elements of that list, in that order.
    [quote] works byte by byte: letters, digits, [_.-~] and ['/'] are kept,
    every other byte becomes [%] and its two upper-case hex digits.
    [unquote] returns a key without [%] as it is; in plain ASCII text it
    reads an escape, with hex digits of either case, as the byte it writes
    when that byte is below 128 and as U+FFFD when it is not, and leaves a
    [%] that two hex digits do not follow; and it undoes [quote] on
    well-formed text. *)
Theorem unique_variations_spec (key : string) :
  unique_variations key
  = keep_first [key; Urllib.unquote key; Urllib.quote key]
  /\ head (unique_variations key) = Some key
  /\ NoDup (unique_variations key)
  /\ (forall k, k ∈ unique_variations key
                <-> k ∈ [key; Urllib.unquote key; Urllib.quote key])
  /\ sublist (unique_variations key) [key; Urllib.unquote key; Urllib.quote key]
  /\ (forall a b, Urllib.quote (a +:+ "/" +:+ b)
                  = Urllib.quote a +:+ "/" +:+ Urllib.quote b)
  /\ (forall a b, Urllib.quote (a +:+ b) = Urllib.quote a +:+ Urllib.quote b)
  /\ (forall c : ascii,
        if occurs c "ABCDEFGHIJKLMNOPQRSTUVWXYZabcdefghijklmnopqrstuvwxyz0123456789_.-~/"
        then Urllib.quote (String c "") = String c ""
        else exists hi lo,
            String.get (nat_of_ascii c / 16) "0123456789ABCDEF" = Some hi
            /\ String.get (nat_of_ascii c mod 16) "0123456789ABCDEF" = Some lo
            /\ Urllib.quote (String c "") = String "%" (String hi (String lo "")))
  /\ (occurs "%" key = false -> Urllib.unquote key = key)
  /\ (forall (a b : string) (hi lo : ascii) (h l : nat),
        String.get h "0123456789ABCDEF" = Some hi
        \/ String.get h "0123456789abcdef" = Some hi ->
        String.get l "0123456789ABCDEF" = Some lo
        \/ String.get l "0123456789abcdef" = Some lo ->
        (16 * h + l < 128)%nat ->
        occurs "%" a = false -> occurs "%" b = false ->
        Urllib.ascii_only a = true -> Urllib.ascii_only b = true ->
        Urllib.unquote (a +:+ String "%" (String hi (String lo b)))
        = a +:+ String (ascii_of_nat (16 * h + l)) b)
  /\ (forall (a b : string) (hi lo : ascii) (h l : nat),
        String.get h "0123456789ABCDEF" = Some hi
        \/ String.get h "0123456789abcdef" = Some hi ->
        String.get l "0123456789ABCDEF" = Some lo
        \/ String.get l "0123456789abcdef" = Some lo ->
        (128 <= 16 * h + l)%nat ->
        occurs "%" a = false -> occurs "%" b = false ->
        Urllib.ascii_only a = true -> Urllib.ascii_only b = true ->
        Urllib.unquote (a +:+ String "%" (String hi (String lo b)))
        = a +:+ String "239" (String "191" (String "189" b)))
  /\ (forall a b : string,
        occurs "%" a = false -> occurs "%" b = false ->
        Urllib.ascii_only a = true -> Urllib.ascii_only b = true ->
        (forall c1 c2 r, b = String c1 (String c2 r) ->
                         occurs c1 "0123456789ABCDEFabcdef" = false
                         \/ occurs c2 "0123456789ABCDEFabcdef" = false) ->
        Urllib.unquote (a +:+ String "%" b) = a +:+ String "%" b)
  /\ (Urllib.utf8_replace key = key -> Urllib.unquote (Urllib.quote key) = key).
Proof.
  rewrite unique_variations_keep_first. unfold s3_key_variations.
  split; [reflexivity|]. split; [reflexivity|].
  split; [apply keep_first_NoDup|].
  split; [intros k; apply keep_first_elem|].
  split; [apply keep_first_sublist|]. split; [apply quote_keeps_slash|].
  split; [apply quote_app|]. split; [apply quote_char|].
  split.
  { intros Hp. unfold Urllib.unquote. rewrite contains_percent_occurs, Hp. reflexivity. }
  split; [apply unquote_one_escape|]. split; [apply unquote_lone_high|].
  split; [apply unquote_stray_percent | apply unquote_quote].
Qed.

Lemma unique_variations_spec_witness :
  unique_variations "a%20b/c d.jpg"
  = ["a%20b/c d.jpg"; "a b/c d.jpg"; "a%2520b/c%20d.jpg"]
  /\ Urllib.unquote "a%2fb" = "a/b"
  /\ Urllib.unquote "a%e9b" = "a" +:+ Urllib.replacement +:+ "b"
  /\ Urllib.unquote "50%off" = "50%off"
  /\ Urllib.unquote (Urllib.quote "a b/ü.jpg") = "a b/ü.jpg".
Proof.
  pose proof (unique_variations_spec "a%20b/c d.jpg") as (Hv & _).
  pose proof (unique_variations_spec "a b/ü.jpg")
    as (_ & _ & _ & _ & _ & _ & _ & _ & _ & He & Hh & Hs & Hq).
  split; [rewrite Hv; reflexivity|].
  split; [exact (He "a" "b" "2"%char "f"%char 2%nat 15%nat
                    (or_introl eq_refl) (or_intror eq_refl)
                    ltac:(simpl; lia) eq_refl eq_refl eq_refl eq_refl)|].
  split; [exact (Hh "a" "b" "e"%char "9"%char 14%nat 9%nat
                    (or_intror eq_refl) (or_introl eq_refl)
                    ltac:(simpl; lia) eq_refl eq_refl eq_refl eq_refl)|].
  split; [|exact (Hq eq_refl)].
  refine (Hs "50" "off" eq_refl eq_refl eq_refl eq_refl _).
  intros c1 c2 r [= <- <- <-]. left. reflexivity.
Defined.

(** ** The existence probe *)

Section ProbeFacts.
Context `{Collaborators}.
Variable config : Config.

Lemma probe_loop_skip (s3_key : string) (pre rest : list string) (w w1 : World) :
  skip_missing config pre w = Some w1 ->
  probe_loop config s3_key (pre ++ rest) w =
  let '(r, w2, t) := probe_loop config s3_key rest w1 in
  (r, w2, map (HeadObject (bucket_name config)) pre ++ t).
Proof.
  revert w. induction pre as [|k pre IH]; intros w Hskip.
  - injection Hskip as ->. simpl. destruct (probe_loop _ _ _ _) as [[r w2] t]. reflexivity.
  - simpl in Hskip |- *. unfold bind, call.
    destruct (head_object (bucket_name config) k w) as [[| [n|e] | m] w'] eqn:Hh;
      try discriminate.
    destruct (n =? 404) eqn:Hn; [|discriminate].
    rewrite (IH w' Hskip).
    destruct (probe_loop config s3_key rest w1) as [[r w2] t]. reflexivity.
Qed.

Lemma probe_loop_found (s3_key v : string) (post : list string)
      (w w2 w3 : World) (code : Z) :
  head_object (bucket_name config) v w = (HeadFound, w2) ->
  requests_head (get_s3_url config v) w2 = (Response code, w3) ->
  probe_loop config s3_key (v :: post) w =
  (Ok (found_result v code), w3,
   [HeadObject (bucket_name config) v; HttpHead (get_s3_url config v)]).
Proof.
  intros Hh Hr. simpl. unfold bind, call. rewrite Hh, Hr.
  unfold found_result.
  destruct (code =? 200) eqn:H200.
  - apply Z.eqb_eq in H200. subst code. reflexivity.
  - destruct (code =? 403) eqn:H403; [|reflexivity].
    apply Z.eqb_eq in H403. subst code. reflexivity.
Qed.

(** The probe makes metadata and reachability calls only. *)
Lemma probe_loop_lookup_only (s3_key : string) (variations : list string)
      (w w' : World) (r : result probe_result) (t : list event) :
  probe_loop config s3_key variations w = (r, w', t) ->
  Forall (fun e => lookup_event e = true) t.
Proof.
  revert w t. induction variations as [|k vs IH]; intros w t Hp; simpl in Hp.
  - injection Hp as <- <- <-. constructor.
  - unfold bind, call, ret in Hp.
    destruct (head_object (bucket_name config) k w) as [[| [n|e] | m] w1] eqn:Hh.
    + destruct (requests_head (get_s3_url config k) w1) as [[code|m|m] w2] eqn:Hr;
        [destruct (code =? 200); [|destruct (code =? 403)] | |];
        injection Hp as <- <- <-; repeat constructor.
    + destruct (n =? 404).
      * destruct (probe_loop config s3_key vs w1) as [[r1 w2] t1] eqn:Hrec.
        injection Hp as <- <- <-. constructor; [reflexivity|].
        exact (IH _ _ Hrec).
      * injection Hp as <- <- <-. repeat constructor.
    + injection Hp as <- <- <-. repeat constructor.
    + injection Hp as <- <- <-. repeat constructor.
Qed.

(** The only answer with [needs_upload = False] is the one given after a
    200 on the public check. *)
Lemma probe_loop_accessible (s3_key : string) (variations : list string)
      (w w' : World) (pr : probe_result) (t : list event) :
  probe_loop config s3_key variations w = (Ok pr, w', t) ->
  needs_upload pr = false ->
  status_code pr = 200 /\ status_message pr = "EXISTS_ACCESSIBLE"
  /\ actual_s3_key pr ∈ variations.
Proof.
  revert w t. induction variations as [|k vs IH]; intros w t Hp Hn; simpl in Hp.
  - injection Hp as <- <- <-. discriminate.
  - unfold bind, call, ret in Hp.
    destruct (head_object (bucket_name config) k w) as [[| [n|e] | m] w1] eqn:Hh.
    + destruct (requests_head (get_s3_url config k) w1) as [[code|m|m] w2] eqn:Hr;
        [destruct (code =? 200); [|destruct (code =? 403)] | |];
        injection Hp as <- <- <-; try discriminate.
      simpl. repeat split. apply list_elem_of_here.
    + destruct (n =? 404).
      * destruct (probe_loop config s3_key vs w1) as [[r1 w2] t1] eqn:Hrec.
        injection Hp as -> <- <-.
        destruct (IH _ _ Hrec Hn) as (? & ? & ?).
        repeat split; try assumption. apply list_elem_of_further. assumption.
      * injection Hp as <- <- <-. discriminate.
    + discriminate.
    + injection Hp as <- <- <-. discriminate.
Qed.

Lemma check_trace (s3_key : string) (w w' : World)
      (r : result probe_result) (t : list event) :
  check_s3_object_exists_and_accessible config s3_key w = (r, w', t) ->
  exists t', t = Probe s3_key :: t'
             /\ Forall (fun e => lookup_event e = true) t'
             /\ probe_loop config s3_key (unique_variations s3_key) w = (r, w', t').
Proof.
  unfold check_s3_object_exists_and_accessible, bind, call.
  destruct (probe_loop config s3_key (unique_variations s3_key) w) as [[r1 w1] t1] eqn:Hp.
  intros [= <- <- <-]. exists t1. split; [reflexivity|].
  split; [exact (probe_loop_lookup_only _ _ _ _ _ _ Hp) | reflexivity].
Qed.

Lemma check_found (s3_key v : string) (pre post : list string)
      (w w1 w2 w3 : World) (code : Z) :
  unique_variations s3_key = pre ++ v :: post ->
  skip_missing config pre w = Some w1 ->
  head_object (bucket_name config) v w1 = (HeadFound, w2) ->
  requests_head (get_s3_url config v) w2 = (Response code, w3) ->
  check_s3_object_exists_and_accessible config s3_key w =
  (Ok (found_result v code), w3,
   Probe s3_key :: map (HeadObject (bucket_name config)) pre
     ++ [HeadObject (bucket_name config) v; HttpHead (get_s3_url config v)]).
Proof.
  intros Hv Hskip Hh Hr.
  unfold check_s3_object_exists_and_accessible, bind, call.
  rewrite Hv, (probe_loop_skip s3_key pre (v :: post) w w1 Hskip).
  rewrite (probe_loop_found s3_key v post w1 w2 w3 code Hh Hr). reflexivity.
Qed.

End ProbeFacts.

Section ProbeTraceFacts.
Context `{Collaborators}.
Variable config : Config.

Lemma quote_inj (a b : string) : Urllib.quote a = Urllib.quote b -> a = b.
Proof.
  intros Hq. rewrite <- (unquote_to_bytes_quote a), <- (unquote_to_bytes_quote b), Hq.
  reflexivity.
Qed.

Lemma get_s3_url_inj (a b : string) :
  get_s3_url config a = get_s3_url config b -> a = b.
Proof.
  rewrite !get_s3_url_prefix. intros Hu. apply quote_inj.
  exact (String.app_inj _ _ _ Hu).
Qed.

Lemma lookup_not_upload (t : list event) :
  Forall (fun e => lookup_event e = true) t ->
  Forall (fun e => upload_activity e = false) t.
Proof.
  intros Ht. eapply Forall_impl; [exact Ht|].
  intros [] He; simpl in *; congruence.
Qed.

Lemma check_no_upload (s3_key : string) (w w' : World)
      (r : result probe_result) (t : list event) :
  check_s3_object_exists_and_accessible config s3_key w = (r, w', t) ->
  Forall (fun e => upload_activity e = false) t.
Proof.
  intros Hc. destruct (check_trace config _ _ _ _ _ Hc) as (t' & -> & Ht' & _).
  constructor; [reflexivity | apply lookup_not_upload, Ht'].
Qed.

End ProbeTraceFacts.

(** C1. When [head_object] answers 404 for the variants before [v] and finds
    [v], the probe stops at [v]: it makes one public check, on the URL of
    [v], and returns with [v] as the matched key. A 200 gives
    [needs_upload = False] with status [EXISTS_ACCESSIBLE]; any other status
    [code] gives [needs_upload = True] with that [code] and status
    [EXISTS_<code>_REUPLOAD]. No variant after [v] is looked up or checked. *)
Theorem probe_stops_at_first_found `{Collaborators} (config : Config)
        (s3_key v : string) (pre post : list string)
        (w w1 w2 w3 : World) (code : Z) :
  unique_variations s3_key = pre ++ v :: post ->
  skip_missing config pre w = Some w1 ->
  head_object (bucket_name config) v w1 = (HeadFound, w2) ->
  requests_head (get_s3_url config v) w2 = (Response code, w3) ->
  exists t,
    check_s3_object_exists_and_accessible config s3_key w
    = (Ok (found_result v code), w3, t)
    /\ t = Probe s3_key :: map (HeadObject (bucket_name config)) pre
           ++ [HeadObject (bucket_name config) v; HttpHead (get_s3_url config v)]
    /\ (code = 200 ->
        found_result v code
        = {| needs_upload := false; status_code := 200;
             status_message := "EXISTS_ACCESSIBLE"; actual_s3_key := v |})
    /\ (code <> 200 ->
        found_result v code
        = {| needs_upload := true; status_code := code;
             status_message := "EXISTS_" +:+ pretty code +:+ "_REUPLOAD";
             actual_s3_key := v |})
    /\ (forall k, k ∈ post ->
          (HeadObject (bucket_name config) k ∉ t)
          /\ (HttpHead (get_s3_url config k) ∉ t)).
Proof.
  intros Hv Hskip Hh Hr. eexists. split; [exact (check_found config _ _ _ _ _ _ _ _ _ Hv Hskip Hh Hr)|].
  split; [reflexivity|]. split; [intros ->; reflexivity|].
  split.
  { intros Hne. unfold found_result.
    destruct (code =? 200) eqn:He; [apply Z.eqb_eq in He; contradiction | reflexivity]. }
  intros k Hk.
  assert (Hnd : NoDup (pre ++ v :: post)).
  { rewrite <- Hv, unique_variations_keep_first. apply keep_first_NoDup. }
  apply NoDup_app in Hnd as (_ & Hpre & Hvp). apply NoDup_cons in Hvp as [Hvp _].
  split.
  - rewrite elem_of_cons, elem_of_app, !elem_of_cons, list_elem_of_fmap.
    intros [Hp | [(k' & [= ->] & Hin) | [[= ->] | [Hp | Hp%elem_of_nil]]]];
      try discriminate; try contradiction.
    apply (Hpre k' Hin). apply list_elem_of_further. exact Hk.
  - rewrite elem_of_cons, elem_of_app, !elem_of_cons, list_elem_of_fmap.
    intros [Hp | [(k' & Hp & _) | [Hp | [Hp | Hp%elem_of_nil]]]];
      try discriminate; try contradiction.
    assert (Hu : get_s3_url config k = get_s3_url config v) by congruence.
    apply get_s3_url_inj in Hu. subst k. contradiction.
Qed.

Lemma probe_stops_at_first_found_witness :
  exists t,
    check_s3_object_exists_and_accessible (H := Toy.collaborators)
      (Toy.config true) "a%20b.jpg"
      {| Toy.objects := [("a b.jpg", 403); ("a%2520b.jpg", 200)]; Toy.source_up := true |}
    = (Ok (found_result "a b.jpg" 403),
       {| Toy.objects := [("a b.jpg", 403); ("a%2520b.jpg", 200)]; Toy.source_up := true |},
       t)
    /\ t = [Probe "a%20b.jpg"; HeadObject "bucket" "a%20b.jpg";
            HeadObject "bucket" "a b.jpg";
            HttpHead "https://bucket.s3.ap-south-1.amazonaws.com/a%20b.jpg"].
Proof.
  destruct (probe_stops_at_first_found (H := Toy.collaborators) (Toy.config true)
              "a%20b.jpg" "a b.jpg" ["a%20b.jpg"] ["a%2520b.jpg"]
              {| Toy.objects := [("a b.jpg", 403); ("a%2520b.jpg", 200)]; Toy.source_up := true |}
              {| Toy.objects := [("a b.jpg", 403); ("a%2520b.jpg", 200)]; Toy.source_up := true |}
              {| Toy.objects := [("a b.jpg", 403); ("a%2520b.jpg", 200)]; Toy.source_up := true |}
              {| Toy.objects := [("a b.jpg", 403); ("a%2520b.jpg", 200)]; Toy.source_up := true |}
              403 eq_refl eq_refl eq_refl eq_refl) as (t & Hc & Ht & _).
  exists t. split; [exact Hc | exact Ht].
Defined.

(** ** The per-row decision *)

Section DecisionFacts.
Context `{Collaborators}.
Variable config : Config.

(** The decision after the first probe has returned [pr]. *)
Lemma process_after_probe (url key : string) (w w1 : World)
      (pr : probe_result) (t1 : list event) :
  generate_s3_key url = Ok key ->
  check_s3_object_exists_and_accessible config key w = (Ok pr, w1, t1) ->
  needs_upload pr = true ->
  dry_run config = true ->
  process_single_image config url w =
  ({| s3_key := actual_s3_key pr;
      status := "WOULD_UPLOAD_" +:+ status_message pr;
      s3_url := get_s3_url config (actual_s3_key pr);
      response_code := status_code pr |}, w1, t1).
Proof.
  intros Hk Hc Hn Hd.
  unfold process_single_image, process_single_image_try, bindE, bind, ret.
  rewrite Hk, Hc, Hn, Hd. simpl. rewrite ?app_nil_r. reflexivity.
Qed.

(** A raise inside the [try] becomes the error record. *)
Lemma process_single_image_raise (url e : string) (w w1 : World) (t : list event) :
  process_single_image_try config url w = (Raise e, w1, t) ->
  process_single_image config url w = (error_outcome e, w1, t).
Proof.
  intros Ht. unfold process_single_image, bind, ret. rewrite Ht, app_nil_r. reflexivity.
Qed.

Lemma process_single_image_ok (url : string) (o : outcome) (w w1 : World) (t : list event) :
  process_single_image_try config url w = (Ok o, w1, t) ->
  process_single_image config url w = (o, w1, t).
Proof.
  intros Ht. unfold process_single_image, bind, ret. rewrite Ht, app_nil_r. reflexivity.
Qed.

(** Where the [try] can be left: key derivation, the probe, the download,
    the normalization, the upload, the second probe. *)
Lemma try_raise_key (url e : string) (w : World) :
  generate_s3_key url = Raise e ->
  process_single_image_try config url w = (Raise e, w, []).
Proof.
  intros Hk. unfold process_single_image_try, bindE, bind, ret. rewrite Hk. reflexivity.
Qed.

Lemma try_raise_probe (url key e : string) (w w1 : World) (t1 : list event) :
  generate_s3_key url = Ok key ->
  check_s3_object_exists_and_accessible config key w = (Raise e, w1, t1) ->
  process_single_image_try config url w = (Raise e, w1, t1).
Proof.
  intros Hk Hc. unfold process_single_image_try, bindE, bind, ret.
  rewrite Hk, Hc. simpl. rewrite app_nil_r. reflexivity.
Qed.

Lemma try_raise_download (url key e : string) (w w1 w2 : World)
      (pr : probe_result) (t1 : list event) :
  generate_s3_key url = Ok key ->
  check_s3_object_exists_and_accessible config key w = (Ok pr, w1, t1) ->
  needs_upload pr = true ->
  dry_run config = false ->
  requests_get url w1 = (Raise e, w2) ->
  process_single_image_try config url w = (Raise e, w2, t1 ++ [HttpGet url]).
Proof.
  intros Hk Hc Hn Hd Hg.
  unfold process_single_image_try, process_image_from_url, bindE, bind, ret, call.
  rewrite Hk; simpl; rewrite Hc; simpl; rewrite Hn, Hd; simpl; rewrite Hg; simpl.
  rewrite ?app_nil_r. reflexivity.
Qed.

Lemma try_raise_normalize (url key content e : string) (w w1 w2 w3 : World)
      (pr : probe_result) (t1 : list event) :
  generate_s3_key url = Ok key ->
  check_s3_object_exists_and_accessible config key w = (Ok pr, w1, t1) ->
  needs_upload pr = true ->
  dry_run config = false ->
  requests_get url w1 = (Ok content, w2) ->
  normalize config content (debug_name config (actual_s3_key pr)) w2 = (Raise e, w3) ->
  process_single_image_try config url w
  = (Raise e, w3, t1 ++ [HttpGet url; Normalize (debug_name config (actual_s3_key pr))]).
Proof.
  intros Hk Hc Hn Hd Hg Hz. unfold debug_name in Hz |- *.
  unfold process_single_image_try, process_image_from_url, bindE, bind, ret, call.
  rewrite Hk; simpl; rewrite Hc; simpl; rewrite Hn, Hd; simpl; rewrite Hg; simpl.
  rewrite Hz; simpl. rewrite ?app_nil_r. reflexivity.
Qed.

Lemma try_raise_upload (url key content buffer e : string) (w w1 w2 w3 w4 : World)
      (pr : probe_result) (t1 : list event) :
  generate_s3_key url = Ok key ->
  check_s3_object_exists_and_accessible config key w = (Ok pr, w1, t1) ->
  needs_upload pr = true ->
  dry_run config = false ->
  requests_get url w1 = (Ok content, w2) ->
  normalize config content (debug_name config (actual_s3_key pr)) w2 = (Ok buffer, w3) ->
  upload_fileobj buffer (bucket_name config) (actual_s3_key pr) w3 = (Raise e, w4) ->
  process_single_image_try config url w
  = (Raise e, w4,
     t1 ++ [HttpGet url; Normalize (debug_name config (actual_s3_key pr));
            PutObject (bucket_name config) (actual_s3_key pr)]).
Proof.
  intros Hk Hc Hn Hd Hg Hz Hu. unfold debug_name in Hz |- *.
  unfold process_single_image_try, process_image_from_url, upload_to_s3,
    bindE, bind, ret, call.
  rewrite Hk; simpl; rewrite Hc; simpl; rewrite Hn, Hd; simpl; rewrite Hg; simpl.
  rewrite Hz; simpl; rewrite Hu; simpl. rewrite ?app_nil_r. reflexivity.
Qed.

(** The decision in live mode when download, normalization and upload all
    return: [v] is what the second probe does. *)
Lemma try_live (url key content buffer : string) (w w1 w2 w3 w4 w5 : World)
      (pr : probe_result) (t1 t2 : list event) (v : result probe_result) :
  generate_s3_key url = Ok key ->
  check_s3_object_exists_and_accessible config key w = (Ok pr, w1, t1) ->
  needs_upload pr = true ->
  dry_run config = false ->
  requests_get url w1 = (Ok content, w2) ->
  normalize config content (debug_name config (actual_s3_key pr)) w2 = (Ok buffer, w3) ->
  upload_fileobj buffer (bucket_name config) (actual_s3_key pr) w3 = (Ok tt, w4) ->
  check_s3_object_exists_and_accessible config (actual_s3_key pr) w4 = (v, w5, t2) ->
  process_single_image_try config url w =
  (match v with
   | Raise e => Raise e
   | Ok verify =>
       Ok {| s3_key := actual_s3_key pr;
             status :=
               if negb (needs_upload verify) && (status_code verify =? 200)
               then "UPLOADED_OK"
               else "UPLOADED_VERIFY_FAIL_" +:+ pretty (status_code verify);
             s3_url := get_s3_url config (actual_s3_key pr);
             response_code := status_code verify |}
   end, w5,
   t1 ++ [HttpGet url; Normalize (debug_name config (actual_s3_key pr));
          PutObject (bucket_name config) (actual_s3_key pr)] ++ t2).
Proof.
  intros Hk Hc Hn Hd Hg Hz Hu Hv. unfold debug_name in Hz |- *.
  unfold process_single_image_try, process_image_from_url, upload_to_s3,
    bindE, bind, ret, call.
  rewrite Hk; simpl; rewrite Hc; simpl; rewrite Hn, Hd; simpl; rewrite Hg; simpl.
  rewrite Hz; simpl; rewrite Hu; simpl. rewrite Hv.
  destruct v as [verify|e]; simpl.
  - destruct (negb (needs_upload verify) && (status_code verify =? 200));
      rewrite ?app_nil_r; reflexivity.
  - rewrite ?app_nil_r. reflexivity.
Qed.

End DecisionFacts.

(** C3. When the probe answers [needs_upload = False], the decision makes no
    download, normalize or upload call, and the row gets status [EXISTS_OK],
    HTTP status 200, and the key matched by the probe, both as key and in
    the public URL. *)
Theorem accessible_is_exists_ok `{Collaborators} (config : Config)
        (url key : string) (w w1 : World) (pr : probe_result) (t : list event) :
  generate_s3_key url = Ok key ->
  check_s3_object_exists_and_accessible config key w = (Ok pr, w1, t) ->
  needs_upload pr = false ->
  process_single_image config url w
  = ({| s3_key := actual_s3_key pr; status := "EXISTS_OK";
        s3_url := get_s3_url config (actual_s3_key pr);
        response_code := 200 |}, w1, t)
  /\ Forall (fun e => upload_activity e = false) t.
Proof.
  intros Hk Hc Hn. split; [|exact (check_no_upload config _ _ _ _ _ Hc)].
  destruct (check_trace config _ _ _ _ _ Hc) as (t' & _ & _ & Hp).
  destruct (probe_loop_accessible config _ _ _ _ _ _ Hp Hn) as (H200 & _ & _).
  unfold process_single_image, process_single_image_try, bindE, bind, ret.
  rewrite Hk; simpl; rewrite Hc; simpl; rewrite Hn, H200; simpl.
  rewrite ?app_nil_r. reflexivity.
Qed.

Lemma accessible_is_exists_ok_witness :
  process_single_image (H := Toy.collaborators) (Toy.config false)
    "https://site/a/b c.PNG"
    {| Toy.objects := [("a/b%20c.jpg", 200)]; Toy.source_up := true |}
  = ({| s3_key := "a/b%20c.jpg"; status := "EXISTS_OK";
        s3_url := "https://bucket.s3.ap-south-1.amazonaws.com/a/b%2520c.jpg";
        response_code := 200 |},
     {| Toy.objects := [("a/b%20c.jpg", 200)]; Toy.source_up := true |},
     [Probe "a/b c.jpg"; HeadObject "bucket" "a/b c.jpg";
      HeadObject "bucket" "a/b%20c.jpg";
      HttpHead "https://bucket.s3.ap-south-1.amazonaws.com/a/b%2520c.jpg"]).
Proof.
  exact (proj1 (accessible_is_exists_ok (H := Toy.collaborators) (Toy.config false)
    "https://site/a/b c.PNG" "a/b c.jpg"
    {| Toy.objects := [("a/b%20c.jpg", 200)]; Toy.source_up := true |}
    {| Toy.objects := [("a/b%20c.jpg", 200)]; Toy.source_up := true |}
    {| needs_upload := false; status_code := 200;
       status_message := "EXISTS_ACCESSIBLE"; actual_s3_key := "a/b%20c.jpg" |}
    [Probe "a/b c.jpg"; HeadObject "bucket" "a/b c.jpg";
     HeadObject "bucket" "a/b%20c.jpg";
     HttpHead "https://bucket.s3.ap-south-1.amazonaws.com/a/b%2520c.jpg"]
    eq_refl eq_refl eq_refl)).
Defined.

(** C5 (as amended). In simulate-only mode, when the probe finds the object
    at [v] and its public check returns 403, no download, normalize or
    upload call is made, the HTTP status of the row is 403, and its status
    label is [WOULD_UPLOAD_EXISTS_403_REUPLOAD], which starts with
    [WOULD_UPLOAD_EXISTS_403]. *)
Theorem dry_run_exists_403 `{Collaborators} (config : Config)
        (url key v : string) (pre post : list string) (w w1 w2 w3 : World) :
  dry_run config = true ->
  generate_s3_key url = Ok key ->
  unique_variations key = pre ++ v :: post ->
  skip_missing config pre w = Some w1 ->
  head_object (bucket_name config) v w1 = (HeadFound, w2) ->
  requests_head (get_s3_url config v) w2 = (Response 403, w3) ->
  exists t,
    process_single_image config url w
    = ({| s3_key := v; status := "WOULD_UPLOAD_EXISTS_403_REUPLOAD";
          s3_url := get_s3_url config v; response_code := 403 |}, w3, t)
    /\ Forall (fun e => upload_activity e = false) t
    /\ Py.startswith "WOULD_UPLOAD_EXISTS_403" "WOULD_UPLOAD_EXISTS_403_REUPLOAD" = true.
Proof.
  intros Hd Hk Hv Hs Hh Hr.
  pose proof (check_found config _ _ _ _ _ _ _ _ _ Hv Hs Hh Hr) as Hc.
  eexists. split; [|split; [exact (check_no_upload config _ _ _ _ _ Hc) | reflexivity]].
  rewrite (process_after_probe config url key w w3 _ _ Hk Hc eq_refl Hd). reflexivity.
Qed.

Lemma dry_run_exists_403_witness :
  exists t,
    process_single_image (H := Toy.collaborators) (Toy.config true)
      "https://site/a/b.PNG"
      {| Toy.objects := [("a/b.jpg", 403)]; Toy.source_up := true |}
    = ({| s3_key := "a/b.jpg"; status := "WOULD_UPLOAD_EXISTS_403_REUPLOAD";
          s3_url := get_s3_url (Toy.config true) "a/b.jpg"; response_code := 403 |},
       {| Toy.objects := [("a/b.jpg", 403)]; Toy.source_up := true |}, t)
    /\ Forall (fun e => upload_activity e = false) t
    /\ Py.startswith "WOULD_UPLOAD_EXISTS_403" "WOULD_UPLOAD_EXISTS_403_REUPLOAD" = true.
Proof.
  exact (dry_run_exists_403 (H := Toy.collaborators) (Toy.config true)
    "https://site/a/b.PNG" "a/b.jpg" "a/b.jpg" [] []
    {| Toy.objects := [("a/b.jpg", 403)]; Toy.source_up := true |}
    {| Toy.objects := [("a/b.jpg", 403)]; Toy.source_up := true |}
    {| Toy.objects := [("a/b.jpg", 403)]; Toy.source_up := true |}
    {| Toy.objects := [("a/b.jpg", 403)]; Toy.source_up := true |}
    eq_refl eq_refl eq_refl eq_refl eq_refl eq_refl).
Defined.

(** C5, as the claim words it: with the object stored and its public check
    answering 403, the simulate-only label is not [WOULD_UPLOAD_EXISTS_403]. *)
Lemma dry_run_exists_403_label :
  let run := process_single_image (H := Toy.collaborators) (Toy.config true)
               "https://site/a/b.PNG"
               {| Toy.objects := [("a/b.jpg", 403)]; Toy.source_up := true |} in
  response_code (fst (fst run)) = 403
  /\ status (fst (fst run)) = "WOULD_UPLOAD_EXISTS_403_REUPLOAD"
  /\ status (fst (fst run)) <> "WOULD_UPLOAD_EXISTS_403".
Proof. vm_compute. repeat split. discriminate. Qed.

(** C4 (as amended). In live mode, when the probe asks for an upload and the
    download, the normalization and the upload call all return, the decision
    downloads and normalizes once, uploads once to the matched key, and
    probes once more, on that same key. If the second probe returns
    [needs_upload = False] with 200 the status is [UPLOADED_OK]; on any other
    answer it returns, the status is [UPLOADED_VERIFY_FAIL_<code>]. *)
Theorem live_upload_then_verify `{Collaborators} (config : Config)
        (url key content buffer : string) (w w1 w2 w3 w4 w5 : World)
        (pr verify : probe_result) (t1 t2 : list event) :
  dry_run config = false ->
  generate_s3_key url = Ok key ->
  check_s3_object_exists_and_accessible config key w = (Ok pr, w1, t1) ->
  needs_upload pr = true ->
  requests_get url w1 = (Ok content, w2) ->
  normalize config content (debug_name config (actual_s3_key pr)) w2 = (Ok buffer, w3) ->
  upload_fileobj buffer (bucket_name config) (actual_s3_key pr) w3 = (Ok tt, w4) ->
  check_s3_object_exists_and_accessible config (actual_s3_key pr) w4 = (Ok verify, w5, t2) ->
  exists lookups1 lookups2,
    process_single_image config url w
    = ({| s3_key := actual_s3_key pr;
          status :=
            if negb (needs_upload verify) && (status_code verify =? 200)
            then "UPLOADED_OK"
            else "UPLOADED_VERIFY_FAIL_" +:+ pretty (status_code verify);
          s3_url := get_s3_url config (actual_s3_key pr);
          response_code := status_code verify |}, w5,
       Probe key :: lookups1
       ++ [HttpGet url; Normalize (debug_name config (actual_s3_key pr));
           PutObject (bucket_name config) (actual_s3_key pr)]
       ++ Probe (actual_s3_key pr) :: lookups2)
    /\ Forall (fun e => lookup_event e = true) lookups1
    /\ Forall (fun e => lookup_event e = true) lookups2.
Proof.
  intros Hd Hk Hc Hn Hg Hz Hu Hv.
  destruct (check_trace config _ _ _ _ _ Hc) as (l1 & -> & Hl1 & _).
  destruct (check_trace config _ _ _ _ _ Hv) as (l2 & -> & Hl2 & _).
  exists l1, l2. split; [|split; assumption].
  apply process_single_image_ok.
  rewrite (try_live config url key content buffer w w1 w2 w3 w4 w5 pr _ _ (Ok verify)
             Hk Hc Hn Hd Hg Hz Hu Hv).
  reflexivity.
Qed.

Lemma live_upload_then_verify_witness :
  exists lookups1 lookups2,
    process_single_image (H := Toy.collaborators) (Toy.config false)
      "https://site/a/b c.PNG" Toy.empty_bucket
    = ({| s3_key := "a/b c.jpg"; status := "UPLOADED_OK";
          s3_url := "https://bucket.s3.ap-south-1.amazonaws.com/a/b%20c.jpg";
          response_code := 200 |},
       {| Toy.objects := [("a/b c.jpg", 200)]; Toy.source_up := true |},
       Probe "a/b c.jpg" :: lookups1
       ++ [HttpGet "https://site/a/b c.PNG"; Normalize None;
           PutObject "bucket" "a/b c.jpg"]
       ++ Probe "a/b c.jpg" :: lookups2)
    /\ Forall (fun e => lookup_event e = true) lookups1
    /\ Forall (fun e => lookup_event e = true) lookups2.
Proof.
  exact (live_upload_then_verify (H := Toy.collaborators) (Toy.config false)
    "https://site/a/b c.PNG" "a/b c.jpg" "image" "jpeg:image"
    Toy.empty_bucket Toy.empty_bucket Toy.empty_bucket Toy.empty_bucket
    {| Toy.objects := [("a/b c.jpg", 200)]; Toy.source_up := true |}
    {| Toy.objects := [("a/b c.jpg", 200)]; Toy.source_up := true |}
    {| needs_upload := true; status_code := 404;
       status_message := "NOT_EXISTS"; actual_s3_key := "a/b c.jpg" |}
    {| needs_upload := false; status_code := 200;
       status_message := "EXISTS_ACCESSIBLE"; actual_s3_key := "a/b c.jpg" |}
    [Probe "a/b c.jpg"; HeadObject "bucket" "a/b c.jpg";
     HeadObject "bucket" "a/b%20c.jpg"]
    [Probe "a/b c.jpg"; HeadObject "bucket" "a/b c.jpg";
     HttpHead "https://bucket.s3.ap-south-1.amazonaws.com/a/b%20c.jpg"]
    eq_refl eq_refl eq_refl eq_refl eq_refl eq_refl eq_refl eq_refl).
Defined.

(** C4, as the claim words it: in live mode, with the key absent from the
    bucket, a failing download ends the decision with no upload and no
    second probe. *)
Lemma live_download_failure_no_upload :
  check_s3_object_exists_and_accessible (H := Toy.collaborators) (Toy.config false)
    "a/b.jpg" {| Toy.objects := []; Toy.source_up := false |}
  = (Ok {| needs_upload := true; status_code := 404;
           status_message := "NOT_EXISTS"; actual_s3_key := "a/b.jpg" |},
     {| Toy.objects := []; Toy.source_up := false |},
     [Probe "a/b.jpg"; HeadObject "bucket" "a/b.jpg"])
  /\ process_single_image (H := Toy.collaborators) (Toy.config false)
       "https://site/a/b.PNG" {| Toy.objects := []; Toy.source_up := false |}
     = ({| s3_key := ""; status := "ERROR: 404 Client Error: Not Found";
           s3_url := ""; response_code := 0 |},
        {| Toy.objects := []; Toy.source_up := false |},
        [Probe "a/b.jpg"; HeadObject "bucket" "a/b.jpg";
         HttpGet "https://site/a/b.PNG"]).
Proof. split; reflexivity. Qed.

(** C9 (as amended). The public URL of a key is the fixed prefix followed by
    [quote(key, safe='/')]. When the probe matches the percent-encoded
    variant [quote key], the URL it checks and the URL recorded for the row
    encode that variant once more, every ['%'] of it becoming [%25]; the path
    of that URL decodes to the matched variant itself, the key under which
    the bucket holds the object, and not to the key the probe was asked
    about when the two differ. *)
Theorem encoded_variant_public_url `{Collaborators} (config : Config)
        (key : string) (pre post : list string) (w w1 w2 w3 : World) (code : Z) :
  unique_variations key = pre ++ Urllib.quote key :: post ->
  skip_missing config pre w = Some w1 ->
  head_object (bucket_name config) (Urllib.quote key) w1 = (HeadFound, w2) ->
  requests_head (get_s3_url config (Urllib.quote key)) w2 = (Response code, w3) ->
  (forall k, get_s3_url config k = url_prefix config +:+ Urllib.quote k)
  /\ (forall a b, Urllib.quote (a +:+ "/" +:+ b)
                  = Urllib.quote a +:+ "/" +:+ Urllib.quote b)
  /\ (exists t pr,
        check_s3_object_exists_and_accessible config key w = (Ok pr, w3, t)
        /\ actual_s3_key pr = Urllib.quote key
        /\ HttpHead (url_prefix config +:+ Urllib.quote (Urllib.quote key)) ∈ t
        /\ get_s3_url config (actual_s3_key pr)
           = url_prefix config +:+ Urllib.quote (Urllib.quote key))
  /\ (forall a b, Urllib.quote key = a +:+ "%" +:+ b ->
        Urllib.quote (Urllib.quote key)
        = Urllib.quote a +:+ "%25" +:+ Urllib.quote b)
  /\ Urllib.unquote (Urllib.quote (Urllib.quote key)) = Urllib.quote key
  /\ (Urllib.quote key <> key ->
      Urllib.unquote (Urllib.quote (Urllib.quote key)) <> key).
Proof.
  intros Hv Hs Hh Hr.
  split; [intros k; apply get_s3_url_prefix|].
  split; [apply quote_keeps_slash|].
  split.
  { exists (Probe key :: map (HeadObject (bucket_name config)) pre
            ++ [HeadObject (bucket_name config) (Urllib.quote key);
                HttpHead (get_s3_url config (Urllib.quote key))]),
           (found_result (Urllib.quote key) code).
    split; [exact (check_found config _ _ _ _ _ _ _ _ _ Hv Hs Hh Hr)|].
    split; [reflexivity|].
    split; [|apply get_s3_url_prefix].
    rewrite <- get_s3_url_prefix.
    apply list_elem_of_further, elem_of_app. right.
    apply list_elem_of_further, list_elem_of_here. }
  split; [intros a b ->; apply quote_escapes_percent|].
  split; [apply unquote_quote_quote|].
  rewrite unquote_quote_quote. tauto.
Qed.

Lemma encoded_variant_public_url_witness :
  exists t pr,
    check_s3_object_exists_and_accessible (H := Toy.collaborators) (Toy.config true)
      "a b.jpg" {| Toy.objects := [("a%20b.jpg", 200)]; Toy.source_up := true |}
    = (Ok pr, {| Toy.objects := [("a%20b.jpg", 200)]; Toy.source_up := true |}, t)
    /\ actual_s3_key pr = Urllib.quote "a b.jpg"
    /\ HttpHead (url_prefix (Toy.config true) +:+ Urllib.quote (Urllib.quote "a b.jpg")) ∈ t
    /\ get_s3_url (Toy.config true) (actual_s3_key pr)
       = url_prefix (Toy.config true) +:+ Urllib.quote (Urllib.quote "a b.jpg").
Proof.
  exact (proj1 (proj2 (proj2
    (encoded_variant_public_url (H := Toy.collaborators) (Toy.config true)
       "a b.jpg" ["a b.jpg"] []
       {| Toy.objects := [("a%20b.jpg", 200)]; Toy.source_up := true |}
       {| Toy.objects := [("a%20b.jpg", 200)]; Toy.source_up := true |}
       {| Toy.objects := [("a%20b.jpg", 200)]; Toy.source_up := true |}
       {| Toy.objects := [("a%20b.jpg", 200)]; Toy.source_up := true |}
       200 eq_refl eq_refl eq_refl eq_refl)))).
Defined.

(** C9, as the claim words it: for the key [a b.jpg] stored under its
    percent-encoded variant [a%20b.jpg], the URL checked and recorded has the
    path [a%2520b.jpg], and that path does decode to the stored key. *)
Lemma encoded_variant_url_decodes_to_stored_key :
  Urllib.quote "a b.jpg" = "a%20b.jpg"
  /\ Py.contains "%" (Urllib.quote "a b.jpg") = true
  /\ process_single_image (H := Toy.collaborators) (Toy.config true) "https://site/a b.PNG"
       {| Toy.objects := [("a%20b.jpg", 200)]; Toy.source_up := true |}
     = ({| s3_key := "a%20b.jpg"; status := "EXISTS_OK";
           s3_url := url_prefix (Toy.config true) +:+ "a%2520b.jpg";
           response_code := 200 |},
        {| Toy.objects := [("a%20b.jpg", 200)]; Toy.source_up := true |},
        [Probe "a b.jpg"; HeadObject "bucket" "a b.jpg";
         HeadObject "bucket" "a%20b.jpg";
         HttpHead (url_prefix (Toy.config true) +:+ "a%2520b.jpg")])
  /\ Urllib.unquote "a%2520b.jpg" = "a%20b.jpg".
Proof. repeat split; reflexivity. Qed.

(** ** The row loop *)

Section LoopFacts.
Context `{Collaborators}.
Variable config : Config.

Lemma main_loop_app (rows1 rows2 : list (option string)) (c : counters) (w : World) :
  main_loop config (rows1 ++ rows2) c w =
  let '(oc1, w1, t1) := main_loop config rows1 c w in
  let '(oc2, w2, t2) := main_loop config rows2 (snd oc1) w1 in
  ((fst oc1 ++ fst oc2, snd oc2), w2, t1 ++ t2).
Proof.
  revert c w. induction rows1 as [|cell rows1 IH]; intros c w.
  - simpl. destruct (main_loop config rows2 c w) as [[[o2 c2] w2] t2]. reflexivity.
  - simpl. unfold bind, ret.
    destruct (main_row config cell c w) as [[[o c1] w1] t1]. simpl.
    rewrite (IH c1 w1).
    destruct (main_loop config rows1 c1 w1) as [[[o1 c1'] w1'] t1']. simpl.
    destruct (main_loop config rows2 c1' w1') as [[[o2 c2] w2] t2]. simpl.
    rewrite !app_nil_r, app_assoc. reflexivity.
Qed.

Lemma main_loop_length (rows : list (option string)) (c : counters) (w : World) :
  length (fst (value (main_loop config rows c w))) = length rows.
Proof.
  revert c w. induction rows as [|cell rows IH]; intros c w; [reflexivity|].
  simpl. unfold bind, ret.
  destruct (main_row config cell c w) as [[[o c1] w1] t1]. simpl.
  specialize (IH c1 w1).
  destruct (main_loop config rows c1 w1) as [[[o1 c1'] w1'] t1']. simpl in *.
  rewrite IH. reflexivity.
Qed.

(** The record of a row is the one [main_row] computes for it in the world
    left by the rows before it, whatever happened to those. *)
Lemma main_loop_lookup (before after : list (option string)) (cell : option string)
      (c : counters) (w : World) :
  fst (value (main_loop config (before ++ cell :: after) c w)) !! length before
  = Some (fst (value (main_row config cell
                        (snd (value (main_loop config before c w)))
                        (snd (fst (main_loop config before c w)))))).
Proof.
  rewrite main_loop_app.
  pose proof (main_loop_length before c w) as Hlen.
  destruct (main_loop config before c w) as [[[o1 c1] w1] t1]. simpl in *.
  unfold bind, ret.
  destruct (main_row config cell c1 w1) as [[[o c2] w2] t2]. simpl.
  destruct (main_loop config after c2 w2) as [[[o3 c3] w3] t3]. simpl.
  unfold value. simpl. rewrite <- Hlen. apply list_lookup_middle. reflexivity.
Qed.

Lemma main_row_skipped (cell : option string) (c : counters) (w : World) :
  is_placeholder cell = true ->
  main_row config cell c w = ((skipped_outcome, add_error c), w, []).
Proof.
  intros Hp. destruct cell as [url|]; [|reflexivity].
  unfold main_row. rewrite Hp. reflexivity.
Qed.

Lemma main_row_processed (url : string) (c : counters) (w : World) :
  is_placeholder (Some url) = false ->
  main_row config (Some url) c w =
  let '(o, w1, t) := process_single_image config url w in
  ((o, count_result (status o) c), w1, t).
Proof.
  intros Hp. unfold main_row. rewrite Hp. unfold bind, ret.
  destruct (process_single_image config url w) as [[o w1] t].
  rewrite app_nil_r. reflexivity.
Qed.

Lemma count_result_cases (label : string) (c : counters) :
  count_result label c ∈ [add_uploaded c; add_exists c; add_reupload c; add_error c].
Proof.
  unfold count_result.
  destruct (_ || _); [destruct (reupload_label label)|destruct (String.eqb label "EXISTS_OK")];
    set_solver.
Qed.

Lemma total_step (c c' : counters) :
  c' ∈ [add_uploaded c; add_exists c; add_reupload c; add_error c] ->
  total c' = S (total c).
Proof.
  rewrite !elem_of_cons, elem_of_nil.
  intros [-> | [-> | [-> | [-> | []]]]]; unfold total; simpl; lia.
Qed.

Lemma startswith_shorter (p q s : string) :
  Py.startswith (p +:+ q) s = true -> Py.startswith p s = true.
Proof.
  intros (r & ->)%startswith_inv. rewrite app_assoc'. apply startswith_app.
Qed.

Lemma count_result_reupload (label : string) (c : counters) :
  count_result label c = add_reupload c <-> reupload_label label = true.
Proof.
  unfold count_result. split.
  - destruct (_ || _).
    + destruct (reupload_label label); [reflexivity|].
      intros [= Hu Hr]. lia.
    + destruct (String.eqb label "EXISTS_OK"); intros [= ? ?]; lia.
  - intros Hl. rewrite Hl.
    assert (Ho : Py.startswith "UPLOADED" label || Py.startswith "WOULD_UPLOAD" label = true).
    { unfold reupload_label in Hl. apply orb_true_iff in Hl as [Hl | Hl].
      - apply orb_true_iff. right.
        exact (startswith_shorter "WOULD_UPLOAD" "_EXISTS_403" label Hl).
      - apply andb_true_iff in Hl as [Hl _]. rewrite Hl. reflexivity. }
    rewrite Ho. reflexivity.
Qed.

Lemma main_row_counts (cell : option string) (c : counters) (w : World) :
  snd (value (main_row config cell c w))
  ∈ [add_uploaded c; add_exists c; add_reupload c; add_error c].
Proof.
  destruct (is_placeholder cell) eqn:Hp.
  - rewrite (main_row_skipped cell c w Hp). unfold value. simpl. set_solver.
  - destruct cell as [url|]; [|discriminate].
    rewrite (main_row_processed url c w Hp).
    destruct (process_single_image config url w) as [[o w1] t].
    unfold value. simpl. apply count_result_cases.
Qed.

Lemma main_loop_total (rows : list (option string)) (c : counters) (w : World) :
  total (snd (value (main_loop config rows c w))) = (total c + length rows)%nat.
Proof.
  revert c w. induction rows as [|cell rows IH]; intros c w.
  - unfold value. simpl. lia.
  - simpl. unfold bind, ret.
    pose proof (total_step _ _ (main_row_counts cell c w)) as Hs.
    destruct (main_row config cell c w) as [[[o c1] w1] t1]. simpl.
    specialize (IH c1 w1).
    destruct (main_loop config rows c1 w1) as [[[o1 c1'] w1'] t1'].
    unfold value in *. simpl in *. lia.
Qed.

End LoopFacts.

(** C8. Every row gets exactly one record, written at its own position: a
    run writes as many records as there are rows, and the record of a row is
    the one computed for that row in the world left by the rows before it,
    whatever happened to them. A placeholder row gets the skipped record.
    Any other row gets the record of [process_single_image], and when key
    derivation, the probe, the download, the normalization or the upload
    raises [e], that record has an empty key, an empty URL, HTTP status 0
    and the label [ERROR: e]. *)
Theorem every_row_gets_one_outcome `{Collaborators} (config : Config) :
  (forall rows c w, length (fst (value (main_loop config rows c w))) = length rows)
  /\ (forall before cell after c w,
        fst (value (main_loop config (before ++ cell :: after) c w)) !! length before
        = Some (fst (value (main_row config cell
                              (snd (value (main_loop config before c w)))
                              (snd (fst (main_loop config before c w)))))))
  /\ (forall cell c w,
        is_placeholder cell = true ->
        fst (value (main_row config cell c w))
        = {| s3_key := ""; status := "SKIPPED_INVALID_URL"; s3_url := "";
             response_code := 0 |})
  /\ (forall url c w,
        is_placeholder (Some url) = false ->
        fst (value (main_row config (Some url) c w))
        = value (process_single_image config url w))
  /\ (forall url e w w1 t,
        process_single_image_try config url w = (Raise e, w1, t) ->
        process_single_image config url w
        = ({| s3_key := ""; status := "ERROR: " +:+ e; s3_url := "";
              response_code := 0 |}, w1, t))
  /\ (forall url e w,
        generate_s3_key url = Raise e ->
        process_single_image_try config url w = (Raise e, w, []))
  /\ (forall url key e w w1 t1,
        generate_s3_key url = Ok key ->
        check_s3_object_exists_and_accessible config key w = (Raise e, w1, t1) ->
        process_single_image_try config url w = (Raise e, w1, t1))
  /\ (forall url key e w w1 w2 pr t1,
        generate_s3_key url = Ok key ->
        check_s3_object_exists_and_accessible config key w = (Ok pr, w1, t1) ->
        needs_upload pr = true ->
        dry_run config = false ->
        requests_get url w1 = (Raise e, w2) ->
        process_single_image_try config url w = (Raise e, w2, t1 ++ [HttpGet url]))
  /\ (forall url key content e w w1 w2 w3 pr t1,
        generate_s3_key url = Ok key ->
        check_s3_object_exists_and_accessible config key w = (Ok pr, w1, t1) ->
        needs_upload pr = true ->
        dry_run config = false ->
        requests_get url w1 = (Ok content, w2) ->
        normalize config content (debug_name config (actual_s3_key pr)) w2 = (Raise e, w3) ->
        process_single_image_try config url w
        = (Raise e, w3,
           t1 ++ [HttpGet url; Normalize (debug_name config (actual_s3_key pr))]))
  /\ (forall url key content buffer e w w1 w2 w3 w4 pr t1,
        generate_s3_key url = Ok key ->
        check_s3_object_exists_and_accessible config key w = (Ok pr, w1, t1) ->
        needs_upload pr = true ->
        dry_run config = false ->
        requests_get url w1 = (Ok content, w2) ->
        normalize config content (debug_name config (actual_s3_key pr)) w2 = (Ok buffer, w3) ->
        upload_fileobj buffer (bucket_name config) (actual_s3_key pr) w3 = (Raise e, w4) ->
        process_single_image_try config url w
        = (Raise e, w4,
           t1 ++ [HttpGet url; Normalize (debug_name config (actual_s3_key pr));
                  PutObject (bucket_name config) (actual_s3_key pr)])).
Proof.
  split; [apply main_loop_length|].
  split; [intros before cell after c w; apply main_loop_lookup|].
  split; [intros cell c w Hp; rewrite (main_row_skipped config cell c w Hp); reflexivity|].
  split.
  { intros url c w Hp. rewrite (main_row_processed config url c w Hp).
    destruct (process_single_image config url w) as [[o w1] t]. reflexivity. }
  split; [intros url e w w1 t; apply process_single_image_raise|].
  split; [intros url e w; apply try_raise_key|].
  split; [intros url key e w w1 t1; apply try_raise_probe|].
  split; [intros url key e w w1 w2 pr t1; apply try_raise_download|].
  split; [intros url key content e w w1 w2 w3 pr t1; apply try_raise_normalize|].
  intros url key content buffer e w w1 w2 w3 w4 pr t1. apply try_raise_upload.
Qed.

Lemma every_row_gets_one_outcome_witness :
  fst (value (main_loop (H := Toy.collaborators) (Toy.config false)
                [Some "https://site/missing.png"; Some "https://site/a/b.PNG"; None]
                zero_counters Toy.empty_bucket))
  = [ {| s3_key := ""; status := "ERROR: 404 Client Error: Not Found";
         s3_url := ""; response_code := 0 |};
      {| s3_key := "a/b.jpg"; status := "UPLOADED_OK";
         s3_url := "https://bucket.s3.ap-south-1.amazonaws.com/a/b.jpg";
         response_code := 200 |};
      {| s3_key := ""; status := "SKIPPED_INVALID_URL"; s3_url := "";
         response_code := 0 |} ]
  /\ fst (value (main_loop (H := Toy.collaborators) (Toy.config false)
                   [Some "https://site/missing.png"; Some "https://site/a/b.PNG"; None]
                   zero_counters Toy.empty_bucket)) !! 1%nat
     = Some {| s3_key := "a/b.jpg"; status := "UPLOADED_OK";
               s3_url := "https://bucket.s3.ap-south-1.amazonaws.com/a/b.jpg";
               response_code := 200 |}
  /\ process_single_image (H := Toy.collaborators) (Toy.config false)
       "https://site/missing.png" Toy.empty_bucket
     = ({| s3_key := ""; status := "ERROR: 404 Client Error: Not Found";
           s3_url := ""; response_code := 0 |}, Toy.empty_bucket,
        [Probe "missing.jpg"; HeadObject "bucket" "missing.jpg";
         HttpGet "https://site/missing.png"]).
Proof.
  split; [reflexivity|]. split.
  - exact (proj1 (proj2 (every_row_gets_one_outcome (H := Toy.collaborators) (Toy.config false)))
             [Some "https://site/missing.png"] (Some "https://site/a/b.PNG") [None]
             zero_counters Toy.empty_bucket).
  - exact (proj1 (proj2 (proj2 (proj2 (proj2
             (every_row_gets_one_outcome (H := Toy.collaborators) (Toy.config false))))))
             "https://site/missing.png" "404 Client Error: Not Found"
             Toy.empty_bucket Toy.empty_bucket
             [Probe "missing.jpg"; HeadObject "bucket" "missing.jpg";
              HttpGet "https://site/missing.png"] eq_refl).
Defined.

(** C10. Every row adds one to exactly one of the four counters and leaves
    the other three as they were, so after a run the four counters sum to
    the number of rows. A placeholder row is counted as an error. A row is
    counted as a re-upload exactly when its label starts with
    [WOULD_UPLOAD_EXISTS_403], or starts with [UPLOADED] and contains
    [403]. *)
Theorem counters_partition_rows `{Collaborators} (config : Config) :
  (forall cell c w,
     snd (value (main_row config cell c w))
     ∈ [add_uploaded c; add_exists c; add_reupload c; add_error c])
  /\ (forall rows w, total (snd (value (main_run config rows w))) = length rows)
  /\ (forall rows c w,
        total (snd (value (main_loop config rows c w))) = (total c + length rows)%nat)
  /\ (forall cell c w,
        is_placeholder cell = true ->
        snd (value (main_row config cell c w)) = add_error c)
  /\ (forall url c w,
        is_placeholder (Some url) = false ->
        snd (value (main_row config (Some url) c w))
        = count_result (status (value (process_single_image config url w))) c)
  /\ (forall label c,
        count_result label c = add_reupload c
        <-> Py.startswith "WOULD_UPLOAD_EXISTS_403" label
            || (Py.startswith "UPLOADED" label && Py.contains "403" label) = true).
Proof.
  split; [apply main_row_counts|].
  split; [intros rows w; unfold main_run; rewrite main_loop_total; reflexivity|].
  split; [apply main_loop_total|].
  split; [intros cell c w Hp; rewrite (main_row_skipped config cell c w Hp); reflexivity|].
  split; [|intros label c; apply count_result_reupload].
  intros url c w Hp. rewrite (main_row_processed config url c w Hp).
  destruct (process_single_image config url w) as [[o w1] t]. reflexivity.
Qed.

Lemma counters_partition_rows_witness :
  snd (value (main_run (H := Toy.collaborators) (Toy.config true)
                [Some "https://site/a/b.PNG"; Some " n/a "; None;
                 Some "https://site/c.gif"; Some "https://site/d.png"]
                {| Toy.objects := [("a/b.jpg", 403); ("c.jpg", 200)];
                   Toy.source_up := true |}))
  = {| uploaded_count := 1; exists_count := 1; reupload_count := 1; error_count := 2 |}
  /\ total (snd (value (main_run (H := Toy.collaborators) (Toy.config true)
                   [Some "https://site/a/b.PNG"; Some " n/a "; None;
                    Some "https://site/c.gif"; Some "https://site/d.png"]
                   {| Toy.objects := [("a/b.jpg", 403); ("c.jpg", 200)];
                      Toy.source_up := true |}))) = 5%nat.
Proof.
  split; [reflexivity|].
  exact (proj1 (proj2 (counters_partition_rows (H := Toy.collaborators) (Toy.config true)))
           [Some "https://site/a/b.PNG"; Some " n/a "; None;
            Some "https://site/c.gif"; Some "https://site/d.png"]
           {| Toy.objects := [("a/b.jpg", 403); ("c.jpg", 200)]; Toy.source_up := true |}).
Defined.

(** * More of the code *)

(** ** The other answers of the probe *)

Section ProbeAnswers.
Context `{Collaborators}.
Variable config : Config.

Lemma probe_loop_nil (s3_key : string) (w : World) :
  probe_loop config s3_key [] w
  = (Ok {| needs_upload := true; status_code := 404;
           status_message := "NOT_EXISTS"; actual_s3_key := s3_key |}, w, []).
Proof. reflexivity. Qed.

Lemma check_after_skip (s3_key v : string) (pre post : list string)
      (w w1 w2 : World) (r : result probe_result) (t : list event) :
  unique_variations s3_key = pre ++ v :: post ->
  skip_missing config pre w = Some w1 ->
  probe_loop config s3_key (v :: post) w1 = (r, w2, t) ->
  check_s3_object_exists_and_accessible config s3_key w
  = (r, w2, Probe s3_key :: map (HeadObject (bucket_name config)) pre ++ t).
Proof.
  intros Hv Hs Hp.
  unfold check_s3_object_exists_and_accessible, bind, call.
  rewrite Hv, (probe_loop_skip config s3_key pre (v :: post) w w1 Hs), Hp. reflexivity.
Qed.

Lemma unique_variations_head (s3_key : string) :
  exists rest, unique_variations s3_key = s3_key :: rest.
Proof. rewrite unique_variations_keep_first. simpl. eexists. reflexivity. Qed.

Lemma unique_variations_length (s3_key : string) :
  (1 <= length (unique_variations s3_key) <= 3)%nat.
Proof.
  split.
  - destruct (unique_variations_head s3_key) as [rest ->]. simpl. lia.
  - rewrite unique_variations_keep_first.
    exact (sublist_length _ _ (keep_first_sublist (s3_key_variations s3_key))).
Qed.

(** Whatever the probe answers, the key it names was one it was given. *)
Lemma probe_loop_actual (s3_key : string) (variations : list string)
      (w w' : World) (pr : probe_result) (t : list event) :
  probe_loop config s3_key variations w = (Ok pr, w', t) ->
  actual_s3_key pr ∈ variations \/ actual_s3_key pr = s3_key.
Proof.
  revert w t. induction variations as [|k vs IH]; intros w t Hp; simpl in Hp.
  - injection Hp as <- <- <-. right. reflexivity.
  - unfold bind, call, ret in Hp.
    destruct (head_object (bucket_name config) k w) as [[| [n|e] | m] w1] eqn:Hh.
    + destruct (requests_head (get_s3_url config k) w1) as [[code|m|m] w2] eqn:Hr;
        [destruct (code =? 200); [|destruct (code =? 403)] | |];
        injection Hp as <- <- <-; left; apply list_elem_of_here.
    + destruct (n =? 404).
      * destruct (probe_loop config s3_key vs w1) as [[r1 w2] t1] eqn:Hrec.
        injection Hp as -> <- <-.
        destruct (IH _ _ Hrec) as [Hin | Heq]; [left; apply list_elem_of_further, Hin | right; exact Heq].
      * injection Hp as <- <- <-. left. apply list_elem_of_here.
    + discriminate.
    + injection Hp as <- <- <-. left. apply list_elem_of_here.
Qed.

Lemma count_app (p : event -> bool) (t1 t2 : list event) :
  count p (t1 ++ t2) = (count p t1 + count p t2)%nat.
Proof. induction t1 as [|e t1 IH]; simpl; [reflexivity | rewrite IH; lia]. Qed.

Lemma count_none (p : event -> bool) (t : list event) :
  Forall (fun e => p e = false) t -> count p t = 0%nat.
Proof. induction 1 as [|e t He _ IH]; simpl; [reflexivity | rewrite He, IH; reflexivity]. Qed.

Lemma count_map_head_object (p : event -> bool) (bucket : string) (keys : list string) :
  (forall k, p (HeadObject bucket k) = false) ->
  count p (map (HeadObject bucket) keys) = 0%nat.
Proof. intros Hp. induction keys as [|k keys IH]; simpl; [reflexivity | rewrite Hp, IH; reflexivity]. Qed.

(** One [head_object] per variant at most, and at most one public check. *)
Lemma probe_loop_counts (s3_key : string) (variations : list string)
      (w w' : World) (r : result probe_result) (t : list event) :
  probe_loop config s3_key variations w = (r, w', t) ->
  (count is_head_object t <= length variations)%nat
  /\ (count is_http_head t <= 1)%nat.
Proof.
  revert w t. induction variations as [|k vs IH]; intros w t Hp; simpl in Hp.
  - injection Hp as <- <- <-. simpl. lia.
  - unfold bind, call, ret in Hp.
    destruct (head_object (bucket_name config) k w) as [[| [n|e] | m] w1] eqn:Hh.
    + destruct (requests_head (get_s3_url config k) w1) as [[code|m|m] w2] eqn:Hr;
        [destruct (code =? 200); [|destruct (code =? 403)] | |];
        injection Hp as <- <- <-; simpl; lia.
    + destruct (n =? 404).
      * destruct (probe_loop config s3_key vs w1) as [[r1 w2] t1] eqn:Hrec.
        injection Hp as <- <- <-. destruct (IH _ _ Hrec). simpl. lia.
      * injection Hp as <- <- <-. simpl. lia.
    + injection Hp as <- <- <-. simpl. lia.
    + injection Hp as <- <- <-. simpl. lia.
Qed.

(** The loop starts by looking its first variant up. *)
Lemma probe_loop_first (s3_key v : string) (rest : list string) (w : World) :
  exists r w' t,
    probe_loop config s3_key (v :: rest) w
    = (r, w', HeadObject (bucket_name config) v :: t).
Proof.
  simpl. unfold bind, call, ret.
  destruct (head_object (bucket_name config) v w) as [[| [n|e] | m] w1].
  - destruct (requests_head (get_s3_url config v) w1) as [[code|m|m] w2];
      [destruct (code =? 200); [|destruct (code =? 403)] | |];
      do 3 eexists; reflexivity.
  - destruct (n =? 404);
      [destruct (probe_loop config s3_key rest w1) as [[r w2] t]|];
      do 3 eexists; reflexivity.
  - do 3 eexists; reflexivity.
  - do 3 eexists; reflexivity.
Qed.

End ProbeAnswers.

(** X1. When [head_object] answers 404 for every variant, the probe answers
    [(True, 404, NOT_EXISTS)] with the key it was asked about, after looking
    up each variant once, in order, and making no public check. *)
Theorem probe_all_missing `{Collaborators} (config : Config)
        (s3_key : string) (w w1 : World) :
  skip_missing config (unique_variations s3_key) w = Some w1 ->
  check_s3_object_exists_and_accessible config s3_key w
  = (Ok {| needs_upload := true; status_code := 404;
           status_message := "NOT_EXISTS"; actual_s3_key := s3_key |}, w1,
     Probe s3_key :: map (HeadObject (bucket_name config)) (unique_variations s3_key)).
Proof.
  intros Hs. unfold check_s3_object_exists_and_accessible, bind, call.
  rewrite <- (app_nil_r (unique_variations s3_key)) at 1.
  rewrite (probe_loop_skip config s3_key _ [] w w1 Hs), probe_loop_nil, app_nil_r.
  reflexivity.
Qed.

Lemma probe_all_missing_witness :
  check_s3_object_exists_and_accessible (H := Toy.collaborators) (Toy.config true)
    "a b.jpg" Toy.empty_bucket
  = (Ok {| needs_upload := true; status_code := 404;
           status_message := "NOT_EXISTS"; actual_s3_key := "a b.jpg" |},
     Toy.empty_bucket,
     [Probe "a b.jpg"; HeadObject "bucket" "a b.jpg"; HeadObject "bucket" "a%20b.jpg"]).
Proof.
  exact (probe_all_missing (H := Toy.collaborators) (Toy.config true) "a b.jpg"
           Toy.empty_bucket Toy.empty_bucket eq_refl).
Defined.

(** X2. When [head_object] raises a [ClientError] whose code is a number
    other than 404 (the variants before having answered 404), the probe
    stops there: it answers [(True, code, S3_ERROR_<code>)] with that
    variant, makes no public check and looks up no later variant. *)
Theorem probe_s3_error `{Collaborators} (config : Config)
        (s3_key v : string) (pre post : list string) (w w1 w2 : World) (code : Z) :
  unique_variations s3_key = pre ++ v :: post ->
  skip_missing config pre w = Some w1 ->
  head_object (bucket_name config) v w1 = (HeadClientError (IntCode code), w2) ->
  code <> 404 ->
  check_s3_object_exists_and_accessible config s3_key w
  = (Ok {| needs_upload := true; status_code := code;
           status_message := "S3_ERROR_" +:+ pretty code; actual_s3_key := v |}, w2,
     Probe s3_key :: map (HeadObject (bucket_name config)) pre
       ++ [HeadObject (bucket_name config) v]).
Proof.
  intros Hv Hs Hh Hc.
  apply (check_after_skip config s3_key v pre post w w1 w2 _ _ Hv Hs).
  simpl. unfold bind, call, ret. rewrite Hh.
  destruct (code =? 404) eqn:He; [apply Z.eqb_eq in He; contradiction | reflexivity].
Qed.

(** X3. When the object is found but the public check raises, the probe
    answers [(True, 0, ACCESS_TEST_ERROR)] for a [RequestException] and
    [(True, 0, UNKNOWN_ERROR)] for any other exception, with that variant,
    and looks up no later variant. *)
Theorem probe_access_error `{Collaborators} (config : Config)
        (s3_key v : string) (pre post : list string) (w w1 w2 w3 : World)
        (answer : requests_head_result) :
  unique_variations s3_key = pre ++ v :: post ->
  skip_missing config pre w = Some w1 ->
  head_object (bucket_name config) v w1 = (HeadFound, w2) ->
  requests_head (get_s3_url config v) w2 = (answer, w3) ->
  (forall code, answer <> Response code) ->
  check_s3_object_exists_and_accessible config s3_key w
  = (Ok {| needs_upload := true; status_code := 0;
           status_message :=
             match answer with
             | RequestException _ => "ACCESS_TEST_ERROR"
             | _ => "UNKNOWN_ERROR"
             end;
           actual_s3_key := v |}, w3,
     Probe s3_key :: map (HeadObject (bucket_name config)) pre
       ++ [HeadObject (bucket_name config) v; HttpHead (get_s3_url config v)]).
Proof.
  intros Hv Hs Hh Hr Hn.
  apply (check_after_skip config s3_key v pre post w w1 w3 _ _ Hv Hs).
  simpl. unfold bind, call, ret. rewrite Hh, Hr.
  destruct answer as [code|m|m]; [destruct (Hn code eq_refl) | reflexivity | reflexivity].
Qed.

(** X4. When [head_object] raises a [ClientError] whose code is not a
    number, [int(...)] raises inside the handler: the probe raises, and in
    either run mode the row gets the error record, with no download and no
    upload. *)
Theorem probe_bad_code_is_error_row `{Collaborators} (config : Config)
        (url s3_key v value_error : string) (pre post : list string)
        (w w1 w2 : World) :
  generate_s3_key url = Ok s3_key ->
  unique_variations s3_key = pre ++ v :: post ->
  skip_missing config pre w = Some w1 ->
  head_object (bucket_name config) v w1
  = (HeadClientError (NotAnInt value_error), w2) ->
  check_s3_object_exists_and_accessible config s3_key w
  = (Raise value_error, w2,
     Probe s3_key :: map (HeadObject (bucket_name config)) pre
       ++ [HeadObject (bucket_name config) v])
  /\ process_single_image config url w
     = ({| s3_key := ""; status := "ERROR: " +:+ value_error; s3_url := "";
           response_code := 0 |}, w2,
        Probe s3_key :: map (HeadObject (bucket_name config)) pre
          ++ [HeadObject (bucket_name config) v]).
Proof.
  intros Hk Hv Hs Hh.
  assert (Hc : check_s3_object_exists_and_accessible config s3_key w
               = (Raise value_error, w2,
                  Probe s3_key :: map (HeadObject (bucket_name config)) pre
                    ++ [HeadObject (bucket_name config) v])).
  { apply (check_after_skip config s3_key v pre post w w1 w2 _ _ Hv Hs).
    simpl. unfold bind, call, ret. rewrite Hh. reflexivity. }
  split; [exact Hc|].
  apply process_single_image_raise. exact (try_raise_probe config _ _ _ _ _ _ Hk Hc).
Qed.

(** X5. Whatever the probe answers, the key it names is one of the variants
    of the key it was asked about, and an answer with [needs_upload = False]
    always carries status 200 and [EXISTS_ACCESSIBLE]. *)
Theorem probe_answer_invariants `{Collaborators} (config : Config)
        (s3_key : string) (w w1 : World) (pr : probe_result) (t : list event) :
  check_s3_object_exists_and_accessible config s3_key w = (Ok pr, w1, t) ->
  actual_s3_key pr ∈ unique_variations s3_key
  /\ (needs_upload pr = false ->
      status_code pr = 200 /\ status_message pr = "EXISTS_ACCESSIBLE").
Proof.
  intros Hc. destruct (check_trace config _ _ _ _ _ Hc) as (t' & _ & _ & Hp).
  split.
  - destruct (probe_loop_actual config _ _ _ _ _ _ Hp) as [Hin | ->]; [exact Hin|].
    destruct (unique_variations_head s3_key) as [rest ->]. apply list_elem_of_here.
  - intros Hn. destruct (probe_loop_accessible config _ _ _ _ _ _ Hp Hn) as (? & ? & _).
    split; assumption.
Qed.

(** X6. One probe makes at most three [head_object] calls and at most one
    public check, and nothing else. *)
Theorem probe_call_bounds `{Collaborators} (config : Config)
        (s3_key : string) (w : World) :
  let t := trace (check_s3_object_exists_and_accessible config s3_key w) in
  (count is_head_object t <= 3)%nat
  /\ (count is_http_head t <= 1)%nat
  /\ count is_probe t = 1%nat
  /\ count upload_activity t = 0%nat.
Proof.
  destruct (check_s3_object_exists_and_accessible config s3_key w) as [[r w1] t] eqn:Hc.
  unfold trace. simpl.
  pose proof (check_no_upload config _ _ _ _ _ Hc) as Hu.
  destruct (check_trace config _ _ _ _ _ Hc) as (t' & -> & Hl & Hp).
  destruct (probe_loop_counts config _ _ _ _ _ _ Hp) as [Hh Hg].
  pose proof (unique_variations_length s3_key) as [_ H3].
  simpl. repeat split; try lia.
  - rewrite count_none; [reflexivity|].
    eapply Forall_impl; [exact Hl|]. intros [] He; simpl in *; congruence.
  - apply (count_none upload_activity), lookup_not_upload, Hl.
Qed.

Lemma probe_s3_error_witness :
  check_s3_object_exists_and_accessible (H := Script.collaborators) (Toy.config true)
    "a b.jpg"
    {| Script.heads := [("a%20b.jpg", HeadClientError (IntCode 500))];
       Script.publics := [] |}
  = (Ok {| needs_upload := true; status_code := 500;
           status_message := "S3_ERROR_" +:+ pretty 500; actual_s3_key := "a%20b.jpg" |},
     {| Script.heads := [("a%20b.jpg", HeadClientError (IntCode 500))];
        Script.publics := [] |},
     [Probe "a b.jpg"; HeadObject "bucket" "a b.jpg"; HeadObject "bucket" "a%20b.jpg"]).
Proof.
  apply (probe_s3_error (H := Script.collaborators) (Toy.config true)
           "a b.jpg" "a%20b.jpg" ["a b.jpg"] []
           {| Script.heads := [("a%20b.jpg", HeadClientError (IntCode 500))];
              Script.publics := [] |}
           {| Script.heads := [("a%20b.jpg", HeadClientError (IntCode 500))];
              Script.publics := [] |}
           {| Script.heads := [("a%20b.jpg", HeadClientError (IntCode 500))];
              Script.publics := [] |}
           500 eq_refl eq_refl eq_refl).
  discriminate.
Defined.

Lemma probe_access_error_witness :
  check_s3_object_exists_and_accessible (H := Script.collaborators) (Toy.config true)
    "a.jpg"
    {| Script.heads := [("a.jpg", HeadFound)];
       Script.publics := [(get_s3_url (Toy.config true) "a.jpg", RequestException "timed out")] |}
  = (Ok {| needs_upload := true; status_code := 0;
           status_message := "ACCESS_TEST_ERROR"; actual_s3_key := "a.jpg" |},
     {| Script.heads := [("a.jpg", HeadFound)];
        Script.publics := [(get_s3_url (Toy.config true) "a.jpg", RequestException "timed out")] |},
     [Probe "a.jpg"; HeadObject "bucket" "a.jpg";
      HttpHead (get_s3_url (Toy.config true) "a.jpg")]).
Proof.
  apply (probe_access_error (H := Script.collaborators) (Toy.config true)
           "a.jpg" "a.jpg" [] []
           {| Script.heads := [("a.jpg", HeadFound)];
              Script.publics := [(get_s3_url (Toy.config true) "a.jpg", RequestException "timed out")] |}
           {| Script.heads := [("a.jpg", HeadFound)];
              Script.publics := [(get_s3_url (Toy.config true) "a.jpg", RequestException "timed out")] |}
           {| Script.heads := [("a.jpg", HeadFound)];
              Script.publics := [(get_s3_url (Toy.config true) "a.jpg", RequestException "timed out")] |}
           {| Script.heads := [("a.jpg", HeadFound)];
              Script.publics := [(get_s3_url (Toy.config true) "a.jpg", RequestException "timed out")] |}
           (RequestException "timed out") eq_refl eq_refl eq_refl eq_refl).
  discriminate.
Defined.

Lemma probe_bad_code_is_error_row_witness :
  process_single_image (H := Script.collaborators) (Toy.config false)
    "https://site/a.png"
    {| Script.heads := [("a.jpg", HeadClientError (NotAnInt "invalid literal for int()"))];
       Script.publics := [] |}
  = ({| s3_key := ""; status := "ERROR: invalid literal for int()"; s3_url := "";
        response_code := 0 |},
     {| Script.heads := [("a.jpg", HeadClientError (NotAnInt "invalid literal for int()"))];
        Script.publics := [] |},
     [Probe "a.jpg"; HeadObject "bucket" "a.jpg"]).
Proof.
  exact (proj2 (probe_bad_code_is_error_row (H := Script.collaborators) (Toy.config false)
    "https://site/a.png" "a.jpg" "a.jpg" "invalid literal for int()" [] []
    {| Script.heads := [("a.jpg", HeadClientError (NotAnInt "invalid literal for int()"))];
       Script.publics := [] |}
    {| Script.heads := [("a.jpg", HeadClientError (NotAnInt "invalid literal for int()"))];
       Script.publics := [] |}
    {| Script.heads := [("a.jpg", HeadClientError (NotAnInt "invalid literal for int()"))];
       Script.publics := [] |}
    eq_refl eq_refl eq_refl eq_refl)).
Defined.

Lemma probe_answer_invariants_witness :
  "a/b%20c.jpg" ∈ unique_variations "a/b c.jpg"
  /\ (false = false -> 200 = 200 /\ "EXISTS_ACCESSIBLE" = "EXISTS_ACCESSIBLE").
Proof.
  exact (probe_answer_invariants (H := Toy.collaborators) (Toy.config true)
    "a/b c.jpg"
    {| Toy.objects := [("a/b%20c.jpg", 200)]; Toy.source_up := true |}
    {| Toy.objects := [("a/b%20c.jpg", 200)]; Toy.source_up := true |}
    {| needs_upload := false; status_code := 200;
       status_message := "EXISTS_ACCESSIBLE"; actual_s3_key := "a/b%20c.jpg" |}
    [Probe "a/b c.jpg"; HeadObject "bucket" "a/b c.jpg";
     HeadObject "bucket" "a/b%20c.jpg";
     HttpHead "https://bucket.s3.ap-south-1.amazonaws.com/a/b%2520c.jpg"]
    eq_refl).
Defined.

(** ** Variants, encoding and keys *)

Section KeyFacts.

Lemma unreserved_quote (s : string) : unreserved s = true -> Urllib.quote s = s.
Proof.
  induction s as [|c s IH]; [reflexivity|]. simpl.
  intros [Hc Hs]%andb_true_iff. rewrite Hc, IH by exact Hs. reflexivity.
Qed.

Lemma unreserved_no_percent (s : string) :
  unreserved s = true -> Py.contains "%" s = false.
Proof.
  induction s as [|c s IH]; [reflexivity|]. simpl.
  intros [Hc Hs]%andb_true_iff.
  rewrite contains_percent_cons, (safe_not_percent c Hc), IH by exact Hs. reflexivity.
Qed.

Lemma unquote_plain (s : string) : Py.contains "%" s = false -> Urllib.unquote s = s.
Proof. intros Hs. unfold Urllib.unquote. rewrite Hs. reflexivity. Qed.

Lemma keep_first_three (k q : string) :
  keep_first [k; k; q] = if decide (q = k) then [k] else [k; q].
Proof.
  simpl. rewrite (filter_cons_False _ k) by (intros Hk; apply Hk; reflexivity).
  rewrite filter_nil.
  destruct (decide (q = k)) as [->|Hq].
  - rewrite !(filter_cons_False _ k) by (intros Hk; apply Hk; reflexivity). reflexivity.
  - rewrite (filter_cons_True _ q) by exact Hq. rewrite filter_nil.
    rewrite (filter_cons_True _ q) by exact Hq. reflexivity.
Qed.

Lemma startswith_slash_app (x y : string) :
  Py.startswith "/" x = false -> Py.startswith "/" y = false ->
  Py.startswith "/" (x +:+ y) = false.
Proof. destruct x as [|c x]; intros Hx Hy; [exact Hy|]. rewrite app_cons, startswith_char in *. exact Hx. Qed.

(** [quote] never shortens, and keeps the length only of what it keeps. *)
Lemma quote_length (s : string) :
  (String.length s <= String.length (Urllib.quote s))%nat.
Proof.
  induction s as [|c s IH]; [reflexivity|]. simpl.
  destruct (Urllib.always_safe c || Ascii.eqb c "/"); simpl; lia.
Qed.

Lemma quote_same_length (s : string) :
  String.length (Urllib.quote s) = String.length s -> Urllib.quote s = s.
Proof.
  induction s as [|c s IH]; [reflexivity|]. simpl.
  pose proof (quote_length s) as Hl.
  destruct (Urllib.always_safe c || Ascii.eqb c "/"); simpl; intros Hs.
  - rewrite IH by lia. reflexivity.
  - lia.
Qed.

Lemma quote_quote_fresh (key : string) :
  Urllib.quote key <> key ->
  Urllib.quote (Urllib.quote key) <> Urllib.quote key
  /\ Urllib.quote (Urllib.quote key) <> key.
Proof.
  intros Hq. split.
  - intros Heq. apply Hq, quote_inj, Heq.
  - intros Heq. apply Hq, quote_same_length.
    pose proof (quote_length key). pose proof (quote_length (Urllib.quote key)).
    rewrite Heq in *. lia.
Qed.

Lemma keep_first_distinct (a b c : string) :
  a <> b -> a <> c -> b <> c -> keep_first [a; b; c] = [a; b; c].
Proof.
  intros Hab Hac Hbc. simpl.
  rewrite !filter_nil.
  rewrite (filter_cons_True _ c) by (intros Heq; apply Hbc; symmetry; exact Heq).
  rewrite filter_nil.
  rewrite (filter_cons_True _ b) by (intros Heq; apply Hab; symmetry; exact Heq).
  rewrite (filter_cons_True _ c) by (intros Heq; apply Hac; symmetry; exact Heq).
  rewrite filter_nil. reflexivity.
Qed.

(** [basename] cuts after the last slash. *)
Lemma basename_parts (p : string) :
  occurs "/" (Py.basename p) = false
  /\ exists dir, p = dir +:+ Py.basename p /\ (dir = "" \/ exists d, dir = d +:+ "/").
Proof.
  unfold Py.basename. destruct (occurs "/" p) eqn:Ho.
  - destruct (occurs_split_last "/" p Ho) as (a & e & -> & He).
    rewrite (rfind_last "/" a e He).
    replace (Z.to_nat (Z.of_nat (String.length a) + 1))
      with (String.length (a +:+ "/")) by (rewrite length_app; simpl; lia).
    change (a +:+ String "/" e) with (a +:+ "/" +:+ e).
    rewrite <- app_assoc', drop_app_length.
    split; [exact He|]. exists (a +:+ "/"). split; [reflexivity|].
    right. exists a. reflexivity.
  - rewrite (rfind_absent "/" p Ho). simpl.
    split; [destruct p; exact Ho|]. exists "".
    split; [destruct p; reflexivity | left; reflexivity].
Qed.

End KeyFacts.

(** X7. For a key made only of letters, digits, [_.-~] and ['/'], the three
    encodings coincide: the probe has one variant to look up, and the public
    URL is the prefix followed by the key as it is. *)
Theorem unreserved_single_variant (config : Config) (key : string) :
  unreserved key = true ->
  unique_variations key = [key]
  /\ get_s3_url config key = url_prefix config +:+ key.
Proof.
  intros Hu. split.
  - rewrite unique_variations_keep_first. unfold s3_key_variations.
    rewrite (unquote_plain key (unreserved_no_percent key Hu)), (unreserved_quote key Hu).
    rewrite keep_first_three. destruct (decide (key = key)); [reflexivity | contradiction].
  - rewrite get_s3_url_prefix, (unreserved_quote key Hu). reflexivity.
Qed.

Lemma unreserved_single_variant_witness :
  unique_variations "wp-content/uploads/img.jpg" = ["wp-content/uploads/img.jpg"]
  /\ get_s3_url (Toy.config true) "wp-content/uploads/img.jpg"
     = url_prefix (Toy.config true) +:+ "wp-content/uploads/img.jpg".
Proof.
  exact (unreserved_single_variant (Toy.config true) "wp-content/uploads/img.jpg" eq_refl).
Defined.

(** X8. For a key without ['%'], decoding changes nothing: the variants are
    the key alone when encoding leaves it unchanged, and otherwise the key
    followed by its encoded form. *)
Theorem variations_without_percent (key : string) :
  Py.contains "%" key = false ->
  unique_variations key
  = if decide (Urllib.quote key = key) then [key] else [key; Urllib.quote key].
Proof.
  intros Hp. rewrite unique_variations_keep_first. unfold s3_key_variations.
  rewrite (unquote_plain key Hp). apply keep_first_three.
Qed.

Lemma variations_without_percent_witness :
  unique_variations "a b.jpg"
  = if decide (Urllib.quote "a b.jpg" = "a b.jpg") then ["a b.jpg"]
    else ["a b.jpg"; Urllib.quote "a b.jpg"].
Proof. exact (variations_without_percent "a b.jpg" eq_refl). Defined.

(** X9. Decoding undoes encoding on well-formed text. So the variants of
    an encoded key are the encoded key, the key itself and the twice-encoded
    key, and a probe asked about the encoded form that gets a 404 for it
    looks the key itself up next. *)
Theorem encoded_key_tries_decoded `{Collaborators} (config : Config)
        (key : string) (w w1 : World) :
  Urllib.utf8_replace key = key ->
  Urllib.quote key <> key ->
  head_object (bucket_name config) (Urllib.quote key) w
  = (HeadClientError (IntCode 404), w1) ->
  Urllib.unquote (Urllib.quote key) = key
  /\ unique_variations (Urllib.quote key)
     = [Urllib.quote key; key; Urllib.quote (Urllib.quote key)]
  /\ exists t,
       trace (check_s3_object_exists_and_accessible config (Urllib.quote key) w)
       = Probe (Urllib.quote key)
         :: HeadObject (bucket_name config) (Urllib.quote key)
         :: HeadObject (bucket_name config) key :: t.
Proof.
  intros Hk Hq Hh. pose proof (unquote_quote key Hk) as Hu.
  destruct (quote_quote_fresh key Hq) as [Hqq Hqk].
  assert (Hv : unique_variations (Urllib.quote key)
               = [Urllib.quote key; key; Urllib.quote (Urllib.quote key)]).
  { rewrite unique_variations_keep_first. unfold s3_key_variations. rewrite Hu.
    apply keep_first_distinct; [exact Hq | | ]; intros Heq;
      [apply Hqq | apply Hqk]; symmetry; exact Heq. }
  split; [exact Hu|]. split; [exact Hv|].
  destruct (probe_loop_first config (Urllib.quote key) key
              [Urllib.quote (Urllib.quote key)] w1) as (r & w2 & t & Hp).
  exists t.
  rewrite (check_after_skip config (Urllib.quote key) key [Urllib.quote key]
             [Urllib.quote (Urllib.quote key)] w w1 w2 r _ Hv
             ltac:(simpl; rewrite Hh; reflexivity) Hp).
  reflexivity.
Qed.

Lemma encoded_key_tries_decoded_witness :
  Urllib.unquote (Urllib.quote "a b/ü.jpg") = "a b/ü.jpg"
  /\ unique_variations (Urllib.quote "a b/ü.jpg")
     = [Urllib.quote "a b/ü.jpg"; "a b/ü.jpg"; Urllib.quote (Urllib.quote "a b/ü.jpg")]
  /\ exists t,
       trace (check_s3_object_exists_and_accessible (H := Toy.collaborators)
                (Toy.config true) (Urllib.quote "a b/ü.jpg")
                {| Toy.objects := [("a b/ü.jpg", 200)]; Toy.source_up := true |})
       = Probe (Urllib.quote "a b/ü.jpg")
         :: HeadObject "bucket" (Urllib.quote "a b/ü.jpg")
         :: HeadObject "bucket" "a b/ü.jpg" :: t.
Proof.
  apply (encoded_key_tries_decoded (H := Toy.collaborators) (Toy.config true) "a b/ü.jpg"
           {| Toy.objects := [("a b/ü.jpg", 200)]; Toy.source_up := true |}
           {| Toy.objects := [("a b/ü.jpg", 200)]; Toy.source_up := true |}).
  - reflexivity.
  - vm_compute. discriminate.
  - reflexivity.
Defined.

(** X10. Two keys with the same public URL are the same key. *)
Theorem public_url_injective (config : Config) (a b : string) :
  get_s3_url config a = get_s3_url config b -> a = b.
Proof.
  rewrite !get_s3_url_prefix. intros Hu.
  apply (String.app_inj (url_prefix config)) in Hu.
  rewrite <- (unquote_to_bytes_quote a), <- (unquote_to_bytes_quote b), Hu. reflexivity.
Qed.

Lemma public_url_injective_witness : "a b.jpg" = "a b.jpg".
Proof. exact (public_url_injective (Toy.config true) "a b.jpg" "a b.jpg" eq_refl). Defined.

(** X11. A blank URL (empty, or white space only) never reaches key
    derivation from [main]: the row is skipped as a placeholder, with no
    call made. Called directly on a blank URL without the anchor,
    [generate_s3_key] raises [Empty or invalid URL]. *)
Theorem blank_url_is_skipped `{Collaborators} (config : Config)
        (url : string) (c : counters) (w : World) :
  is_blank url = true ->
  main_row config (Some url) c w = ((skipped_outcome, add_error c), w, [])
  /\ (Py.find "/wp-content/" url = -1 ->
      generate_s3_key url = Raise "Empty or invalid URL").
Proof.
  intros Hb. split; [|intros Hf; exact (generate_s3_key_blank url Hf Hb)].
  apply main_row_skipped.
  assert (Hs : Unicode.strip url = "").
  { unfold is_blank in Hb. apply orb_true_iff in Hb as [Hb | Hb].
    - apply String.eqb_eq in Hb. subst url. reflexivity.
    - apply String.eqb_eq in Hb. exact Hb. }
  unfold is_placeholder. rewrite Hs. reflexivity.
Qed.

Lemma blank_url_is_skipped_witness :
  main_row (H := Toy.collaborators) (Toy.config false) (Some "   ") zero_counters Toy.empty_bucket
  = ((skipped_outcome, add_error zero_counters), Toy.empty_bucket, [])
  /\ (Py.find "/wp-content/" "   " = -1 ->
      generate_s3_key (H := Toy.collaborators) "   " = Raise "Empty or invalid URL").
Proof.
  exact (blank_url_is_skipped (H := Toy.collaborators) (Toy.config false) "   "
           zero_counters Toy.empty_bucket eq_refl).
Defined.

(** X12. A derived key never starts with ['/']. *)
Theorem derived_key_has_no_leading_slash `{Collaborators} (url key : string) :
  generate_s3_key url = Ok key -> Py.startswith "/" key = false.
Proof.
  unfold generate_s3_key.
  destruct (negb (Py.find "/wp-content/" url =? -1)).
  - destruct (Py.splitext _) as [base ext]. intros [= <-].
    apply startswith_slash_app; [apply lstrip_slash_clean | reflexivity].
  - unfold extract_s3_path. destruct (is_blank url); [discriminate|].
    destruct (urlparse_path url) as [path|e]; [|discriminate].
    destruct (Py.splitext (Py.lstrip_slash path)) as [base ext] eqn:Hs.
    pose proof (lstrip_slash_clean path) as Hc.
    destruct (bool_decide _); intros [= <-]; [|exact Hc].
    rewrite (splitext_app _ _ _ Hs) in Hc.
    apply startswith_slash_app; [exact (startswith_slash_prefix _ _ Hc) | reflexivity].
Qed.

Lemma derived_key_has_no_leading_slash_witness :
  Py.startswith "/" "a/b.jpg" = false.
Proof.
  exact (derived_key_has_no_leading_slash (H := Toy.collaborators)
           "https://site//a/b.PNG" "a/b.jpg" eq_refl).
Defined.

(** X13. With the anchor present, the key depends only on the text from the
    first [/wp-content/] on: whatever comes before it (scheme, host, leading
    path) is dropped. *)
Theorem anchor_key_ignores_prefix `{Collaborators} (url : string) :
  Py.find "/wp-content/" url <> -1 ->
  generate_s3_key url
  = generate_s3_key (Py.drop (Z.to_nat (Py.find "/wp-content/" url)) url).
Proof.
  intros Hne. destruct (find_found _ _ Hne) as (pre & rest & Hurl & Hfind).
  assert (Hd : Py.drop (Z.to_nat (Py.find "/wp-content/" url)) url
               = "/wp-content/" +:+ rest).
  { rewrite Hfind, Nat2Z.id. rewrite Hurl at 1. apply drop_app_length. }
  rewrite Hd. unfold generate_s3_key at 1.
  destruct (Py.find "/wp-content/" url =? -1) eqn:He; [apply Z.eqb_eq in He; contradiction|].
  simpl negb. cbv iota. rewrite Hd.
  assert (H0 : Py.find "/wp-content/" ("/wp-content/" +:+ rest) = 0).
  { unfold Py.find. pose proof (startswith_app "/wp-content/" rest) as Hsw.
    destruct ("/wp-content/" +:+ rest); cbn [Py.find_from]; rewrite Hsw; reflexivity. }
  unfold generate_s3_key. rewrite H0. reflexivity.
Qed.

Lemma anchor_key_ignores_prefix_witness :
  generate_s3_key (H := Toy.collaborators) "https://site/x/wp-content/uploads/img.PNG"
  = generate_s3_key (H := Toy.collaborators) "/wp-content/uploads/img.PNG".
Proof.
  apply (anchor_key_ignores_prefix (H := Toy.collaborators)
           "https://site/x/wp-content/uploads/img.PNG").
  vm_compute. discriminate.
Defined.

(** X14. The debug file name, passed on only with [debug_save] set, is the
    part of the upload key after its last ['/']: the key is a directory
    part, empty or ending with ['/'], followed by the name, and the name
    holds no ['/']. *)
Theorem debug_name_is_last_component (config : Config) (key name : string) :
  debug_name config key = Some name ->
  debug_save config = true
  /\ occurs "/" name = false
  /\ exists dir, key = dir +:+ name /\ (dir = "" \/ exists d, dir = d +:+ "/").
Proof.
  unfold debug_name. destruct (debug_save config); [|discriminate].
  intros [= <-]. split; [reflexivity | apply basename_parts].
Qed.

Lemma debug_name_is_last_component_witness :
  occurs "/" "img.jpg" = false
  /\ exists dir, "wp-content/uploads/img.jpg" = dir +:+ "img.jpg"
                 /\ (dir = "" \/ exists d, dir = d +:+ "/").
Proof.
  exact (proj2 (debug_name_is_last_component
           {| input_csv := ""; output_csv := ""; bucket_name := "bucket";
              aws_region := "ap-south-1"; target_width := 1200; target_height := 800;
              dry_run := false; debug_save := true; debug_dir := "debug_images";
              test_mode := false; test_rows := 5 |}
           "wp-content/uploads/img.jpg" "img.jpg" eq_refl)).
Defined.

(** ** What one row does, in either mode *)

Section RowFacts.
Context `{Collaborators}.
Variable config : Config.

(** The calls of one probe. *)
Lemma check_counts (s3_key : string) (w w1 : World)
      (r : result probe_result) (t : list event) :
  check_s3_object_exists_and_accessible config s3_key w = (r, w1, t) ->
  count is_probe t = 1%nat
  /\ (count is_head_object t <= 3)%nat
  /\ (count is_http_head t <= 1)%nat
  /\ count is_http_get t = 0%nat
  /\ count is_normalize t = 0%nat
  /\ count is_put_object t = 0%nat
  /\ count upload_activity t = 0%nat.
Proof.
  intros Hc.
  destruct (check_trace config _ _ _ _ _ Hc) as (t' & -> & Hl & Hp).
  destruct (probe_loop_counts config _ _ _ _ _ _ Hp) as [Hh Hg].
  pose proof (unique_variations_length s3_key) as [_ H3].
  assert (Hz : forall p, (forall e, lookup_event e = true -> p e = false) ->
                         count p t' = 0%nat).
  { intros p Hp'. apply count_none. eapply Forall_impl; [exact Hl|]. exact Hp'. }
  simpl. repeat split; try lia;
    rewrite Hz; try reflexivity; intros [] He; simpl in *; congruence.
Qed.

Ltac split_process url w :=
  unfold process_single_image, process_single_image_try, process_image_from_url,
    upload_to_s3, bindE, bind, ret, call;
  destruct (generate_s3_key url) as [key|e] eqn:Hk; simpl;
  [ destruct (check_s3_object_exists_and_accessible config key w)
      as [[[pr|e] w1] t1] eqn:Hc; simpl;
    [ destruct (needs_upload pr) eqn:Hn; simpl;
      [ destruct (dry_run config) eqn:Hd; simpl;
        [ | destruct (requests_get url w1) as [[content|e] w2] eqn:Hg; simpl;
            [ destruct (normalize config content
                          (if debug_save config
                           then Some (Py.basename (actual_s3_key pr)) else None) w2)
                as [[buffer|e] w3] eqn:Hz; simpl;
              [ destruct (upload_fileobj buffer (bucket_name config) (actual_s3_key pr) w3)
                  as [[[]|e] w4] eqn:Hu; simpl;
                [ destruct (check_s3_object_exists_and_accessible config
                              (actual_s3_key pr) w4) as [[[vr|e] w5] t2] eqn:Hv; simpl;
                  [ destruct (negb (needs_upload vr) && (status_code vr =? 200)); simpl
                  | ]
                | ]
              | ]
            | ] ]
      | ]
    | ]
  | ].

Lemma row_call_bounds (url : string) (w : World) :
  let t := trace (process_single_image config url w) in
  (count is_put_object t <= 1)%nat
  /\ (count is_http_get t <= 1)%nat
  /\ (count is_normalize t <= 1)%nat
  /\ (count is_probe t <= 2)%nat
  /\ (count is_head_object t <= 6)%nat
  /\ (count is_http_head t <= 2)%nat.
Proof.
  unfold trace. split_process url w;
    try (pose proof (check_counts _ _ _ _ _ Hc) as (? & ? & ? & ? & ? & ? & ?));
    try (pose proof (check_counts _ _ _ _ _ Hv) as (? & ? & ? & ? & ? & ? & ?));
    repeat (progress (rewrite ?app_nil_r, ?count_app; simpl)); lia.
Qed.

Lemma row_dry_run_quiet (url : string) (w : World) :
  dry_run config = true ->
  count upload_activity (trace (process_single_image config url w)) = 0%nat.
Proof.
  intros Hdry. unfold trace. split_process url w;
    try congruence;
    try (pose proof (check_counts _ _ _ _ _ Hc) as (? & ? & ? & ? & ? & ? & ?));
    repeat (progress (rewrite ?app_nil_r, ?count_app; simpl)); lia.
Qed.

Lemma in_probe_trace_not_put (s3_key bucket k : string) (w w1 : World)
      (r : result probe_result) (t : list event) :
  check_s3_object_exists_and_accessible config s3_key w = (r, w1, t) ->
  PutObject bucket k ∉ t.
Proof.
  intros Hc Hin. pose proof (check_no_upload config _ _ _ _ _ Hc) as Hu.
  rewrite Forall_forall in Hu. specialize (Hu _ Hin). discriminate.
Qed.

Lemma row_upload_target (url bucket k : string) (w : World) :
  PutObject bucket k ∈ trace (process_single_image config url w) ->
  dry_run config = false
  /\ bucket = bucket_name config
  /\ exists key pr w1 t1,
       generate_s3_key url = Ok key
       /\ check_s3_object_exists_and_accessible config key w = (Ok pr, w1, t1)
       /\ needs_upload pr = true
       /\ actual_s3_key pr = k.
Proof.
  unfold trace. split_process url w; rewrite ?app_nil_r;
    rewrite ?elem_of_app, ?elem_of_cons, ?elem_of_nil;
    intros Hin;
    repeat match goal with
           | Hin : _ \/ _ |- _ => destruct Hin as [Hin | Hin]
           end;
    try discriminate; try contradiction;
    try (exfalso; exact (in_probe_trace_not_put _ _ _ _ _ _ _ Hc Hin));
    try (exfalso; exact (in_probe_trace_not_put _ _ _ _ _ _ _ Hv Hin));
    try (injection Hin as -> ->; split; [reflexivity|]; split; [reflexivity|];
         exists key, pr, w1, t1; repeat split; assumption).
Qed.

End RowFacts.

(** X15. In simulate-only mode a whole run makes no download, no normalize
    and no upload call, whatever the rows and the bucket are. *)
Theorem dry_run_never_uploads `{Collaborators} (config : Config)
        (rows : list (option string)) (c : counters) (w : World) :
  dry_run config = true ->
  count upload_activity (trace (main_loop config rows c w)) = 0%nat.
Proof.
  intros Hd. revert c w. induction rows as [|cell rows IH]; intros c w; [reflexivity|].
  simpl. unfold bind, ret.
  assert (Hrow : count upload_activity (trace (main_row config cell c w)) = 0%nat).
  { destruct (is_placeholder cell) eqn:Hp.
    - rewrite (main_row_skipped config cell c w Hp). reflexivity.
    - destruct cell as [url|]; [|discriminate].
      rewrite (main_row_processed config url c w Hp).
      pose proof (row_dry_run_quiet config url w Hd) as Hq.
      destruct (process_single_image config url w) as [[o w1] t]. exact Hq. }
  destruct (main_row config cell c w) as [[[o c1] w1] t1]. simpl.
  specialize (IH c1 w1).
  destruct (main_loop config rows c1 w1) as [[[o1 c1'] w1'] t1'].
  unfold trace in *. simpl in *. rewrite app_nil_r, count_app, Hrow, IH. reflexivity.
Qed.

Lemma dry_run_never_uploads_witness :
  count upload_activity
    (trace (main_loop (H := Toy.collaborators) (Toy.config true)
              [Some "https://site/a/b.PNG"; None; Some "https://site/c.gif"]
              zero_counters
              {| Toy.objects := [("a/b.jpg", 403)]; Toy.source_up := true |})) = 0%nat.
Proof.
  exact (dry_run_never_uploads (H := Toy.collaborators) (Toy.config true)
           [Some "https://site/a/b.PNG"; None; Some "https://site/c.gif"]
           zero_counters
           {| Toy.objects := [("a/b.jpg", 403)]; Toy.source_up := true |} eq_refl).
Defined.

(** X16. In either mode, one row makes at most one upload, one download and
    one normalization, at most two probes, and so at most six [head_object]
    calls and two public checks. *)
Theorem row_makes_bounded_calls `{Collaborators} (config : Config)
        (url : string) (w : World) :
  let t := trace (process_single_image config url w) in
  (count is_put_object t <= 1)%nat
  /\ (count is_http_get t <= 1)%nat
  /\ (count is_normalize t <= 1)%nat
  /\ (count is_probe t <= 2)%nat
  /\ (count is_head_object t <= 6)%nat
  /\ (count is_http_head t <= 2)%nat.
Proof. exact (row_call_bounds config url w). Qed.

(** X17. An upload happens only in live mode, only after the probe has asked
    for it, and only to the configured bucket under the key the probe
    matched. *)
Theorem upload_goes_to_matched_key `{Collaborators} (config : Config)
        (url bucket k : string) (w : World) :
  PutObject bucket k ∈ trace (process_single_image config url w) ->
  dry_run config = false
  /\ bucket = bucket_name config
  /\ exists key pr w1 t1,
       generate_s3_key url = Ok key
       /\ check_s3_object_exists_and_accessible config key w = (Ok pr, w1, t1)
       /\ needs_upload pr = true
       /\ actual_s3_key pr = k.
Proof. exact (row_upload_target config url bucket k w). Qed.

Lemma upload_goes_to_matched_key_witness :
  dry_run (Toy.config false) = false
  /\ "bucket" = bucket_name (Toy.config false)
  /\ exists key pr w1 t1,
       generate_s3_key (H := Toy.collaborators) "https://site/a/b c.PNG" = Ok key
       /\ check_s3_object_exists_and_accessible (H := Toy.collaborators)
            (Toy.config false) key
            {| Toy.objects := [("a/b%20c.jpg", 403)]; Toy.source_up := true |}
          = (Ok pr, w1, t1)
       /\ needs_upload pr = true
       /\ actual_s3_key pr = "a/b%20c.jpg".
Proof.
  apply (upload_goes_to_matched_key (H := Toy.collaborators) (Toy.config false)
           "https://site/a/b c.PNG" "bucket" "a/b%20c.jpg"
           {| Toy.objects := [("a/b%20c.jpg", 403)]; Toy.source_up := true |}).
  vm_compute. repeat first [apply list_elem_of_here | apply list_elem_of_further].
Defined.

(** X18. After an upload, the row is [UPLOADED_OK] exactly when the second
    probe answers [needs_upload = False]; its status is then 200, so the
    extra test on the status code never decides. *)
Theorem uploaded_ok_iff_verified `{Collaborators} (config : Config)
        (url key content buffer : string) (w w1 w2 w3 w4 w5 : World)
        (pr verify : probe_result) (t1 t2 : list event) :
  dry_run config = false ->
  generate_s3_key url = Ok key ->
  check_s3_object_exists_and_accessible config key w = (Ok pr, w1, t1) ->
  needs_upload pr = true ->
  requests_get url w1 = (Ok content, w2) ->
  normalize config content (debug_name config (actual_s3_key pr)) w2 = (Ok buffer, w3) ->
  upload_fileobj buffer (bucket_name config) (actual_s3_key pr) w3 = (Ok tt, w4) ->
  check_s3_object_exists_and_accessible config (actual_s3_key pr) w4 = (Ok verify, w5, t2) ->
  (status (value (process_single_image config url w)) = "UPLOADED_OK"
   <-> needs_upload verify = false)
  /\ (needs_upload verify = false ->
      response_code (value (process_single_image config url w)) = 200).
Proof.
  intros Hd Hk Hc Hn Hg Hz Hu Hv.
  rewrite (process_single_image_ok config url _ w w5 _
             (try_live config url key content buffer w w1 w2 w3 w4 w5 pr _ _ (Ok verify)
                Hk Hc Hn Hd Hg Hz Hu Hv)).
  unfold value. simpl.
  destruct (check_trace config _ _ _ _ _ Hv) as (t' & _ & _ & Hp).
  destruct (needs_upload verify) eqn:Hnv; simpl.
  - split; [|discriminate]. split; [|discriminate].
    intros Hs. apply (f_equal (Py.startswith "UPLOADED_O")) in Hs. discriminate.
  - destruct (probe_loop_accessible config _ _ _ _ _ _ Hp Hnv) as (H200 & _ & _).
    rewrite H200. simpl. split; [split|]; reflexivity.
Qed.

Lemma uploaded_ok_iff_verified_witness :
  (status (value (process_single_image (H := Toy.collaborators) (Toy.config false)
                    "https://site/a/b c.PNG" Toy.empty_bucket)) = "UPLOADED_OK"
   <-> false = false)
  /\ (false = false ->
      response_code (value (process_single_image (H := Toy.collaborators) (Toy.config false)
                              "https://site/a/b c.PNG" Toy.empty_bucket)) = 200).
Proof.
  exact (uploaded_ok_iff_verified (H := Toy.collaborators) (Toy.config false)
    "https://site/a/b c.PNG" "a/b c.jpg" "image" "jpeg:image"
    Toy.empty_bucket Toy.empty_bucket Toy.empty_bucket Toy.empty_bucket
    {| Toy.objects := [("a/b c.jpg", 200)]; Toy.source_up := true |}
    {| Toy.objects := [("a/b c.jpg", 200)]; Toy.source_up := true |}
    {| needs_upload := true; status_code := 404;
       status_message := "NOT_EXISTS"; actual_s3_key := "a/b c.jpg" |}
    {| needs_upload := false; status_code := 200;
       status_message := "EXISTS_ACCESSIBLE"; actual_s3_key := "a/b c.jpg" |}
    [Probe "a/b c.jpg"; HeadObject "bucket" "a/b c.jpg";
     HeadObject "bucket" "a/b%20c.jpg"]
    [Probe "a/b c.jpg"; HeadObject "bucket" "a/b c.jpg";
     HttpHead "https://bucket.s3.ap-south-1.amazonaws.com/a/b%20c.jpg"]
    eq_refl eq_refl eq_refl eq_refl eq_refl eq_refl eq_refl eq_refl).
Defined.

(** X19. In live mode a row whose upload is verified is counted as a new
    upload, whatever the first probe said: an object that existed and
    answered 403, once uploaded again and verified, does not add to the
    re-upload counter. *)
Theorem verified_upload_counts_as_new `{Collaborators} (config : Config)
        (url key content buffer : string) (c : counters) (w w1 w2 w3 w4 w5 : World)
        (pr verify : probe_result) (t1 t2 : list event) :
  is_placeholder (Some url) = false ->
  dry_run config = false ->
  generate_s3_key url = Ok key ->
  check_s3_object_exists_and_accessible config key w = (Ok pr, w1, t1) ->
  needs_upload pr = true ->
  requests_get url w1 = (Ok content, w2) ->
  normalize config content (debug_name config (actual_s3_key pr)) w2 = (Ok buffer, w3) ->
  upload_fileobj buffer (bucket_name config) (actual_s3_key pr) w3 = (Ok tt, w4) ->
  check_s3_object_exists_and_accessible config (actual_s3_key pr) w4 = (Ok verify, w5, t2) ->
  needs_upload verify = false ->
  snd (value (main_row config (Some url) c w)) = add_uploaded c.
Proof.
  intros Hp Hd Hk Hc Hn Hg Hz Hu Hv Hnv.
  rewrite (main_row_processed config url c w Hp).
  rewrite (process_single_image_ok config url _ w w5 _
             (try_live config url key content buffer w w1 w2 w3 w4 w5 pr _ _ (Ok verify)
                Hk Hc Hn Hd Hg Hz Hu Hv)).
  unfold value. simpl.
  destruct (check_trace config _ _ _ _ _ Hv) as (t' & _ & _ & Hpl).
  destruct (probe_loop_accessible config _ _ _ _ _ _ Hpl Hnv) as (H200 & _ & _).
  rewrite Hnv, H200. reflexivity.
Qed.

Lemma verified_upload_counts_as_new_witness :
  snd (value (main_row (H := Toy.collaborators) (Toy.config false)
                (Some "https://site/a/b.PNG") zero_counters
                {| Toy.objects := [("a/b.jpg", 403)]; Toy.source_up := true |}))
  = add_uploaded zero_counters.
Proof.
  exact (verified_upload_counts_as_new (H := Toy.collaborators) (Toy.config false)
    "https://site/a/b.PNG" "a/b.jpg" "image" "jpeg:image" zero_counters
    {| Toy.objects := [("a/b.jpg", 403)]; Toy.source_up := true |}
    {| Toy.objects := [("a/b.jpg", 403)]; Toy.source_up := true |}
    {| Toy.objects := [("a/b.jpg", 403)]; Toy.source_up := true |}
    {| Toy.objects := [("a/b.jpg", 403)]; Toy.source_up := true |}
    {| Toy.objects := [("a/b.jpg", 200)]; Toy.source_up := true |}
    {| Toy.objects := [("a/b.jpg", 200)]; Toy.source_up := true |}
    {| needs_upload := true; status_code := 403;
       status_message := "EXISTS_403_REUPLOAD"; actual_s3_key := "a/b.jpg" |}
    {| needs_upload := false; status_code := 200;
       status_message := "EXISTS_ACCESSIBLE"; actual_s3_key := "a/b.jpg" |}
    [Probe "a/b.jpg"; HeadObject "bucket" "a/b.jpg";
     HttpHead "https://bucket.s3.ap-south-1.amazonaws.com/a/b.jpg"]
    [Probe "a/b.jpg"; HeadObject "bucket" "a/b.jpg";
     HttpHead "https://bucket.s3.ap-south-1.amazonaws.com/a/b.jpg"]
    eq_refl eq_refl eq_refl eq_refl eq_refl eq_refl eq_refl eq_refl eq_refl eq_refl).
Defined.

(** X20. A row on which anything raises is counted as an error, whatever
    the text of the exception. *)
Theorem raised_row_counts_as_error `{Collaborators} (config : Config)
        (url e : string) (c : counters) (w w1 : World) (t : list event) :
  is_placeholder (Some url) = false ->
  process_single_image_try config url w = (Raise e, w1, t) ->
  main_row config (Some url) c w = ((error_outcome e, add_error c), w1, t).
Proof.
  intros Hp Hr. rewrite (main_row_processed config url c w Hp).
  rewrite (process_single_image_raise config url e w w1 t Hr). reflexivity.
Qed.

Lemma raised_row_counts_as_error_witness :
  main_row (H := Toy.collaborators) (Toy.config false) (Some "https://site/missing.png")
    zero_counters Toy.empty_bucket
  = ((error_outcome "404 Client Error: Not Found", add_error zero_counters),
     Toy.empty_bucket,
     [Probe "missing.jpg"; HeadObject "bucket" "missing.jpg";
      HttpGet "https://site/missing.png"]).
Proof.
  exact (raised_row_counts_as_error (H := Toy.collaborators) (Toy.config false)
           "https://site/missing.png" "404 Client Error: Not Found" zero_counters
           Toy.empty_bucket Toy.empty_bucket
           [Probe "missing.jpg"; HeadObject "bucket" "missing.jpg";
            HttpGet "https://site/missing.png"] eq_refl eq_refl).
Defined.

(** X21. A run over placeholder rows only makes no call and leaves the world
    as it was: every row gets the skipped record and only the error counter
    grows, by the number of rows. *)
Theorem placeholder_rows_make_no_call `{Collaborators} (config : Config)
        (rows : list (option string)) (c : counters) (w : World) :
  Forall (fun cell => is_placeholder cell = true) rows ->
  main_loop config rows c w
  = ((map (fun _ => skipped_outcome) rows,
      {| uploaded_count := uploaded_count c; exists_count := exists_count c;
         reupload_count := reupload_count c;
         error_count := (error_count c + length rows)%nat |}), w, []).
Proof.
  intros Hall. revert c. induction Hall as [|cell rows Hp _ IH]; intros c.
  - simpl. unfold ret. destruct c. simpl. rewrite Nat.add_0_r. reflexivity.
  - simpl. unfold bind, ret. rewrite (main_row_skipped config cell c w Hp). simpl.
    rewrite (IH (add_error c)). simpl.
    replace (S (error_count c + length rows)) with (error_count c + S (length rows))%nat
      by lia.
    reflexivity.
Qed.

Lemma placeholder_rows_make_no_call_witness :
  main_loop (H := Toy.collaborators) (Toy.config false)
    [None; Some " pending "; Some "N/A"; Some ""] zero_counters Toy.empty_bucket
  = ((map (fun _ => skipped_outcome) [None; Some " pending "; Some "N/A"; Some ""],
      {| uploaded_count := 0; exists_count := 0; reupload_count := 0;
         error_count := (0 + 4)%nat |}), Toy.empty_bucket, []).
Proof.
  apply (placeholder_rows_make_no_call (H := Toy.collaborators) (Toy.config false)
           [None; Some " pending "; Some "N/A"; Some ""] zero_counters Toy.empty_bucket).
  repeat constructor.
Defined.

(** ** The single-file script against the modules *)

Section UnifiedFacts.
Context `{Collaborators}.
Variable config : Config.

Lemma unified_url_same (key : string) :
  unreserved key = true -> get_s3_url config key = unified_s3_url config key.
Proof. intros Hu. unfold get_s3_url, unified_s3_url. rewrite (unreserved_quote key Hu). reflexivity. Qed.

Lemma check_unified (key : string) (w : World) :
  unreserved key = true ->
  check_s3_object_exists_and_accessible config key w =
  let '(r, w1, t) := unified_check config key w in (as_probe_result key r, w1, t).
Proof.
  intros Hu.
  assert (Hv : unique_variations key = [key]).
  { rewrite unique_variations_keep_first. unfold s3_key_variations.
    rewrite (unquote_plain key (unreserved_no_percent key Hu)), (unreserved_quote key Hu).
    rewrite keep_first_three. destruct (decide (key = key)); [reflexivity | contradiction]. }
  unfold check_s3_object_exists_and_accessible, unified_check, bind, call, ret.
  rewrite Hv. simpl. unfold bind, call, ret. rewrite (unified_url_same key Hu).
  destruct (head_object (bucket_name config) key w) as [[| [n|e] | m] w1].
  - destruct (requests_head (unified_s3_url config key) w1) as [[code|m|m] w2];
      [destruct (code =? 200); [|destruct (code =? 403)] | |]; reflexivity.
  - destruct (n =? 404); reflexivity.
  - reflexivity.
  - reflexivity.
Qed.

Lemma process_unified (url key : string) (w : World) :
  generate_s3_key url = Ok key ->
  unreserved key = true ->
  unified_process_single_image config url w = process_single_image config url w.
Proof.
  intros Hk Hu.
  unfold unified_process_single_image, process_single_image,
    unified_process_try, process_single_image_try, bindE, bind, ret.
  rewrite Hk. simpl. rewrite (check_unified key w Hu).
  destruct (unified_check config key w) as [[[[[n c] m]|e] w1] t1]; simpl; [|reflexivity].
  rewrite <- (unified_url_same key Hu).
  destruct n; simpl; [|reflexivity].
  destruct (dry_run config); simpl; [reflexivity|].
  destruct (process_image_from_url config url _ w1) as [[[buffer|e] w2] t2]; simpl;
    [|reflexivity].
  destruct (upload_to_s3 config buffer key w2) as [[[u|e] w3] t3]; simpl; [|reflexivity].
  rewrite (check_unified key w3 Hu).
  destruct (unified_check config key w3) as [[[[[n' c'] m']|e] w4] t4]; simpl; [|reflexivity].
  destruct (negb n' && (c' =? 200)); reflexivity.
Qed.

End UnifiedFacts.

(** X22. On a key made only of letters, digits, [_.-~] and ['/'], the probe
    of the single-file script and the probe of [S3Handler] do the same
    calls and give the same answer, the matched key being the key itself. *)
Theorem unified_probe_agrees `{Collaborators} (config : Config)
        (key : string) (w : World) :
  unreserved key = true ->
  check_s3_object_exists_and_accessible config key w =
  let '(r, w1, t) := unified_check config key w in
  (match r with
   | Ok (n, c, m) =>
       Ok {| needs_upload := n; status_code := c; status_message := m;
             actual_s3_key := key |}
   | Raise e => Raise e
   end, w1, t).
Proof. exact (check_unified config key w). Qed.

Lemma unified_probe_agrees_witness :
  check_s3_object_exists_and_accessible (H := Toy.collaborators) (Toy.config true)
    "a/b.jpg" {| Toy.objects := [("a/b.jpg", 403)]; Toy.source_up := true |}
  = (Ok {| needs_upload := true; status_code := 403;
           status_message := "EXISTS_403_REUPLOAD"; actual_s3_key := "a/b.jpg" |},
     {| Toy.objects := [("a/b.jpg", 403)]; Toy.source_up := true |},
     [Probe "a/b.jpg"; HeadObject "bucket" "a/b.jpg";
      HttpHead "https://bucket.s3.ap-south-1.amazonaws.com/a/b.jpg"]).
Proof.
  exact (unified_probe_agrees (H := Toy.collaborators) (Toy.config true) "a/b.jpg"
           {| Toy.objects := [("a/b.jpg", 403)]; Toy.source_up := true |} eq_refl).
Defined.

(** X23. For a URL whose derived key is made only of letters, digits,
    [_.-~] and ['/'], [process_single_image] of the single-file script and
    of [main.py] give the same record, make the same calls and leave the
    same world. *)
Theorem unified_row_agrees `{Collaborators} (config : Config)
        (url key : string) (w : World) :
  generate_s3_key url = Ok key ->
  unreserved key = true ->
  unified_process_single_image config url w = process_single_image config url w.
Proof. exact (process_unified config url key w). Qed.

Lemma unified_row_agrees_witness :
  unified_process_single_image (H := Toy.collaborators) (Toy.config false)
    "https://site/x/wp-content/uploads/img.PNG" Toy.empty_bucket
  = process_single_image (H := Toy.collaborators) (Toy.config false)
      "https://site/x/wp-content/uploads/img.PNG" Toy.empty_bucket.
Proof.
  exact (unified_row_agrees (H := Toy.collaborators) (Toy.config false)
           "https://site/x/wp-content/uploads/img.PNG" "wp-content/uploads/img.jpg"
           Toy.empty_bucket eq_refl eq_refl).
Defined.

(** ** Loading the table *)

Section CsvFacts.
Context {cell : Type}.
Variable blank : cell.

Lemma find_first {A : Type} (p : A -> bool) (l : list A) (x : A) :
  List.find p l = Some x ->
  exists before after,
    l = before ++ x :: after /\ p x = true /\ Forall (fun y => p y = false) before.
Proof.
  induction l as [|a l IH]; [discriminate|]. simpl.
  destruct (p a) eqn:Ha.
  - intros [= ->]. exists [], l. repeat split; [exact Ha | constructor].
  - intros Hf. destruct (IH Hf) as (before & after & -> & Hx & Hb).
    exists (a :: before), after. repeat split; [exact Hx | constructor; assumption].
Qed.

Lemma find_same {A : Type} (p q : A -> bool) (l : list A) :
  (forall x, p x = q x) -> List.find p l = List.find q l.
Proof.
  intros Hpq. induction l as [|a l IH]; [reflexivity|]. simpl.
  rewrite Hpq, IH. reflexivity.
Qed.

Lemma find_nothing {A : Type} (p : A -> bool) (l : list A) :
  List.find p l = None <-> Forall (fun y => p y = false) l.
Proof.
  induction l as [|a l IH]; simpl.
  - split; [constructor | reflexivity].
  - destruct (p a) eqn:Ha.
    + split; [discriminate|]. intros Hf. inversion Hf; congruence.
    + rewrite IH. split; [intros Hf; constructor; assumption|].
      intros Hf. inversion Hf; assumption.
Qed.

Lemma has_column_spec (name : string) (df : @Csv.frame cell) :
  Csv.has_column name df = true <-> name ∈ Csv.column_names df.
Proof. unfold Csv.has_column. apply bool_decide_eq_true. Qed.

Lemma column_find (name : string) (cols : list (string * list cell)) :
  snd <$> List.find (fun c => String.eqb (fst c) name) cols = None
  <-> name ∉ map fst cols.
Proof.
  induction cols as [|[n v] cols IH]; simpl.
  - split; [intros _; apply not_elem_of_nil | reflexivity].
  - destruct (String.eqb n name) eqn:He.
    + apply String.eqb_eq in He. subst n. simpl. split; [discriminate|].
      intros Hn. exfalso. apply Hn, list_elem_of_here.
    + apply String.eqb_neq in He. rewrite IH, not_elem_of_cons. split; [|tauto].
      intros Hn. split; [congruence | exact Hn].
Qed.

Lemma set_blank_height (name : string) (df : @Csv.frame cell) :
  Csv.height (Csv.set_blank blank name df) = Csv.height df.
Proof. reflexivity. Qed.

Lemma set_blank_names (name : string) (df : @Csv.frame cell) :
  Csv.column_names (Csv.set_blank blank name df)
  = if Csv.has_column name df then Csv.column_names df
    else Csv.column_names df ++ [name].
Proof.
  unfold Csv.set_blank, Csv.column_names. simpl.
  destruct (Csv.has_column name df).
  - induction (Csv.columns df) as [|[n v] cols IH]; [reflexivity|]. simpl.
    rewrite IH. destruct (String.eqb n name) eqn:He; [|reflexivity].
    apply String.eqb_eq in He. subst n. reflexivity.
  - rewrite map_app. reflexivity.
Qed.

Lemma set_blank_has (name other : string) (df : @Csv.frame cell) :
  Csv.has_column other (Csv.set_blank blank name df)
  = Csv.has_column other df || String.eqb other name.
Proof.
  apply eq_true_iff_eq. rewrite orb_true_iff, !has_column_spec, set_blank_names, String.eqb_eq.
  destruct (Csv.has_column name df) eqn:Hh.
  - apply has_column_spec in Hh. split; [tauto|]. intros [Ho | ->]; assumption.
  - rewrite elem_of_app, list_elem_of_singleton. reflexivity.
Qed.

Lemma set_blank_same (name : string) (df : @Csv.frame cell) :
  Csv.column name (Csv.set_blank blank name df)
  = Some (replicate (Csv.height df) blank).
Proof.
  unfold Csv.column, Csv.set_blank. simpl.
  destruct (Csv.has_column name df) eqn:Hh.
  - apply has_column_spec in Hh. unfold Csv.column_names in Hh.
    induction (Csv.columns df) as [|[n v] cols IH]; [apply elem_of_nil in Hh; contradiction|].
    simpl in *. destruct (String.eqb n name) eqn:He.
    + simpl. rewrite String.eqb_refl. reflexivity.
    + simpl. rewrite He. apply IH. apply elem_of_cons in Hh as [->|Hh]; [|exact Hh].
      rewrite String.eqb_refl in He. discriminate.
  - assert (Hn : name ∉ Csv.column_names df).
    { intros Hin. apply has_column_spec in Hin. congruence. }
    unfold Csv.column_names in Hn.
    induction (Csv.columns df) as [|[n v] cols IH]; simpl.
    + rewrite String.eqb_refl. reflexivity.
    + simpl in Hn. apply not_elem_of_cons in Hn as [Hne Hn].
      destruct (String.eqb n name) eqn:He; [apply String.eqb_eq in He; congruence|].
      exact (IH Hn).
Qed.

Lemma set_blank_other (name other : string) (df : @Csv.frame cell) :
  other <> name ->
  Csv.column other (Csv.set_blank blank name df) = Csv.column other df.
Proof.
  intros Hne. unfold Csv.column, Csv.set_blank. simpl. f_equal.
  destruct (Csv.has_column name df).
  - induction (Csv.columns df) as [|[n v] cols IH]; [reflexivity|]. simpl.
    destruct (String.eqb n name) eqn:He.
    + apply String.eqb_eq in He. subst n. simpl.
      destruct (String.eqb name other) eqn:Ho; [apply String.eqb_eq in Ho; congruence|].
      exact IH.
    + simpl. destruct (String.eqb n other); [reflexivity | exact IH].
  - induction (Csv.columns df) as [|[n v] cols IH]; simpl.
    + destruct (String.eqb name other) eqn:Ho; [apply String.eqb_eq in Ho; congruence|].
      reflexivity.
    + destruct (String.eqb n other); [reflexivity | exact IH].
Qed.

Lemma set_blank_well_formed (name : string) (df : @Csv.frame cell) :
  Csv.well_formed df -> Csv.well_formed (Csv.set_blank blank name df).
Proof.
  unfold Csv.well_formed, Csv.set_blank. simpl. intros Hw.
  destruct (Csv.has_column name df).
  - apply Forall_fmap. eapply Forall_impl; [exact Hw|]. intros [n v] Hv. simpl in *.
    destruct (String.eqb n name); simpl; [apply length_replicate | exact Hv].
  - apply Forall_app. split; [exact Hw|]. constructor; [apply length_replicate | constructor].
Qed.

Lemma head_rows_names (n : Z) (df : @Csv.frame cell) :
  Csv.column_names (Csv.head_rows n df) = Csv.column_names df.
Proof.
  unfold Csv.column_names, Csv.head_rows. simpl. rewrite <- list_fmap_compose.
  apply list_fmap_ext. intros i [name v] _. reflexivity.
Qed.

Lemma head_rows_column (n : Z) (name : string) (df : @Csv.frame cell) :
  0 <= n ->
  Csv.column name (Csv.head_rows n df) = take (Z.to_nat n) <$> Csv.column name df.
Proof.
  intros Hn. unfold Csv.column, Csv.head_rows. simpl.
  destruct (0 <=? n) eqn:He; [|apply Z.leb_gt in He; lia].
  induction (Csv.columns df) as [|[c v] cols IH]; [reflexivity|]. simpl.
  destruct (String.eqb c name); [reflexivity | exact IH].
Qed.

Lemma detect_in_possible (df : @Csv.frame cell) (col : string) :
  Csv.detect_image_url_column df = Some col ->
  col ∈ Csv.possible_columns /\ col ∈ Csv.column_names df.
Proof.
  intros Hd. destruct (find_first _ _ _ Hd) as (before & after & Hl & Hc & _).
  split; [|apply has_column_spec, Hc].
  rewrite Hl. apply elem_of_app. right. apply list_elem_of_here.
Qed.

End CsvFacts.

(** X24. The URL column is the first of WOO IMAGE, s3_url, image_url, url
    that is a column of the table, names compared exactly; there is none
    exactly when no one of the four is a column. *)
Theorem url_column_priority {cell : Type} (df : @Csv.frame cell) :
  (forall col,
     Csv.detect_image_url_column df = Some col ->
     exists before after,
       ["WOO IMAGE"; "s3_url"; "image_url"; "url"] = before ++ col :: after
       /\ col ∈ Csv.column_names df
       /\ forall c, c ∈ before -> c ∉ Csv.column_names df)
  /\ (Csv.detect_image_url_column df = None
      <-> forall c, c ∈ ["WOO IMAGE"; "s3_url"; "image_url"; "url"] ->
                    c ∉ Csv.column_names df).
Proof.
  split.
  - intros col Hd. destruct (find_first _ _ _ Hd) as (before & after & Hl & Hc & Hb).
    exists before, after. split; [exact Hl|]. split; [apply has_column_spec, Hc|].
    intros c Hin Hcol. rewrite Forall_forall in Hb. specialize (Hb c Hin).
    apply has_column_spec in Hcol. congruence.
  - unfold Csv.detect_image_url_column. rewrite find_nothing, Forall_forall.
    split; intros Hall c Hin.
    + intros Hcol. apply has_column_spec in Hcol. specialize (Hall c Hin). congruence.
    + destruct (Csv.has_column c df) eqn:Hh; [|reflexivity].
      apply has_column_spec in Hh. destruct (Hall c Hin Hh).
Qed.

Lemma url_column_priority_witness :
  exists before after,
    ["WOO IMAGE"; "s3_url"; "image_url"; "url"] = before ++ "image_url" :: after
    /\ "image_url" ∈ Csv.column_names
         {| Csv.height := 1;
            Csv.columns := [("url", [Some "u"]); ("name", [Some "n"]);
                            ("image_url", [Some "i"])] |}
    /\ forall c, c ∈ before ->
         c ∉ Csv.column_names
               {| Csv.height := 1;
                  Csv.columns := [("url", [Some "u"]); ("name", [Some "n"]);
                                  ("image_url", [Some "i"])] |}.
Proof.
  exact (proj1 (url_column_priority
                  {| Csv.height := 1;
                     Csv.columns := [("url", [Some "u"]); ("name", [Some "n"]);
                                     ("image_url", [Some "i"])] |})
               "image_url" eq_refl).
Defined.

(** X25. Initialization keeps the number of rows, blanks S3_Key,
    Processing_Status and HTTP_Response_Code (overwriting what such columns
    held), makes sure the result column exists, and leaves every other
    column that was there as it was; in particular a result column that was
    there keeps its values, and a new one is blank. *)
Theorem initialize_result_columns_spec {cell : Type} (blank : cell)
        (df : @Csv.frame cell) (result_column : string) :
  Csv.well_formed df ->
  let df' := Csv.initialize_result_columns blank df result_column in
  let blanks := replicate (Csv.height df) blank in
  Csv.height df' = Csv.height df
  /\ Csv.well_formed df'
  /\ Csv.column "S3_Key" df' = Some blanks
  /\ Csv.column "Processing_Status" df' = Some blanks
  /\ Csv.column "HTTP_Response_Code" df' = Some blanks
  /\ Csv.has_column result_column df' = true
  /\ (forall name,
        name ∉ ["S3_Key"; "Processing_Status"; "HTTP_Response_Code"] ->
        Csv.has_column name df = true ->
        Csv.column name df' = Csv.column name df)
  /\ (result_column ∉ ["S3_Key"; "Processing_Status"; "HTTP_Response_Code"] ->
      Csv.has_column result_column df = false ->
      Csv.column result_column df' = Some blanks).
Proof.
  intros Hw df' blanks. subst df' blanks. unfold Csv.initialize_result_columns.
  set (df1 := Csv.set_blank blank "S3_Key" df).
  set (df2 := Csv.set_blank blank "Processing_Status" df1).
  set (df3 := Csv.set_blank blank "HTTP_Response_Code" df2).
  assert (Hw3 : Csv.well_formed df3) by (repeat apply set_blank_well_formed; exact Hw).
  assert (Hk : Csv.column "S3_Key" df3 = Some (replicate (Csv.height df) blank)).
  { unfold df3, df2. rewrite !set_blank_other by discriminate. apply set_blank_same. }
  assert (Hp : Csv.column "Processing_Status" df3 = Some (replicate (Csv.height df) blank)).
  { unfold df3. rewrite set_blank_other by discriminate. apply (set_blank_same blank _ df1). }
  assert (Hc : Csv.column "HTTP_Response_Code" df3 = Some (replicate (Csv.height df) blank)).
  { apply (set_blank_same blank _ df2). }
  assert (Hother : forall name,
             name ∉ ["S3_Key"; "Processing_Status"; "HTTP_Response_Code"] ->
             Csv.column name df3 = Csv.column name df).
  { intros name Hn. rewrite !not_elem_of_cons in Hn. destruct Hn as (? & ? & ? & _).
    unfold df3, df2, df1. rewrite !set_blank_other by assumption. reflexivity. }
  assert (Hhas : forall name, Csv.has_column name df = true -> Csv.has_column name df3 = true).
  { intros name Hn. unfold df3, df2, df1. rewrite !set_blank_has, Hn. reflexivity. }
  destruct (Csv.has_column result_column df3) eqn:Hr; simpl.
  - split; [reflexivity|]. split; [exact Hw3|]. split; [exact Hk|]. split; [exact Hp|].
    split; [exact Hc|]. split; [exact Hr|]. split; [intros name Hn _; exact (Hother name Hn)|].
    intros Hn Hno. exfalso.
    unfold df3, df2, df1 in Hr. rewrite !set_blank_has, Hno in Hr. simpl in Hr.
    rewrite !not_elem_of_cons in Hn. destruct Hn as (H1 & H2 & H3 & _).
    apply String.eqb_neq in H1, H2, H3. rewrite H1, H2, H3 in Hr. discriminate.
  - assert (Hne : forall name, Csv.has_column name df3 = true -> name <> result_column).
    { intros name Hn ->. congruence. }
    assert (H1 : Csv.has_column "S3_Key" df3 = true).
    { unfold df3, df2, df1. rewrite !set_blank_has. simpl. rewrite ?orb_false_r. apply orb_true_r. }
    assert (H2 : Csv.has_column "Processing_Status" df3 = true).
    { unfold df3, df2. rewrite !set_blank_has. simpl. rewrite ?orb_false_r. apply orb_true_r. }
    assert (H3 : Csv.has_column "HTTP_Response_Code" df3 = true).
    { unfold df3. rewrite !set_blank_has. simpl. rewrite ?orb_false_r. apply orb_true_r. }
    split; [reflexivity|]. split; [apply set_blank_well_formed, Hw3|].
    split; [rewrite set_blank_other by exact (Hne _ H1); exact Hk|].
    split; [rewrite set_blank_other by exact (Hne _ H2); exact Hp|].
    split; [rewrite set_blank_other by exact (Hne _ H3); exact Hc|].
    split; [rewrite set_blank_has, String.eqb_refl; apply orb_true_r|].
    split.
    + intros name Hn Hin. rewrite set_blank_other by exact (Hne _ (Hhas _ Hin)).
      exact (Hother name Hn).
    + intros _ _. apply (set_blank_same blank result_column df3).
Qed.

Lemma initialize_result_columns_spec_witness :
  Csv.column "NEW IMAGE"
    (Csv.initialize_result_columns (Some "")
       {| Csv.height := 2;
          Csv.columns := [("url", [Some "u1"; None]);
                          ("NEW IMAGE", [Some "old"; None]);
                          ("S3_Key", [Some "k1"; Some "k2"])] |} "NEW IMAGE")
  = Some [Some "old"; None]
  /\ Csv.column "S3_Key"
       (Csv.initialize_result_columns (Some "")
          {| Csv.height := 2;
             Csv.columns := [("url", [Some "u1"; None]);
                             ("NEW IMAGE", [Some "old"; None]);
                             ("S3_Key", [Some "k1"; Some "k2"])] |} "NEW IMAGE")
     = Some [Some ""; Some ""].
Proof.
  pose proof (initialize_result_columns_spec (Some "")
    {| Csv.height := 2;
       Csv.columns := [("url", [Some "u1"; None]);
                       ("NEW IMAGE", [Some "old"; None]);
                       ("S3_Key", [Some "k1"; Some "k2"])] |} "NEW IMAGE"
    ltac:(repeat constructor)) as (_ & _ & Hk & _ & _ & _ & Hkeep & _).
  split; [|exact Hk].
  apply (Hkeep "NEW IMAGE"); [|reflexivity].
  rewrite !not_elem_of_cons. repeat split; try discriminate. apply not_elem_of_nil.
Defined.

(** X26. Loading tries utf-8, latin-1, cp1252 and iso-8859-1 in that order
    and returns the table of the first one that decodes. An error of
    another kind ends the attempt at once with that error, and when all
    four fail to decode the error names the file and the four encodings. *)
Theorem load_csv_first_decodable {cell : Type}
        (read_csv : string -> string -> @Csv.read_result cell)
        (file_path encoding : string) (before after : list string) :
  ["utf-8"; "latin-1"; "cp1252"; "iso-8859-1"] = before ++ encoding :: after ->
  Forall (fun e => exists m, read_csv file_path e = Csv.UnicodeDecodeError m) before ->
  Csv.load_csv_with_encoding read_csv file_path
  = match read_csv file_path encoding with
    | Csv.ReadFrame df => Ok df
    | Csv.ReadOtherError e => Raise e
    | Csv.UnicodeDecodeError _ => Csv.try_encodings read_csv file_path after
    end
  /\ Csv.try_encodings read_csv file_path []
     = Raise ("Could not read " +:+ file_path
              +:+ " with any of the tried encodings: "
              +:+ "['utf-8', 'latin-1', 'cp1252', 'iso-8859-1']").
Proof.
  intros Hl Hb. split; [|reflexivity].
  unfold Csv.load_csv_with_encoding, Csv.encodings_to_try. rewrite Hl. clear Hl.
  induction Hb as [|e before [m Hm] _ IH]; simpl.
  - destruct (read_csv file_path encoding); reflexivity.
  - rewrite Hm. exact IH.
Qed.

Lemma load_csv_first_decodable_witness :
  Csv.load_csv_with_encoding
    (fun _ enc => if String.eqb enc "utf-8" then Csv.UnicodeDecodeError "bad byte"
                  else Csv.ReadFrame {| Csv.height := 0; Csv.columns := [("url", @nil (option string))] |})
    "in.csv"
  = Ok {| Csv.height := 0; Csv.columns := [("url", [])] |}.
Proof.
  exact (proj1 (load_csv_first_decodable
    (fun _ enc => if String.eqb enc "utf-8" then Csv.UnicodeDecodeError "bad byte"
                  else Csv.ReadFrame {| Csv.height := 0; Csv.columns := [("url", @nil (option string))] |})
    "in.csv" "latin-1" ["utf-8"] ["cp1252"; "iso-8859-1"] eq_refl
    ltac:(repeat constructor; exists "bad byte"; reflexivity))).
Defined.

(** X27. When the file loads and one of the four URL column names is
    present, [load_data] succeeds: the result column is NEW IMAGE if the
    table has it and S3_URL otherwise, it is never the URL column, and the
    URL column comes out as it was read, cut to the first [test_rows] rows
    in test mode (for [test_rows >= 0]) and whole otherwise. *)
Theorem load_data_keeps_url_column {cell : Type} (blank : cell)
        (read_csv : string -> string -> @Csv.read_result cell)
        (config : Config) (loaded : @Csv.frame cell) (url_column : string) :
  Csv.load_csv_with_encoding read_csv (input_csv config) = Ok loaded ->
  (test_mode config = true -> 0 <= test_rows config) ->
  Csv.detect_image_url_column loaded = Some url_column ->
  exists df result_column,
    Csv.load_data blank read_csv config = Ok (df, url_column, result_column)
    /\ result_column = (if Csv.has_column "NEW IMAGE" loaded then "NEW IMAGE" else "S3_URL")
    /\ result_column <> url_column
    /\ Csv.height df = (if test_mode config
                        then Nat.min (Z.to_nat (test_rows config)) (Csv.height loaded)
                        else Csv.height loaded)
    /\ Csv.column url_column df
       = (if test_mode config
          then take (Z.to_nat (test_rows config)) <$> Csv.column url_column loaded
          else Csv.column url_column loaded).
Proof.
  intros Hload Hrows Hdet.
  set (df0 := if test_mode config then Csv.head_rows (test_rows config) loaded else loaded).
  assert (Hnames : Csv.column_names df0 = Csv.column_names loaded).
  { unfold df0. destruct (test_mode config); [apply head_rows_names | reflexivity]. }
  assert (Hsame : forall name, Csv.has_column name df0 = Csv.has_column name loaded).
  { intros name. unfold Csv.has_column. rewrite Hnames. reflexivity. }
  assert (Hdet0 : Csv.detect_image_url_column df0 = Some url_column).
  { rewrite <- Hdet. unfold Csv.detect_image_url_column.
    apply find_same. intros c. apply Hsame. }
  destruct (detect_in_possible loaded url_column Hdet) as [Hposs Hcol].
  assert (Hthree : url_column ∉ ["S3_Key"; "Processing_Status"; "HTTP_Response_Code"]).
  { unfold Csv.possible_columns in Hposs. rewrite !elem_of_cons, elem_of_nil in Hposs.
    rewrite !not_elem_of_cons.
    destruct Hposs as [-> | [-> | [-> | [-> | []]]]];
      repeat split; try discriminate; apply not_elem_of_nil. }
  assert (Hrc : Csv.determine_result_column df0 <> url_column).
  { unfold Csv.determine_result_column. unfold Csv.possible_columns in Hposs.
    rewrite !elem_of_cons, elem_of_nil in Hposs.
    destruct Hposs as [-> | [-> | [-> | [-> | []]]]];
      destruct (Csv.has_column "NEW IMAGE" df0); discriminate. }
  exists (Csv.initialize_result_columns blank df0 (Csv.determine_result_column df0)),
         (Csv.determine_result_column df0).
  split; [unfold Csv.load_data; rewrite Hload; fold df0; rewrite Hdet0; reflexivity|].
  split; [unfold Csv.determine_result_column; rewrite Hsame; reflexivity|].
  split; [exact Hrc|].
  assert (Hh : Csv.height
                 (Csv.initialize_result_columns blank df0 (Csv.determine_result_column df0))
               = Csv.height df0).
  { unfold Csv.initialize_result_columns. destruct (negb _); reflexivity. }
  assert (Hu : Csv.column url_column
                 (Csv.initialize_result_columns blank df0 (Csv.determine_result_column df0))
               = Csv.column url_column df0).
  { unfold Csv.initialize_result_columns.
    rewrite !not_elem_of_cons in Hthree. destruct Hthree as (? & ? & ? & _).
    destruct (negb _);
      rewrite ?set_blank_other by (assumption || (intros Heq; apply Hrc; symmetry; exact Heq));
      reflexivity. }
  rewrite Hh, Hu. unfold df0.
  destruct (test_mode config) eqn:Ht; [|split; reflexivity].
  specialize (Hrows eq_refl). split.
  - unfold Csv.head_rows. simpl.
    destruct (0 <=? test_rows config) eqn:He; [reflexivity | apply Z.leb_gt in He; lia].
  - apply head_rows_column. exact Hrows.
Qed.

Lemma load_data_keeps_url_column_witness :
  exists df result_column,
    Csv.load_data (Some "")
      (fun _ _ => Csv.ReadFrame
                    {| Csv.height := 3;
                       Csv.columns := [("name", [Some "a"; Some "b"; Some "c"]);
                                       ("WOO IMAGE", [Some "u1"; None; Some "u3"])] |})
      {| input_csv := "in.csv"; output_csv := "out.csv"; bucket_name := "bucket";
         aws_region := "ap-south-1"; target_width := 1200; target_height := 800;
         dry_run := true; debug_save := false; debug_dir := "debug_images";
         test_mode := true; test_rows := 2 |}
    = Ok (df, "WOO IMAGE", result_column)
    /\ result_column = "S3_URL"
    /\ result_column <> "WOO IMAGE"
    /\ Csv.height df = 2%nat
    /\ Csv.column "WOO IMAGE" df = Some [Some "u1"; None].
Proof.
  exact (load_data_keeps_url_column (Some "")
    (fun _ _ => Csv.ReadFrame
                  {| Csv.height := 3;
                     Csv.columns := [("name", [Some "a"; Some "b"; Some "c"]);
                                     ("WOO IMAGE", [Some "u1"; None; Some "u3"])] |})
    {| input_csv := "in.csv"; output_csv := "out.csv"; bucket_name := "bucket";
       aws_region := "ap-south-1"; target_width := 1200; target_height := 800;
       dry_run := true; debug_save := false; debug_dir := "debug_images";
       test_mode := true; test_rows := 2 |}
    {| Csv.height := 3;
       Csv.columns := [("name", [Some "a"; Some "b"; Some "c"]);
                       ("WOO IMAGE", [Some "u1"; None; Some "u3"])] |}
    "WOO IMAGE" eq_refl ltac:(intros _; simpl; lia) eq_refl).
Defined.

(** X28. [load_data] fails with [No recognized image URL column found]
    whenever the file loads but none of the four URL column names is a
    column, in test mode or not; an error of loading is passed on as it
    is. *)
Theorem load_data_failures {cell : Type} (blank : cell)
        (read_csv : string -> string -> @Csv.read_result cell) (config : Config) :
  (forall loaded,
     Csv.load_csv_with_encoding read_csv (input_csv config) = Ok loaded ->
     Csv.detect_image_url_column loaded = None ->
     Csv.load_data blank read_csv config = Raise "No recognized image URL column found")
  /\ (forall e,
        Csv.load_csv_with_encoding read_csv (input_csv config) = Raise e ->
        Csv.load_data blank read_csv config = Raise e).
Proof.
  split.
  - intros loaded Hload Hdet. unfold Csv.load_data. rewrite Hload.
    assert (Hd : Csv.detect_image_url_column
                   (if test_mode config then Csv.head_rows (test_rows config) loaded
                    else loaded) = None).
    { rewrite <- Hdet. unfold Csv.detect_image_url_column. apply find_same.
      intros c. unfold Csv.has_column.
      destruct (test_mode config); [rewrite head_rows_names|]; reflexivity. }
    rewrite Hd. reflexivity.
  - intros e Hload. unfold Csv.load_data. rewrite Hload. reflexivity.
Qed.

Lemma load_data_failures_witness :
  Csv.load_data (Some "")
    (fun _ _ => Csv.ReadFrame
                  {| Csv.height := 1; Csv.columns := [("URL", [Some "u1"])] |})
    (Toy.config true)
  = Raise "No recognized image URL column found".
Proof.
  exact (proj1 (load_data_failures (Some "")
    (fun _ _ => Csv.ReadFrame
                  {| Csv.height := 1; Csv.columns := [("URL", [Some "u1"])] |})
    (Toy.config true))
    {| Csv.height := 1; Csv.columns := [("URL", [Some "u1"])] |} eq_refl eq_refl).
Defined.

(** X29. In test mode, and in simulate-only mode, the run starts without
    asking anything, also when test mode is combined with live uploads. A
    live run outside test mode asks, and goes on exactly when the answer is
    [CONFIRM UPLOAD], letter for letter. *)
Theorem confirmation_is_asked_only_for_full_live_runs (config : Config) (typed : string) :
  (dry_run config = true \/ test_mode config = true ->
   confirm_production_run config typed = (true, false))
  /\ (dry_run config = false -> test_mode config = false ->
      snd (confirm_production_run config typed) = true
      /\ (fst (confirm_production_run config typed) = true <-> typed = "CONFIRM UPLOAD")).
Proof.
  unfold confirm_production_run. split.
  - intros [-> | ->]; [reflexivity|]. rewrite andb_false_r. reflexivity.
  - intros -> ->. simpl. split; [reflexivity | apply String.eqb_eq].
Qed.

Lemma confirmation_is_asked_only_for_full_live_runs_witness :
  confirm_production_run
    {| input_csv := "in.csv"; output_csv := "out.csv"; bucket_name := "bucket";
       aws_region := "ap-south-1"; target_width := 1200; target_height := 800;
       dry_run := false; debug_save := false; debug_dir := "debug_images";
       test_mode := true; test_rows := 5 |} "no"
  = (true, false).
Proof.
  apply (proj1 (confirmation_is_asked_only_for_full_live_runs
    {| input_csv := "in.csv"; output_csv := "out.csv"; bucket_name := "bucket";
       aws_region := "ap-south-1"; target_width := 1200; target_height := 800;
       dry_run := false; debug_save := false; debug_dir := "debug_images";
       test_mode := true; test_rows := 5 |} "no")).
  right. reflexivity.
Defined.
